(** * Boundary exchange of the LULESH example (examples/LULESH/lulesh-comm.cc)

    A shallow embedding of the five communication routines [CommRecv],
    [CommSend], [CommSBN], [CommSyncPosVel] and [CommMonoQ], in the plain MPI
    build of the file (the [#else] branch of every [USE_MPL_CXX] /
    [USE_EMPI] alternative; the three builds differ only in the transport
    call that is issued).

    - [Index_t] and [Int_t] are modelled as [Z]; the routines stay far from
      the range of [int], whose overflow C++ leaves undefined.
    - [Real_t] ([float] or [double], chosen in lulesh.h) is a parameter
      together with its addition: the routines only copy and add field
      values.  Where a sample needs the arithmetic of the code, binary64
      floats ([PrimFloat]) stand for [double].
    - [CACHE_COHERENCE_PAD_REAL], a macro of lulesh.h, is a parameter.
    - Arrays ([commDataSend], [commDataRecv], the field arrays and the
      request arrays) are total maps from indices; C++ leaves accesses out of
      range undefined.
    - The transport is a log of the MPI calls issued, in order. *)

From Stdlib Require Import ZArith List Bool Lia.
From Stdlib Require Floats.PrimFloat.
Import ListNotations.
Open Scope Z_scope.

(** ** Directions of the 3x3x3 neighbourhood *)

Inductive Sign : Type := Minus | Null | Plus.

Definition sgn (s : Sign) : Z :=
  match s with Minus => -1 | Null => 0 | Plus => 1 end.

Definition Sign_eqb (a b : Sign) : bool :=
  match a, b with
  | Minus, Minus | Null, Null | Plus, Plus => true
  | _, _ => false
  end.

Definition flip (s : Sign) : Sign :=
  match s with Minus => Plus | Null => Null | Plus => Minus end.

(** A direction has a component along the column (x), the row (y) and the
    plane (z) axis of the grid of domains. *)
Record Direction : Type := mkDir { d_col : Sign; d_row : Sign; d_plane : Sign }.

Definition Direction_eqb (a b : Direction) : bool :=
  Sign_eqb (d_col a) (d_col b) && Sign_eqb (d_row a) (d_row b)
  && Sign_eqb (d_plane a) (d_plane b).

Definition opposite (d : Direction) : Direction :=
  mkDir (flip (d_col d)) (flip (d_row d)) (flip (d_plane d)).

Definition nonzero_components (d : Direction) : nat :=
  ((if Sign_eqb (d_col d) Null then 0 else 1)
   + (if Sign_eqb (d_row d) Null then 0 else 1)
   + (if Sign_eqb (d_plane d) Null then 0 else 1))%nat.

Definition is_neighbour (d : Direction) : bool :=
  negb (Nat.eqb (nonzero_components d) 0).

Definition is_face (d : Direction) : bool := Nat.eqb (nonzero_components d) 1.

Definition all_signs : list Sign := [Minus; Null; Plus].

Definition all_directions : list Direction :=
  flat_map (fun p => flat_map (fun r => map (fun c => mkDir c r p) all_signs)
                              all_signs) all_signs.

(** The three message classes, each with its own counter and buffer
    stride. *)
Inductive MsgClass : Type := Plane | Edge | Corner.

(** ** The domain *)

(** Accessors of [Domain] that the routines hand to the pack and unpack
    loops ([Domain_member], a pointer to a member function): [&Domain::x] is
    [Domain_x], and so on for the nine the file names itself;
    [Domain_other n] stands for the further accessors of lulesh.h that a
    caller of [CommSend] / [CommSBN] may pass. *)
Inductive Domain_member : Type :=
| Domain_x | Domain_y | Domain_z | Domain_xd | Domain_yd | Domain_zd
| Domain_delv_xi | Domain_delv_eta | Domain_delv_zeta
| Domain_other (n : nat).

Definition Domain_member_eqb (a b : Domain_member) : bool :=
  match a, b with
  | Domain_x, Domain_x | Domain_y, Domain_y | Domain_z, Domain_z => true
  | Domain_xd, Domain_xd | Domain_yd, Domain_yd | Domain_zd, Domain_zd => true
  | Domain_delv_xi, Domain_delv_xi | Domain_delv_eta, Domain_delv_eta => true
  | Domain_delv_zeta, Domain_delv_zeta => true
  | Domain_other n, Domain_other m => Nat.eqb n m
  | _, _ => false
  end.

Inductive MPI_Request : Type := MPI_REQUEST_NULL | MPI_REQUEST_ACTIVE.

(** The MPI calls a routine issues.  [Irecv] and [Isend] carry the offset of
    the buffer in [commDataRecv] / [commDataSend], the element count, the
    peer rank, the tag and the index of the request in [recvRequest] /
    [sendRequest].  [Wait] carries the request index and the value [srcAddr]
    (or [comBuf]) has when the wait is issued.  The leading [Direction] names
    the block of the source that issues the call. *)
Inductive Call : Type :=
| Irecv (blk : Direction) (buf count source tag req : Z)
| Isend (blk : Direction) (buf count dest tag req : Z)
| Wait (blk : Direction) (buf req : Z)
| Waitall (n : Z).

Definition call_dir (c : Call) : option Direction :=
  match c with
  | Irecv d _ _ _ _ _ | Isend d _ _ _ _ _ | Wait d _ _ => Some d
  | Waitall _ => None
  end.

Definition call_peer (c : Call) : option Z :=
  match c with
  | Irecv _ _ _ p _ _ | Isend _ _ _ p _ _ => Some p
  | _ => None
  end.

(** The slot of a call: block, buffer offset and request index. *)
Definition call_slot (c : Call) : option (Direction * Z * Z) :=
  match c with
  | Irecv d b _ _ _ r | Isend d b _ _ _ r | Wait d b r => Some (d, b, r)
  | Waitall _ => None
  end.

Definition is_Irecv (c : Call) : bool :=
  match c with Irecv _ _ _ _ _ _ => true | _ => false end.

Definition is_Isend (c : Call) : bool :=
  match c with Isend _ _ _ _ _ _ => true | _ => false end.

Definition is_Wait (c : Call) : bool :=
  match c with Wait _ _ _ => true | _ => false end.

(** The six flags every routine computes first:
    [rowMin = rowMax = ... = true], then
    [if (domain.rowLoc() == 0) rowMin = false], and so on. *)
Record Flags : Type := mkFlags {
  rowMin : bool; rowMax : bool;
  colMin : bool; colMax : bool;
  planeMin : bool; planeMax : bool }.

(** The local message counters [pmsg], [emsg], [cmsg]. *)
Record Counters : Type := mkCounters { pmsg : Z; emsg : Z; cmsg : Z }.

Definition bump (k : MsgClass) (c : Counters) : Counters :=
  match k with
  | Plane => mkCounters (pmsg c + 1) (emsg c) (cmsg c)
  | Edge => mkCounters (pmsg c) (emsg c + 1) (cmsg c)
  | Corner => mkCounters (pmsg c) (emsg c) (cmsg c + 1)
  end.

(** Total maps with one cell replaced. *)
Definition upd {V : Type} (m : Z -> V) (k : Z) (v : V) : Z -> V :=
  fun j => if Z.eqb j k then v else m j.

Definition upd2 {V : Type} (m : Domain_member -> Z -> V)
    (f : Domain_member) (k : Z) (v : V) : Domain_member -> Z -> V :=
  fun g j => if Domain_member_eqb g f && Z.eqb j k then v else m g j.

(** [0; 1; ...; n-1], the values a loop [for (i=0; i<n; ++i)] takes. *)
Definition upto (n : Z) : list Z := map Z.of_nat (seq 0 (Z.to_nat n)).

(** [for (Index_t i=0; i<26; ++i) req[i] = MPI_REQUEST_NULL] *)
Definition clear_requests (req : Z -> MPI_Request) : Z -> MPI_Request :=
  fold_left (fun r i => upd r i MPI_REQUEST_NULL) (upto 26) req.

(** ** Loop shapes of the pack and unpack blocks

    Every block moves, for each field in turn, the cells of one boundary
    region between the field array and a segment of the buffer, and then
    advances the buffer pointer to the next segment.
    - [Run1 n idx]: [for (i<n) buf[i] <-> field(idx i)], pointer advanced by
      [n];
    - [Run2 n m pos idx adv]: [for (i<n) for (j<m) buf[pos i j] <->
      field(idx i j)], pointer advanced by [adv];
    - [Point idx]: [comBuf[fi] <-> field_fi(idx)]. *)
Inductive Shape : Type :=
| Run1 (n : Z) (idx : Z -> Z)
| Run2 (n m : Z) (pos : Z -> Z -> Z) (idx : Z -> Z -> Z) (adv : Z)
| Point (idx : Z).

(** The pairs (position in the segment, mesh index) in the order the loops
    visit them. *)
Definition cells (sh : Shape) : list (Z * Z) :=
  match sh with
  | Run1 n idx => map (fun i => (i, idx i)) (upto n)
  | Run2 n m pos idx _ =>
      flat_map (fun i => map (fun j => (pos i j, idx i j)) (upto m)) (upto n)
  | Point idx => [(0, idx)]
  end.

Definition advance (sh : Shape) : Z :=
  match sh with
  | Run1 n _ => n
  | Run2 _ _ _ _ adv => adv
  | Point _ => 1
  end.

(** The mesh indices of a region. *)
Definition region (sh : Shape) : list Z := map snd (cells sh).

Section Model.

(** [Real_t] with its [+], and the padding of a corner slot. *)
Context {Real_t : Type}.
Variable Real_add : Real_t -> Real_t -> Real_t.
Variable CACHE_COHERENCE_PAD_REAL : Z.

(** The part of [class Domain] the routines read and write. *)
Record Domain : Type := mkDomain {
  numRanks : Z;
  tp : Z;
  rowLoc : Z; colLoc : Z; planeLoc : Z;
  sizeX : Z; sizeY : Z; sizeZ : Z;
  numElem : Z;
  maxPlaneSize : Z; maxEdgeSize : Z;
  field : Domain_member -> Z -> Real_t;
  commDataSend : Z -> Real_t;
  commDataRecv : Z -> Real_t;
  recvRequest : Z -> MPI_Request;
  sendRequest : Z -> MPI_Request }.

Definition set_field (d : Domain) (v : Domain_member -> Z -> Real_t) : Domain :=
  mkDomain (numRanks d) (tp d) (rowLoc d) (colLoc d) (planeLoc d)
    (sizeX d) (sizeY d) (sizeZ d) (numElem d) (maxPlaneSize d) (maxEdgeSize d)
    v (commDataSend d) (commDataRecv d) (recvRequest d) (sendRequest d).

Definition set_commDataSend (d : Domain) (v : Z -> Real_t) : Domain :=
  mkDomain (numRanks d) (tp d) (rowLoc d) (colLoc d) (planeLoc d)
    (sizeX d) (sizeY d) (sizeZ d) (numElem d) (maxPlaneSize d) (maxEdgeSize d)
    (field d) v (commDataRecv d) (recvRequest d) (sendRequest d).

Definition set_recvRequest (d : Domain) (v : Z -> MPI_Request) : Domain :=
  mkDomain (numRanks d) (tp d) (rowLoc d) (colLoc d) (planeLoc d)
    (sizeX d) (sizeY d) (sizeZ d) (numElem d) (maxPlaneSize d) (maxEdgeSize d)
    (field d) (commDataSend d) (commDataRecv d) v (sendRequest d).

Definition set_sendRequest (d : Domain) (v : Z -> MPI_Request) : Domain :=
  mkDomain (numRanks d) (tp d) (rowLoc d) (colLoc d) (planeLoc d)
    (sizeX d) (sizeY d) (sizeZ d) (numElem d) (maxPlaneSize d) (maxEdgeSize d)
    (field d) (commDataSend d) (commDataRecv d) (recvRequest d) v.

(** A domain together with the MPI calls issued so far. *)
Record World : Type := mkWorld { domain : Domain; calls : list Call }.

Definition boundary (d : Domain) : Flags :=
  mkFlags (negb (rowLoc d =? 0)) (negb (rowLoc d =? tp d - 1))
          (negb (colLoc d =? 0)) (negb (colLoc d =? tp d - 1))
          (negb (planeLoc d =? 0)) (negb (planeLoc d =? tp d - 1)).

(** Buffer offset and request index of the next message of a class:
    [pmsg * maxPlaneComm] and [pmsg] for a plane,
    [pmsg * maxPlaneComm + emsg * maxEdgeComm] and [pmsg+emsg] for an edge,
    [pmsg * maxPlaneComm + emsg * maxEdgeComm + cmsg * CACHE_COHERENCE_PAD_REAL]
    and [pmsg+emsg+cmsg] for a corner. *)
Definition slot_offset (maxPlaneComm maxEdgeComm : Z) (k : MsgClass)
    (c : Counters) : Z :=
  match k with
  | Plane => pmsg c * maxPlaneComm
  | Edge => pmsg c * maxPlaneComm + emsg c * maxEdgeComm
  | Corner => pmsg c * maxPlaneComm + emsg c * maxEdgeComm
              + cmsg c * CACHE_COHERENCE_PAD_REAL
  end.

Definition slot_request (k : MsgClass) (c : Counters) : Z :=
  match k with
  | Plane => pmsg c
  | Edge => pmsg c + emsg c
  | Corner => pmsg c + emsg c + cmsg c
  end.

(** ** CommRecv *)

(** One [if (...) { ... MPI_Irecv(...) ; ++msg ; }] block: its guard, its
    class, [fromRank] and the element count. *)
Record RecvBlock : Type := mkRecvBlock {
  rb_dir : Direction; rb_guard : bool; rb_class : MsgClass;
  rb_fromRank : Z; rb_count : Z }.

(** The six face blocks, in the order of the source. *)
Definition CommRecv_planes (fl : Flags) (tp myRank xferFields dx dy dz : Z)
    (doRecv : bool) : list RecvBlock :=
  [ mkRecvBlock (mkDir Null Null Minus) (planeMin fl && doRecv) Plane
      (myRank - tp*tp) (dx * dy * xferFields);
    mkRecvBlock (mkDir Null Null Plus) (planeMax fl) Plane
      (myRank + tp*tp) (dx * dy * xferFields);
    mkRecvBlock (mkDir Null Minus Null) (rowMin fl && doRecv) Plane
      (myRank - tp) (dx * dz * xferFields);
    mkRecvBlock (mkDir Null Plus Null) (rowMax fl) Plane
      (myRank + tp) (dx * dz * xferFields);
    mkRecvBlock (mkDir Minus Null Null) (colMin fl && doRecv) Plane
      (myRank - 1) (dy * dz * xferFields);
    mkRecvBlock (mkDir Plus Null Null) (colMax fl) Plane
      (myRank + 1) (dy * dz * xferFields) ].

(** The twelve edge and eight corner blocks inside [if (!planeOnly)]. *)
Definition CommRecv_edges_corners (fl : Flags) (tp myRank xferFields dx dy dz : Z)
    (doRecv : bool) : list RecvBlock :=
  [ mkRecvBlock (mkDir Minus Minus Null) (rowMin fl && colMin fl && doRecv) Edge
      (myRank - tp - 1) (dz * xferFields);
    mkRecvBlock (mkDir Null Minus Minus) (rowMin fl && planeMin fl && doRecv) Edge
      (myRank - tp*tp - tp) (dx * xferFields);
    mkRecvBlock (mkDir Minus Null Minus) (colMin fl && planeMin fl && doRecv) Edge
      (myRank - tp*tp - 1) (dy * xferFields);
    mkRecvBlock (mkDir Plus Plus Null) (rowMax fl && colMax fl) Edge
      (myRank + tp + 1) (dz * xferFields);
    mkRecvBlock (mkDir Null Plus Plus) (rowMax fl && planeMax fl) Edge
      (myRank + tp*tp + tp) (dx * xferFields);
    mkRecvBlock (mkDir Plus Null Plus) (colMax fl && planeMax fl) Edge
      (myRank + tp*tp + 1) (dy * xferFields);
    mkRecvBlock (mkDir Minus Plus Null) (rowMax fl && colMin fl) Edge
      (myRank + tp - 1) (dz * xferFields);
    mkRecvBlock (mkDir Null Minus Plus) (rowMin fl && planeMax fl) Edge
      (myRank + tp*tp - tp) (dx * xferFields);
    mkRecvBlock (mkDir Minus Null Plus) (colMin fl && planeMax fl) Edge
      (myRank + tp*tp - 1) (dy * xferFields);
    mkRecvBlock (mkDir Plus Minus Null) (rowMin fl && colMax fl && doRecv) Edge
      (myRank - tp + 1) (dz * xferFields);
    mkRecvBlock (mkDir Null Plus Minus) (rowMax fl && planeMin fl && doRecv) Edge
      (myRank - tp*tp + tp) (dx * xferFields);
    mkRecvBlock (mkDir Plus Null Minus) (colMax fl && planeMin fl && doRecv) Edge
      (myRank - tp*tp + 1) (dy * xferFields);
    mkRecvBlock (mkDir Minus Minus Minus)
      (rowMin fl && colMin fl && planeMin fl && doRecv) Corner
      (myRank - tp*tp - tp - 1) xferFields;
    mkRecvBlock (mkDir Minus Minus Plus)
      (rowMin fl && colMin fl && planeMax fl) Corner
      (myRank + tp*tp - tp - 1) xferFields;
    mkRecvBlock (mkDir Plus Minus Minus)
      (rowMin fl && colMax fl && planeMin fl && doRecv) Corner
      (myRank - tp*tp - tp + 1) xferFields;
    mkRecvBlock (mkDir Plus Minus Plus)
      (rowMin fl && colMax fl && planeMax fl) Corner
      (myRank + tp*tp - tp + 1) xferFields;
    mkRecvBlock (mkDir Minus Plus Minus)
      (rowMax fl && colMin fl && planeMin fl && doRecv) Corner
      (myRank - tp*tp + tp - 1) xferFields;
    mkRecvBlock (mkDir Minus Plus Plus)
      (rowMax fl && colMin fl && planeMax fl) Corner
      (myRank + tp*tp + tp - 1) xferFields;
    mkRecvBlock (mkDir Plus Plus Minus)
      (rowMax fl && colMax fl && planeMin fl && doRecv) Corner
      (myRank - tp*tp + tp + 1) xferFields;
    mkRecvBlock (mkDir Plus Plus Plus)
      (rowMax fl && colMax fl && planeMax fl) Corner
      (myRank + tp*tp + tp + 1) xferFields ].

Definition CommRecv_blocks (fl : Flags) (tp myRank xferFields dx dy dz : Z)
    (doRecv planeOnly : bool) : list RecvBlock :=
  CommRecv_planes fl tp myRank xferFields dx dy dz doRecv
  ++ (if negb planeOnly
      then CommRecv_edges_corners fl tp myRank xferFields dx dy dz doRecv
      else []).

(** The body of a block whose guard holds: the receive is posted into the
    slot of the block's class, and the counter of the class advances. *)
Definition post_recv (maxPlaneComm maxEdgeComm msgType : Z) (b : RecvBlock)
    (c : Counters) (w : World) : World :=
  let req := slot_request (rb_class b) c in
  mkWorld
    (set_recvRequest (domain w) (upd (recvRequest (domain w)) req MPI_REQUEST_ACTIVE))
    (calls w ++ [Irecv (rb_dir b)
                   (slot_offset maxPlaneComm maxEdgeComm (rb_class b) c)
                   (rb_count b) (rb_fromRank b) msgType req]).

Fixpoint run_recv (maxPlaneComm maxEdgeComm msgType : Z) (bs : list RecvBlock)
    (c : Counters) (w : World) : World :=
  match bs with
  | [] => w
  | b :: bs' =>
      if rb_guard b
      then run_recv maxPlaneComm maxEdgeComm msgType bs' (bump (rb_class b) c)
             (post_recv maxPlaneComm maxEdgeComm msgType b c w)
      else run_recv maxPlaneComm maxEdgeComm msgType bs' c w
  end.

(** [myRank] is the value [MPI_Comm_rank] returns. *)
Definition CommRecv (myRank msgType xferFields dx dy dz : Z)
    (doRecv planeOnly : bool) (w : World) : World :=
  let d := domain w in
  if numRanks d =? 1 then w
  else
    let maxPlaneComm := xferFields * maxPlaneSize d in
    let maxEdgeComm := xferFields * maxEdgeSize d in
    let w1 := mkWorld (set_recvRequest d (clear_requests (recvRequest d)))
                      (calls w) in
    run_recv maxPlaneComm maxEdgeComm msgType
      (CommRecv_blocks (boundary d) (tp d) myRank xferFields dx dy dz
         doRecv planeOnly)
      (mkCounters 0 0 0) w1.

(** ** Pack and unpack loops *)

(** The first [xferFields] entries of the array [fieldData]. *)
Definition fields_of (xferFields : Z) (fieldData : list Domain_member)
  : list Domain_member := firstn (Z.to_nat xferFields) fieldData.

(** [for (fi<xferFields) { src = fieldData[fi]; for (...) destAddr[pos] =
    (domain.*src)(idx); destAddr += adv; }] *)
Fixpoint pack (fs : list Domain_member) (sh : Shape)
    (fld : Domain_member -> Z -> Real_t) (destAddr : Z) (buf : Z -> Real_t)
  : Z -> Real_t :=
  match fs with
  | [] => buf
  | src :: fs' =>
      pack fs' sh fld (destAddr + advance sh)
        (fold_left (fun b pk => upd b (destAddr + fst pk) (fld src (snd pk)))
                   (cells sh) buf)
  end.

(** [for (fi<xferFields) { dest = fieldData[fi]; for (...)
    (domain.*dest)(idx) = srcAddr[pos]; srcAddr += adv; }] *)
Fixpoint unpack (fs : list Domain_member) (sh : Shape) (buf : Z -> Real_t)
    (srcAddr : Z) (fld : Domain_member -> Z -> Real_t)
  : Domain_member -> Z -> Real_t :=
  match fs with
  | [] => fld
  | dest :: fs' =>
      unpack fs' sh buf (srcAddr + advance sh)
        (fold_left (fun g pk => upd2 g dest (snd pk) (buf (srcAddr + fst pk)))
                   (cells sh) fld)
  end.

(** [for (fi<xferFields) { dest = fieldData[fi]; for (...)
    (domain.*dest)(idx) += srcAddr[pos]; srcAddr += adv; }] *)
Fixpoint unpack_add (fs : list Domain_member) (sh : Shape) (buf : Z -> Real_t)
    (srcAddr : Z) (fld : Domain_member -> Z -> Real_t)
  : Domain_member -> Z -> Real_t :=
  match fs with
  | [] => fld
  | dest :: fs' =>
      unpack_add fs' sh buf (srcAddr + advance sh)
        (fold_left (fun g pk =>
                      upd2 g dest (snd pk)
                        (Real_add (g dest (snd pk)) (buf (srcAddr + fst pk))))
                   (cells sh) fld)
  end.

(** ** CommSend *)

(** One block of [CommSend]: guard, class, destination rank, the loops that
    fill the send buffer and the element count handed to [MPI_Isend]. *)
Record SendBlock : Type := mkSendBlock {
  sb_dir : Direction; sb_guard : bool; sb_class : MsgClass;
  sb_toRank : Z; sb_shape : Shape; sb_count : Z }.

Definition CommSend_planes (fl : Flags) (tp myRank xferFields dx dy dz : Z)
    (doSend : bool) : list SendBlock :=
  [ mkSendBlock (mkDir Null Null Minus)
      ((planeMin fl || planeMax fl) && planeMin fl) Plane
      (myRank - tp*tp)
      (Run1 (dx * dy) (fun i => i))
      (xferFields * (dx * dy));
    mkSendBlock (mkDir Null Null Plus)
      ((planeMin fl || planeMax fl) && (planeMax fl && doSend)) Plane
      (myRank + tp*tp)
      (Run1 (dx * dy) (fun i => dx*dy*(dz - 1) + i))
      (xferFields * (dx * dy));
    mkSendBlock (mkDir Null Minus Null)
      ((rowMin fl || rowMax fl) && rowMin fl) Plane
      (myRank - tp)
      (Run2 dz dx (fun i j => i*dx + j) (fun i j => i*dx*dy + j) (dx * dz))
      (xferFields * (dx * dz));
    mkSendBlock (mkDir Null Plus Null)
      ((rowMin fl || rowMax fl) && (rowMax fl && doSend)) Plane
      (myRank + tp)
      (Run2 dz dx (fun i j => i*dx + j)
         (fun i j => dx*(dy - 1) + i*dx*dy + j) (dx * dz))
      (xferFields * (dx * dz));
    mkSendBlock (mkDir Minus Null Null)
      ((colMin fl || colMax fl) && colMin fl) Plane
      (myRank - 1)
      (Run2 dz dy (fun i j => i*dy + j) (fun i j => i*dx*dy + j*dx) (dy * dz))
      (xferFields * (dy * dz));
    mkSendBlock (mkDir Plus Null Null)
      ((colMin fl || colMax fl) && (colMax fl && doSend)) Plane
      (myRank + 1)
      (Run2 dz dy (fun i j => i*dy + j)
         (fun i j => dx - 1 + i*dx*dy + j*dx) (dy * dz))
      (xferFields * (dy * dz)) ].

Definition CommSend_edges_corners (fl : Flags) (tp myRank xferFields dx dy dz : Z)
    (doSend : bool) : list SendBlock :=
  [ mkSendBlock (mkDir Minus Minus Null) (rowMin fl && colMin fl) Edge
      (myRank - tp - 1)
      (Run1 dz (fun i => i*dx*dy)) (xferFields * dz);
    mkSendBlock (mkDir Null Minus Minus) (rowMin fl && planeMin fl) Edge
      (myRank - tp*tp - tp)
      (Run1 dx (fun i => i)) (xferFields * dx);
    mkSendBlock (mkDir Minus Null Minus) (colMin fl && planeMin fl) Edge
      (myRank - tp*tp - 1)
      (Run1 dy (fun i => i*dx)) (xferFields * dy);
    mkSendBlock (mkDir Plus Plus Null) (rowMax fl && colMax fl && doSend) Edge
      (myRank + tp + 1)
      (Run1 dz (fun i => dx*dy - 1 + i*dx*dy)) (xferFields * dz);
    mkSendBlock (mkDir Null Plus Plus) (rowMax fl && planeMax fl && doSend) Edge
      (myRank + tp*tp + tp)
      (Run1 dx (fun i => dx*(dy-1) + dx*dy*(dz-1) + i)) (xferFields * dx);
    mkSendBlock (mkDir Plus Null Plus) (colMax fl && planeMax fl && doSend) Edge
      (myRank + tp*tp + 1)
      (Run1 dy (fun i => dx*dy*(dz-1) + dx - 1 + i*dx)) (xferFields * dy);
    mkSendBlock (mkDir Minus Plus Null) (rowMax fl && colMin fl && doSend) Edge
      (myRank + tp - 1)
      (Run1 dz (fun i => dx*(dy-1) + i*dx*dy)) (xferFields * dz);
    mkSendBlock (mkDir Null Minus Plus) (rowMin fl && planeMax fl && doSend) Edge
      (myRank + tp*tp - tp)
      (Run1 dx (fun i => dx*dy*(dz-1) + i)) (xferFields * dx);
    mkSendBlock (mkDir Minus Null Plus) (colMin fl && planeMax fl && doSend) Edge
      (myRank + tp*tp - 1)
      (Run1 dy (fun i => dx*dy*(dz-1) + i*dx)) (xferFields * dy);
    mkSendBlock (mkDir Plus Minus Null) (rowMin fl && colMax fl) Edge
      (myRank - tp + 1)
      (Run1 dz (fun i => dx - 1 + i*dx*dy)) (xferFields * dz);
    mkSendBlock (mkDir Null Plus Minus) (rowMax fl && planeMin fl) Edge
      (myRank - tp*tp + tp)
      (Run1 dx (fun i => dx*(dy - 1) + i)) (xferFields * dx);
    mkSendBlock (mkDir Plus Null Minus) (colMax fl && planeMin fl) Edge
      (myRank - tp*tp + 1)
      (Run1 dy (fun i => dx - 1 + i*dx)) (xferFields * dy);
    mkSendBlock (mkDir Minus Minus Minus)
      (rowMin fl && colMin fl && planeMin fl) Corner
      (myRank - tp*tp - tp - 1)
      (Point 0) xferFields;
    mkSendBlock (mkDir Minus Minus Plus)
      (rowMin fl && colMin fl && planeMax fl && doSend) Corner
      (myRank + tp*tp - tp - 1)
      (Point (dx*dy*(dz - 1))) xferFields;
    mkSendBlock (mkDir Plus Minus Minus)
      (rowMin fl && colMax fl && planeMin fl) Corner
      (myRank - tp*tp - tp + 1)
      (Point (dx - 1)) xferFields;
    mkSendBlock (mkDir Plus Minus Plus)
      (rowMin fl && colMax fl && planeMax fl && doSend) Corner
      (myRank + tp*tp - tp + 1)
      (Point (dx*dy*(dz - 1) + (dx - 1))) xferFields;
    mkSendBlock (mkDir Minus Plus Minus)
      (rowMax fl && colMin fl && planeMin fl) Corner
      (myRank - tp*tp + tp - 1)
      (Point (dx*(dy - 1))) xferFields;
    mkSendBlock (mkDir Minus Plus Plus)
      (rowMax fl && colMin fl && planeMax fl && doSend) Corner
      (myRank + tp*tp + tp - 1)
      (Point (dx*dy*(dz - 1) + dx*(dy - 1))) xferFields;
    mkSendBlock (mkDir Plus Plus Minus)
      (rowMax fl && colMax fl && planeMin fl) Corner
      (myRank - tp*tp + tp + 1)
      (Point (dx*dy - 1)) xferFields;
    mkSendBlock (mkDir Plus Plus Plus)
      (rowMax fl && colMax fl && planeMax fl && doSend) Corner
      (myRank + tp*tp + tp + 1)
      (Point (dx*dy*dz - 1)) xferFields ].

Definition CommSend_blocks (fl : Flags) (tp myRank xferFields dx dy dz : Z)
    (doSend planeOnly : bool) : list SendBlock :=
  CommSend_planes fl tp myRank xferFields dx dy dz doSend
  ++ (if negb planeOnly
      then CommSend_edges_corners fl tp myRank xferFields dx dy dz doSend
      else []).

(** The body of a block whose guard holds: the region is packed into the
    slot of the block's class and the send is issued from there. *)
Definition pack_send (maxPlaneComm maxEdgeComm msgType : Z)
    (fs : list Domain_member) (b : SendBlock) (c : Counters) (w : World)
  : World :=
  let d := domain w in
  let destAddr := slot_offset maxPlaneComm maxEdgeComm (sb_class b) c in
  let req := slot_request (sb_class b) c in
  mkWorld
    (set_sendRequest
       (set_commDataSend d
          (pack fs (sb_shape b) (field d) destAddr (commDataSend d)))
       (upd (sendRequest d) req MPI_REQUEST_ACTIVE))
    (calls w ++ [Isend (sb_dir b) destAddr (sb_count b) (sb_toRank b)
                   msgType req]).

Fixpoint run_send (maxPlaneComm maxEdgeComm msgType : Z)
    (fs : list Domain_member) (bs : list SendBlock)
    (c : Counters) (w : World) : World :=
  match bs with
  | [] => w
  | b :: bs' =>
      if sb_guard b
      then run_send maxPlaneComm maxEdgeComm msgType fs bs'
             (bump (sb_class b) c)
             (pack_send maxPlaneComm maxEdgeComm msgType fs b c w)
      else run_send maxPlaneComm maxEdgeComm msgType fs bs' c w
  end.

(** [MPI_Waitall(26, domain.sendRequest, status)] completes every request of
    the array and leaves it null. *)
Definition wait_all_sends (w : World) : World :=
  mkWorld (set_sendRequest (domain w) (clear_requests (sendRequest (domain w))))
          (calls w ++ [Waitall 26]).

Definition CommSend (myRank msgType xferFields : Z)
    (fieldData : list Domain_member) (dx dy dz : Z)
    (doSend planeOnly : bool) (w : World) : World :=
  let d := domain w in
  if numRanks d =? 1 then w
  else
    let maxPlaneComm := xferFields * maxPlaneSize d in
    let maxEdgeComm := xferFields * maxEdgeSize d in
    let w1 := mkWorld (set_sendRequest d (clear_requests (sendRequest d)))
                      (calls w) in
    wait_all_sends
      (run_send maxPlaneComm maxEdgeComm msgType
         (fields_of xferFields fieldData)
         (CommSend_blocks (boundary d) (tp d) myRank xferFields dx dy dz
            doSend planeOnly)
         (mkCounters 0 0 0) w1).

(** ** CommSBN and CommSyncPosVel *)

(** One block of a consuming routine: guard, class and the loops that move
    the received segment into the mesh. *)
Record UnpackBlock : Type := mkUnpackBlock {
  ub_dir : Direction; ub_guard : bool; ub_class : MsgClass; ub_shape : Shape }.

(** [CommSBN] keeps its flags in [Index_t] variables holding 0 or 1 and
    combines them with [|] and [&]. *)
Definition CommSBN_blocks (fl : Flags) (dx dy dz : Z) : list UnpackBlock :=
  [ mkUnpackBlock (mkDir Null Null Minus)
      ((planeMin fl || planeMax fl) && planeMin fl) Plane
      (Run1 (dx * dy) (fun i => i));
    mkUnpackBlock (mkDir Null Null Plus)
      ((planeMin fl || planeMax fl) && planeMax fl) Plane
      (Run1 (dx * dy) (fun i => dx*dy*(dz - 1) + i));
    mkUnpackBlock (mkDir Null Minus Null)
      ((rowMin fl || rowMax fl) && rowMin fl) Plane
      (Run2 dz dx (fun i j => i*dx + j) (fun i j => i*dx*dy + j) (dx * dz));
    mkUnpackBlock (mkDir Null Plus Null)
      ((rowMin fl || rowMax fl) && rowMax fl) Plane
      (Run2 dz dx (fun i j => i*dx + j)
         (fun i j => dx*(dy - 1) + i*dx*dy + j) (dx * dz));
    mkUnpackBlock (mkDir Minus Null Null)
      ((colMin fl || colMax fl) && colMin fl) Plane
      (Run2 dz dy (fun i j => i*dy + j) (fun i j => i*dx*dy + j*dx) (dy * dz));
    mkUnpackBlock (mkDir Plus Null Null)
      ((colMin fl || colMax fl) && colMax fl) Plane
      (Run2 dz dy (fun i j => i*dy + j)
         (fun i j => dx - 1 + i*dx*dy + j*dx) (dy * dz));
    mkUnpackBlock (mkDir Minus Minus Null) (rowMin fl && colMin fl) Edge
      (Run1 dz (fun i => i*dx*dy));
    mkUnpackBlock (mkDir Null Minus Minus) (rowMin fl && planeMin fl) Edge
      (Run1 dx (fun i => i));
    mkUnpackBlock (mkDir Minus Null Minus) (colMin fl && planeMin fl) Edge
      (Run1 dy (fun i => i*dx));
    mkUnpackBlock (mkDir Plus Plus Null) (rowMax fl && colMax fl) Edge
      (Run1 dz (fun i => dx*dy - 1 + i*dx*dy));
    mkUnpackBlock (mkDir Null Plus Plus) (rowMax fl && planeMax fl) Edge
      (Run1 dx (fun i => dx*(dy-1) + dx*dy*(dz-1) + i));
    mkUnpackBlock (mkDir Plus Null Plus) (colMax fl && planeMax fl) Edge
      (Run1 dy (fun i => dx*dy*(dz-1) + dx - 1 + i*dx));
    mkUnpackBlock (mkDir Minus Plus Null) (rowMax fl && colMin fl) Edge
      (Run1 dz (fun i => dx*(dy-1) + i*dx*dy));
    mkUnpackBlock (mkDir Null Minus Plus) (rowMin fl && planeMax fl) Edge
      (Run1 dx (fun i => dx*dy*(dz-1) + i));
    mkUnpackBlock (mkDir Minus Null Plus) (colMin fl && planeMax fl) Edge
      (Run1 dy (fun i => dx*dy*(dz-1) + i*dx));
    mkUnpackBlock (mkDir Plus Minus Null) (rowMin fl && colMax fl) Edge
      (Run1 dz (fun i => dx - 1 + i*dx*dy));
    mkUnpackBlock (mkDir Null Plus Minus) (rowMax fl && planeMin fl) Edge
      (Run1 dx (fun i => dx*(dy - 1) + i));
    mkUnpackBlock (mkDir Plus Null Minus) (colMax fl && planeMin fl) Edge
      (Run1 dy (fun i => dx - 1 + i*dx));
    mkUnpackBlock (mkDir Minus Minus Minus)
      (rowMin fl && colMin fl && planeMin fl) Corner
      (Point 0);
    mkUnpackBlock (mkDir Minus Minus Plus)
      (rowMin fl && colMin fl && planeMax fl) Corner
      (Point (dx*dy*(dz - 1)));
    mkUnpackBlock (mkDir Plus Minus Minus)
      (rowMin fl && colMax fl && planeMin fl) Corner
      (Point (dx - 1));
    mkUnpackBlock (mkDir Plus Minus Plus)
      (rowMin fl && colMax fl && planeMax fl) Corner
      (Point (dx*dy*(dz - 1) + (dx - 1)));
    mkUnpackBlock (mkDir Minus Plus Minus)
      (rowMax fl && colMin fl && planeMin fl) Corner
      (Point (dx*(dy - 1)));
    mkUnpackBlock (mkDir Minus Plus Plus)
      (rowMax fl && colMin fl && planeMax fl) Corner
      (Point (dx*dy*(dz - 1) + dx*(dy - 1)));
    mkUnpackBlock (mkDir Plus Plus Minus)
      (rowMax fl && colMax fl && planeMin fl) Corner
      (Point (dx*dy - 1));
    mkUnpackBlock (mkDir Plus Plus Plus)
      (rowMax fl && colMax fl && planeMax fl) Corner
      (Point (dx*dy*dz - 1)) ].

(** The blocks of [CommSyncPosVel]; [doRecv] is the local the routine
    declares as [bool doRecv = false]. *)
Definition CommSyncPosVel_blocks (fl : Flags) (dx dy dz : Z) (doRecv : bool)
  : list UnpackBlock :=
  [ mkUnpackBlock (mkDir Null Null Minus)
      ((planeMin fl || planeMax fl) && (planeMin fl && doRecv)) Plane
      (Run1 (dx * dy) (fun i => i));
    mkUnpackBlock (mkDir Null Null Plus)
      ((planeMin fl || planeMax fl) && planeMax fl) Plane
      (Run1 (dx * dy) (fun i => dx*dy*(dz - 1) + i));
    mkUnpackBlock (mkDir Null Minus Null)
      ((rowMin fl || rowMax fl) && (rowMin fl && doRecv)) Plane
      (Run2 dz dx (fun i j => i*dx + j) (fun i j => i*dx*dy + j) (dx * dz));
    mkUnpackBlock (mkDir Null Plus Null)
      ((rowMin fl || rowMax fl) && rowMax fl) Plane
      (Run2 dz dx (fun i j => i*dx + j)
         (fun i j => dx*(dy - 1) + i*dx*dy + j) (dx * dz));
    mkUnpackBlock (mkDir Minus Null Null)
      ((colMin fl || colMax fl) && (colMin fl && doRecv)) Plane
      (Run2 dz dy (fun i j => i*dy + j) (fun i j => i*dx*dy + j*dx) (dy * dz));
    mkUnpackBlock (mkDir Plus Null Null)
      ((colMin fl || colMax fl) && colMax fl) Plane
      (Run2 dz dy (fun i j => i*dy + j)
         (fun i j => dx - 1 + i*dx*dy + j*dx) (dy * dz));
    mkUnpackBlock (mkDir Minus Minus Null) (rowMin fl && colMin fl && doRecv) Edge
      (Run1 dz (fun i => i*dx*dy));
    mkUnpackBlock (mkDir Null Minus Minus) (rowMin fl && planeMin fl && doRecv) Edge
      (Run1 dx (fun i => i));
    mkUnpackBlock (mkDir Minus Null Minus) (colMin fl && planeMin fl && doRecv) Edge
      (Run1 dy (fun i => i*dx));
    mkUnpackBlock (mkDir Plus Plus Null) (rowMax fl && colMax fl) Edge
      (Run1 dz (fun i => dx*dy - 1 + i*dx*dy));
    mkUnpackBlock (mkDir Null Plus Plus) (rowMax fl && planeMax fl) Edge
      (Run1 dx (fun i => dx*(dy-1) + dx*dy*(dz-1) + i));
    mkUnpackBlock (mkDir Plus Null Plus) (colMax fl && planeMax fl) Edge
      (Run1 dy (fun i => dx*dy*(dz-1) + dx - 1 + i*dx));
    mkUnpackBlock (mkDir Minus Plus Null) (rowMax fl && colMin fl) Edge
      (Run1 dz (fun i => dx*(dy-1) + i*dx*dy));
    mkUnpackBlock (mkDir Null Minus Plus) (rowMin fl && planeMax fl) Edge
      (Run1 dx (fun i => dx*dy*(dz-1) + i));
    mkUnpackBlock (mkDir Minus Null Plus) (colMin fl && planeMax fl) Edge
      (Run1 dy (fun i => dx*dy*(dz-1) + i*dx));
    mkUnpackBlock (mkDir Plus Minus Null) (rowMin fl && colMax fl && doRecv) Edge
      (Run1 dz (fun i => dx - 1 + i*dx*dy));
    mkUnpackBlock (mkDir Null Plus Minus) (rowMax fl && planeMin fl && doRecv) Edge
      (Run1 dx (fun i => dx*(dy - 1) + i));
    mkUnpackBlock (mkDir Plus Null Minus) (colMax fl && planeMin fl && doRecv) Edge
      (Run1 dy (fun i => dx - 1 + i*dx));
    mkUnpackBlock (mkDir Minus Minus Minus)
      (rowMin fl && colMin fl && planeMin fl && doRecv) Corner
      (Point 0);
    mkUnpackBlock (mkDir Minus Minus Plus)
      (rowMin fl && colMin fl && planeMax fl) Corner
      (Point (dx*dy*(dz - 1)));
    mkUnpackBlock (mkDir Plus Minus Minus)
      (rowMin fl && colMax fl && planeMin fl && doRecv) Corner
      (Point (dx - 1));
    mkUnpackBlock (mkDir Plus Minus Plus)
      (rowMin fl && colMax fl && planeMax fl) Corner
      (Point (dx*dy*(dz - 1) + (dx - 1)));
    mkUnpackBlock (mkDir Minus Plus Minus)
      (rowMax fl && colMin fl && planeMin fl && doRecv) Corner
      (Point (dx*(dy - 1)));
    mkUnpackBlock (mkDir Minus Plus Plus)
      (rowMax fl && colMin fl && planeMax fl) Corner
      (Point (dx*dy*(dz - 1) + dx*(dy - 1)));
    mkUnpackBlock (mkDir Plus Plus Minus)
      (rowMax fl && colMax fl && planeMin fl && doRecv) Corner
      (Point (dx*dy - 1));
    mkUnpackBlock (mkDir Plus Plus Plus)
      (rowMax fl && colMax fl && planeMax fl) Corner
      (Point (dx*dy*dz - 1)) ].

(** The body of a consuming block whose guard holds: the block waits for the
    request of its slot and moves the segment into the mesh with [unp]
    ([unpack_add] in [CommSBN], [unpack] in [CommSyncPosVel]). *)
Definition wait_unpack
    (unp : list Domain_member -> Shape -> (Z -> Real_t) -> Z ->
           (Domain_member -> Z -> Real_t) -> Domain_member -> Z -> Real_t)
    (maxPlaneComm maxEdgeComm : Z) (fs : list Domain_member)
    (b : UnpackBlock) (c : Counters) (w : World) : World :=
  let d := domain w in
  let srcAddr := slot_offset maxPlaneComm maxEdgeComm (ub_class b) c in
  let req := slot_request (ub_class b) c in
  mkWorld
    (set_field
       (set_recvRequest d (upd (recvRequest d) req MPI_REQUEST_NULL))
       (unp fs (ub_shape b) (commDataRecv d) srcAddr (field d)))
    (calls w ++ [Wait (ub_dir b) srcAddr req]).

Fixpoint run_unpack
    (unp : list Domain_member -> Shape -> (Z -> Real_t) -> Z ->
           (Domain_member -> Z -> Real_t) -> Domain_member -> Z -> Real_t)
    (maxPlaneComm maxEdgeComm : Z) (fs : list Domain_member)
    (bs : list UnpackBlock) (c : Counters) (w : World) : World :=
  match bs with
  | [] => w
  | b :: bs' =>
      if ub_guard b
      then run_unpack unp maxPlaneComm maxEdgeComm fs bs'
             (bump (ub_class b) c)
             (wait_unpack unp maxPlaneComm maxEdgeComm fs b c w)
      else run_unpack unp maxPlaneComm maxEdgeComm fs bs' c w
  end.

Definition CommSBN (myRank xferFields : Z) (fieldData : list Domain_member)
    (w : World) : World :=
  let d := domain w in
  if numRanks d =? 1 then w
  else
    let maxPlaneComm := xferFields * maxPlaneSize d in
    let maxEdgeComm := xferFields * maxEdgeSize d in
    let dx := sizeX d + 1 in
    let dy := sizeY d + 1 in
    let dz := sizeZ d + 1 in
    run_unpack unpack_add maxPlaneComm maxEdgeComm
      (fields_of xferFields fieldData)
      (CommSBN_blocks (boundary d) dx dy dz)
      (mkCounters 0 0 0) w.

(** [fieldData[0] = &Domain::x ; ... ; fieldData[5] = &Domain::zd] *)
Definition PosVel_fields : list Domain_member :=
  [Domain_x; Domain_y; Domain_z; Domain_xd; Domain_yd; Domain_zd].

Definition CommSyncPosVel (myRank : Z) (w : World) : World :=
  let d := domain w in
  if numRanks d =? 1 then w
  else
    let doRecv := false in
    let xferFields := 6 in
    let maxPlaneComm := xferFields * maxPlaneSize d in
    let maxEdgeComm := xferFields * maxEdgeSize d in
    let dx := sizeX d + 1 in
    let dy := sizeY d + 1 in
    let dz := sizeZ d + 1 in
    run_unpack unpack maxPlaneComm maxEdgeComm
      (fields_of xferFields PosVel_fields)
      (CommSyncPosVel_blocks (boundary d) dx dy dz doRecv)
      (mkCounters 0 0 0) w.

(** ** CommMonoQ *)

(** One face block of [CommMonoQ]: guard, [opCount], and whether the block
    ends its field loop with [fieldOffset[fi] += opCount] (all but the last
    block do). *)
Record MonoBlock : Type := mkMonoBlock {
  mb_dir : Direction; mb_guard : bool; mb_opCount : Z; mb_advance : bool }.

Definition CommMonoQ_blocks (fl : Flags) (dx dy dz : Z) : list MonoBlock :=
  [ mkMonoBlock (mkDir Null Null Minus)
      ((planeMin fl || planeMax fl) && planeMin fl) (dx * dy) true;
    mkMonoBlock (mkDir Null Null Plus)
      ((planeMin fl || planeMax fl) && planeMax fl) (dx * dy) true;
    mkMonoBlock (mkDir Null Minus Null)
      ((rowMin fl || rowMax fl) && rowMin fl) (dx * dz) true;
    mkMonoBlock (mkDir Null Plus Null)
      ((rowMin fl || rowMax fl) && rowMax fl) (dx * dz) true;
    mkMonoBlock (mkDir Minus Null Null)
      ((colMin fl || colMax fl) && colMin fl) (dy * dz) true;
    mkMonoBlock (mkDir Plus Null Null)
      ((colMin fl || colMax fl) && colMax fl) (dy * dz) false ].

(** [for (fi<xferFields) { dest = fieldData[fi]; for (i<opCount)
    (domain.*dest)(fieldOffset[fi] + i) = srcAddr[i]; srcAddr += opCount;
    fieldOffset[fi] += opCount; }] *)
Fixpoint mono_unpack (fs : list Domain_member) (fi : Z) (opCount : Z)
    (adv : bool) (buf : Z -> Real_t) (srcAddr : Z)
    (fieldOffset : Z -> Z) (fld : Domain_member -> Z -> Real_t)
  : (Z -> Z) * (Domain_member -> Z -> Real_t) :=
  match fs with
  | [] => (fieldOffset, fld)
  | dest :: fs' =>
      mono_unpack fs' (fi + 1) opCount adv buf (srcAddr + opCount)
        (if adv then upd fieldOffset fi (fieldOffset fi + opCount)
         else fieldOffset)
        (fold_left (fun g pk => upd2 g dest (snd pk) (buf (srcAddr + fst pk)))
                   (cells (Run1 opCount (fun i => fieldOffset fi + i))) fld)
  end.

Definition wait_mono (maxPlaneComm : Z) (fs : list Domain_member)
    (b : MonoBlock) (pmsg : Z) (fieldOffset : Z -> Z) (w : World)
  : (Z -> Z) * World :=
  let d := domain w in
  let srcAddr := pmsg * maxPlaneComm in
  let r := mono_unpack fs 0 (mb_opCount b) (mb_advance b) (commDataRecv d)
             srcAddr fieldOffset (field d) in
  (fst r,
   mkWorld
     (set_field
        (set_recvRequest d (upd (recvRequest d) pmsg MPI_REQUEST_NULL))
        (snd r))
     (calls w ++ [Wait (mb_dir b) srcAddr pmsg])).

Fixpoint run_mono (maxPlaneComm : Z) (fs : list Domain_member)
    (bs : list MonoBlock) (pmsg : Z) (fieldOffset : Z -> Z) (w : World)
  : World :=
  match bs with
  | [] => w
  | b :: bs' =>
      if mb_guard b
      then let r := wait_mono maxPlaneComm fs b pmsg fieldOffset w in
           run_mono maxPlaneComm fs bs' (pmsg + 1) (fst r) (snd r)
      else run_mono maxPlaneComm fs bs' pmsg fieldOffset w
  end.

(** [fieldData[0] = &Domain::delv_xi ; ...] *)
Definition MonoQ_fields : list Domain_member :=
  [Domain_delv_xi; Domain_delv_eta; Domain_delv_zeta].

Definition CommMonoQ (myRank : Z) (w : World) : World :=
  let d := domain w in
  if numRanks d =? 1 then w
  else
    let xferFields := 3 in
    let maxPlaneComm := xferFields * maxPlaneSize d in
    let dx := sizeX d in
    let dy := sizeY d in
    let dz := sizeZ d in
    (* fieldOffset[0] = fieldOffset[1] = fieldOffset[2] = domain.numElem() *)
    let fieldOffset := fun _ : Z => numElem d in
    run_mono maxPlaneComm (fields_of xferFields MonoQ_fields)
      (CommMonoQ_blocks (boundary d) dx dy dz) 0 fieldOffset w.

End Model.

Arguments Domain : clear implicits.
Arguments World : clear implicits.

(** ** The grid of domains *)

(** Row, column and plane lie in [[0, tp)], and there is one domain per
    rank: [numRanks = tp^3]. *)
Definition in_grid (tp r c p : Z) : Prop :=
  0 <= r < tp /\ 0 <= c < tp /\ 0 <= p < tp.

Definition well_formed {Real_t} (d : Domain Real_t) : Prop :=
  1 <= tp d /\ numRanks d = tp d ^ 3
  /\ in_grid (tp d) (rowLoc d) (colLoc d) (planeLoc d).

(** A component of a direction stays inside the grid: a coordinate that is
    not zero for -1, a coordinate below [tp - 1] for +1. *)
Definition component_ok (tp coord : Z) (s : Sign) : bool :=
  match s with
  | Minus => negb (coord =? 0)
  | Null => true
  | Plus => coord <? tp - 1
  end.

(** A direction is active at a position when every nonzero component of it
    avoids the extreme of the grid. *)
Definition active {Real_t} (d : Domain Real_t) (dir : Direction) : bool :=
  component_ok (tp d) (colLoc d) (d_col dir)
  && component_ok (tp d) (rowLoc d) (d_row dir)
  && component_ok (tp d) (planeLoc d) (d_plane dir).

(** The same, read off the six flags of a routine. *)
Definition flag_ok (lo hi : bool) (s : Sign) : bool :=
  match s with Minus => lo | Null => true | Plus => hi end.

Definition flags_active (fl : Flags) (dir : Direction) : bool :=
  flag_ok (colMin fl) (colMax fl) (d_col dir)
  && flag_ok (rowMin fl) (rowMax fl) (d_row dir)
  && flag_ok (planeMin fl) (planeMax fl) (d_plane dir).

(** The position one step along a direction lies in the grid. *)
Definition neighbour_in_grid {Real_t} (d : Domain Real_t) (dir : Direction)
  : Prop :=
  in_grid (tp d) (rowLoc d + sgn (d_row dir)) (colLoc d + sgn (d_col dir))
          (planeLoc d + sgn (d_plane dir)).

(** [rank + dz tp^2 + dy tp + dx] *)
Definition neighbour_rank (rank tp : Z) (dir : Direction) : Z :=
  rank + sgn (d_plane dir) * tp ^ 2 + sgn (d_row dir) * tp + sgn (d_col dir).

(** The directions that lead to a lower rank: the first nonzero component
    among plane, row, column is -1. *)
Definition to_lower (dir : Direction) : bool :=
  match d_plane dir, d_row dir, d_col dir with
  | Minus, _, _ => true
  | Null, Minus, _ => true
  | Null, Null, Minus => true
  | _, _, _ => false
  end.

(** Domain [b] is the neighbour of domain [a] along [dir] in the same grid. *)
Definition adjacent {Real_t} (a b : Domain Real_t) (dir : Direction) : Prop :=
  tp b = tp a /\ numRanks b = numRanks a
  /\ rowLoc b = rowLoc a + sgn (d_row dir)
  /\ colLoc b = colLoc a + sgn (d_col dir)
  /\ planeLoc b = planeLoc a + sgn (d_plane dir).

(** Two domains (or one domain at two moments) with the same place in the
    grid and the same buffer strides. *)
Definition same_layout {Real_t} (a b : Domain Real_t) : Prop :=
  numRanks b = numRanks a /\ tp b = tp a
  /\ rowLoc b = rowLoc a /\ colLoc b = colLoc a /\ planeLoc b = planeLoc a
  /\ maxPlaneSize b = maxPlaneSize a /\ maxEdgeSize b = maxEdgeSize a.

(** Number of mesh cells on the boundary shared with the neighbour along a
    direction: the extents of the axes the direction does not move along. *)
Definition region_size (dx dy dz : Z) (dir : Direction) : Z :=
  (if Sign_eqb (d_col dir) Null then dx else 1)
  * (if Sign_eqb (d_row dir) Null then dy else 1)
  * (if Sign_eqb (d_plane dir) Null then dz else 1).

(** ** Segments of the buffer *)

(** The loops of a shape stay inside the segment of a field, and visit a
    position of the segment for one mesh index only. *)
Definition well_positioned (sh : Shape) : Prop :=
  (forall p k, In (p, k) (cells sh) -> 0 <= p < advance sh)
  /\ (forall p k k', In (p, k) (cells sh) -> In (p, k') (cells sh) -> k = k').

(** The message of [n] fields packed at [destAddr] of the send buffer has
    arrived at [srcAddr] of the receive buffer. *)
Definition delivered {Real_t} (sendBuf recvBuf : Z -> Real_t)
    (destAddr srcAddr count : Z) : Prop :=
  forall q, 0 <= q < count -> recvBuf (srcAddr + q) = sendBuf (destAddr + q).

(** ** Frames of the consuming routines *)

(** The regions of the blocks of [CommSyncPosVel] whose guard names [doRecv]
    (the directions that lead to a lower rank) hold, after the call, what
    they held before. *)
Definition masked_regions_unchanged {Real_t} (before after : Domain Real_t)
  : Prop :=
  forall u f k,
    In u (CommSyncPosVel_blocks (boundary before) (sizeX before + 1)
            (sizeY before + 1) (sizeZ before + 1) false) ->
    to_lower (ub_dir u) = true ->
    In k (region (ub_shape u)) ->
    field after f k = field before f k.

(** ** A message unpacked twice *)

(** After the accumulating loops of [CommSBN] ran twice over the same message,
    every cell the message covers holds [v0 + 2 v]: the value [v0] it held
    plus twice the value [v] the message carries for it. *)
Definition twice_leaves_v0_plus_2v {Real_t : Type}
    (Real_add : Real_t -> Real_t -> Real_t) (fs : list Domain_member)
    (sh : Shape) (buf : Z -> Real_t) (srcAddr : Z)
    (fld : Domain_member -> Z -> Real_t) : Prop :=
  forall fi f p k,
    nth_error fs fi = Some f -> In (p, k) (cells sh) ->
    let v := buf (srcAddr + Z.of_nat fi * advance sh + p) in
    let once := unpack_add Real_add fs sh buf srcAddr fld in
    let twice := unpack_add Real_add fs sh buf srcAddr once in
    twice f k = Real_add (fld f k) (Real_add v v).

(** After the loops ran twice, no cell the message covers holds [v0 + v]. *)
Definition twice_differs_from_v0_plus_v {Real_t : Type}
    (Real_add : Real_t -> Real_t -> Real_t) (fs : list Domain_member)
    (sh : Shape) (buf : Z -> Real_t) (srcAddr : Z)
    (fld : Domain_member -> Z -> Real_t) : Prop :=
  forall fi f p k,
    nth_error fs fi = Some f -> In (p, k) (cells sh) ->
    let v := buf (srcAddr + Z.of_nat fi * advance sh + p) in
    let once := unpack_add Real_add fs sh buf srcAddr fld in
    let twice := unpack_add Real_add fs sh buf srcAddr once in
    twice f k <> Real_add (fld f k) v.

(** The [double] 2^53: the next [double] is 2^53 + 2. *)
Definition two_to_53 : PrimFloat.float :=
  Nat.iter 53 (PrimFloat.mul PrimFloat.two) PrimFloat.one.

(** The faces [CommMonoQ] consumes, each with the value of [pmsg] and of
    [fieldOffset[fi]] at its turn: the offset starts at [start] and moves
    past the face after each face consumed. *)
Fixpoint ghost_runs (bs : list MonoBlock) (pmsg start : Z)
  : list (MonoBlock * Z * Z) :=
  match bs with
  | [] => []
  | b :: bs' =>
      if mb_guard b
      then (b, pmsg, start) :: ghost_runs bs' (pmsg + 1) (start + mb_opCount b)
      else ghost_runs bs' pmsg start
  end.

(** Every block but the last one moves [fieldOffset] past its face. *)
Fixpoint advancing (bs : list MonoBlock) : Prop :=
  match bs with
  | [] => True
  | b :: bs' => (bs' = [] \/ mb_advance b = true) /\ advancing bs'
  end.

(** Total number of elements of the faces consumed. *)
Definition ghost_total (bs : list MonoBlock) : Z :=
  fold_right (fun b n => if mb_guard b then mb_opCount b + n else n) 0 bs.

(** ** The calls a routine issues *)

(** What a routine appends to the log of calls. *)
Definition issued {Real_t} (before after : World Real_t) : list Call :=
  skipn (length (calls before)) (calls after).

Definition labelled (dir : Direction) (c : Call) : bool :=
  match call_dir c with
  | Some d => Direction_eqb d dir
  | None => false
  end.

(** Number of receives posted, and of sends issued, by the block of a
    direction. *)
Definition receives_posted (dir : Direction) (l : list Call) : nat :=
  length (filter (fun c => is_Irecv c && labelled dir c) l).

Definition sends_issued (dir : Direction) (l : list Call) : nat :=
  length (filter (fun c => is_Isend c && labelled dir c) l).

(** A send along [dir] from rank [from] to rank [to] in [sends] that meets, in
    [recvs], a receive posted at [to] by the block of the opposite direction
    with source [from], the same tag and the same element count. *)
Definition transmits (sends recvs : list Call) (dir : Direction)
    (from to : Z) : Prop :=
  exists sbuf rbuf n n' tag sreq rreq,
    In (Isend dir sbuf n to tag sreq) sends
    /\ In (Irecv (opposite dir) rbuf n' from tag rreq) recvs
    /\ n = n'.

(** The calls issued with a mask flag set whose block issues nothing when
    the flag is clear. *)
Definition suppressed (with_flag without_flag : list Call) : list Call :=
  filter (fun e => match call_dir e with
                   | Some d => negb (existsb (labelled d) without_flag)
                   | None => false
                   end) with_flag.

(** Every send of the list goes to a lower rank and every receive comes from
    a higher rank: data moves from higher to lower ranks. *)
Definition flows_to_lower (myRank : Z) (l : list Call) : Prop :=
  Forall (fun e => match e with
                   | Isend _ _ _ dest _ _ => dest < myRank
                   | Irecv _ _ _ source _ _ => myRank < source
                   | _ => True
                   end) l.

(** Every send of the list goes to a higher rank and every receive comes
    from a lower rank: data moves from lower to higher ranks. *)
Definition flows_to_higher (myRank : Z) (l : list Call) : Prop :=
  Forall (fun e => match e with
                   | Isend _ _ _ dest _ _ => myRank < dest
                   | Irecv _ _ _ source _ _ => source < myRank
                   | _ => True
                   end) l.

Section Logs.

Variable CACHE_COHERENCE_PAD_REAL : Z.
Variables maxPlaneComm maxEdgeComm msgType : Z.

Fixpoint recv_log (bs : list RecvBlock) (c : Counters) : list Call :=
  match bs with
  | [] => []
  | b :: bs' =>
      if rb_guard b
      then Irecv (rb_dir b)
             (slot_offset CACHE_COHERENCE_PAD_REAL maxPlaneComm maxEdgeComm
                (rb_class b) c)
             (rb_count b) (rb_fromRank b) msgType (slot_request (rb_class b) c)
           :: recv_log bs' (bump (rb_class b) c)
      else recv_log bs' c
  end.

Fixpoint send_log (bs : list SendBlock) (c : Counters) : list Call :=
  match bs with
  | [] => []
  | b :: bs' =>
      if sb_guard b
      then Isend (sb_dir b)
             (slot_offset CACHE_COHERENCE_PAD_REAL maxPlaneComm maxEdgeComm
                (sb_class b) c)
             (sb_count b) (sb_toRank b) msgType (slot_request (sb_class b) c)
           :: send_log bs' (bump (sb_class b) c)
      else send_log bs' c
  end.

Fixpoint unpack_log (bs : list UnpackBlock) (c : Counters) : list Call :=
  match bs with
  | [] => []
  | b :: bs' =>
      if ub_guard b
      then Wait (ub_dir b)
             (slot_offset CACHE_COHERENCE_PAD_REAL maxPlaneComm maxEdgeComm
                (ub_class b) c)
             (slot_request (ub_class b) c)
           :: unpack_log bs' (bump (ub_class b) c)
      else unpack_log bs' c
  end.

Fixpoint mono_log (bs : list MonoBlock) (pmsg : Z) : list Call :=
  match bs with
  | [] => []
  | b :: bs' =>
      if mb_guard b
      then Wait (mb_dir b) (pmsg * maxPlaneComm) pmsg :: mono_log bs' (pmsg + 1)
      else mono_log bs' pmsg
  end.

End Logs.

(** The blocks of a consuming routine that run. *)
Definition executed (bs : list UnpackBlock) : list UnpackBlock :=
  filter ub_guard bs.

(** ** Sample worlds

    Fields, buffers and requests of concrete worlds over [Real_t := Z]. *)

Definition sample_domain (numRanks tp row col plane size : Z)
    (fld : Domain_member -> Z -> Z) (recv : Z -> Z) : Domain Z :=
  mkDomain numRanks tp row col plane size size size (size * size * size)
    ((size + 1) * (size + 1)) (size + 1)
    fld (fun _ => 0) recv
    (fun _ => MPI_REQUEST_NULL) (fun _ => MPI_REQUEST_NULL).

(** A run on a single rank. *)
Definition single_rank : World Z :=
  mkWorld (sample_domain 1 1 0 0 0 2 (fun _ _ => 0) (fun _ => 0)) [].

(** The domain in the middle of a 3x3x3 grid, with 1x1x1 elements (2x2x2
    nodes), zero fields and a receive buffer that holds 1 everywhere. *)
Definition centre_of_27 : World Z :=
  mkWorld (sample_domain 27 3 1 1 1 1 (fun _ _ => 0) (fun _ => 1)) [].

(** The domain at the origin of a 2x2x2 grid and its neighbour along the
    column axis. *)
Definition origin_of_8 : World Z :=
  mkWorld (sample_domain 8 2 0 0 0 1 (fun _ _ => 0) (fun _ => 1)) [].

Definition east_of_origin : World Z :=
  mkWorld (sample_domain 8 2 0 1 0 1 (fun _ _ => 0) (fun _ => 1)) [].

(** ** Parts of a call and of the buffer layout *)

Definition call_req (c : Call) : option Z :=
  match c with
  | Irecv _ _ _ _ _ r | Isend _ _ _ _ _ r | Wait _ _ r => Some r
  | Waitall _ => None
  end.

(** Some call of the log names request [j]. *)
Definition uses_request (j : Z) (l : list Call) : bool :=
  existsb (fun e => match call_req e with
                    | Some r => r =? j
                    | None => false
                    end) l.

(** A call that belongs to a face block, or to no block at all. *)
Definition face_call (c : Call) : bool :=
  match call_dir c with
  | Some d => is_face d
  | None => true
  end.

(** Distance between the slots of two successive messages of a class. *)
Definition stride (PAD maxPlaneComm maxEdgeComm : Z) (k : MsgClass) : Z :=
  match k with
  | Plane => maxPlaneComm
  | Edge => maxEdgeComm
  | Corner => PAD
  end.

(** The messages of a log lie one after the other in the buffer: each one
    starts at or after [start], and the next one at or after its end. *)
Fixpoint packed_from (start : Z) (l : list Call) : Prop :=
  match l with
  | [] => True
  | Irecv _ buf n _ _ _ :: l' | Isend _ buf n _ _ _ :: l' =>
      start <= buf /\ 0 <= n /\ packed_from (buf + n) l'
  | _ :: l' => packed_from start l'
  end.

(** The strides of the buffer hold the largest message of each class:
    [maxPlaneSize] the largest face, [maxEdgeSize] the longest edge, and the
    padded corner slot one value per field. *)
Definition strides_fit {Real_t} (PAD xferFields dx dy dz : Z)
    (d : Domain Real_t) : Prop :=
  0 <= xferFields /\ 0 <= dx /\ 0 <= dy /\ 0 <= dz
  /\ dx * dy <= maxPlaneSize d /\ dx * dz <= maxPlaneSize d
  /\ dy * dz <= maxPlaneSize d
  /\ dx <= maxEdgeSize d /\ dy <= maxEdgeSize d /\ dz <= maxEdgeSize d
  /\ xferFields <= PAD.

(** Planes come before edges and edges before corners. *)
Definition class_rank (k : MsgClass) : nat :=
  match k with Plane => 0 | Edge => 1 | Corner => 2 end.

(** No message of a class follows a message of a later class. *)
Fixpoint classes_ordered (l : list MsgClass) : bool :=
  match l with
  | [] => true
  | k :: l' =>
      forallb (fun k' => Nat.leb (class_rank k) (class_rank k')) l'
      && classes_ordered l'
  end.

(** The counters of the classes that come after [k] are still zero. *)
Definition phase_ok (k : MsgClass) (c : Counters) : Prop :=
  match k with
  | Plane => emsg c = 0 /\ cmsg c = 0
  | Edge => cmsg c = 0
  | Corner => True
  end.

(** End of the part of the buffer the messages counted so far occupy. *)
Definition next_free (PAD maxPlaneComm maxEdgeComm : Z) (c : Counters) : Z :=
  pmsg c * maxPlaneComm + emsg c * maxEdgeComm + cmsg c * PAD.

(** Node [k] of a [dx] x [dy] x [dz] mesh, with its three coordinates. *)
Definition node_x (dx k : Z) : Z := k mod dx.
Definition node_y (dx dy k : Z) : Z := (k / dx) mod dy.
Definition node_z (dx dy k : Z) : Z := k / (dx * dy).

(** A node that lies on no face of the mesh. *)
Definition interior (dx dy dz k : Z) : Prop :=
  0 <= k < dx * dy * dz
  /\ 0 < node_x dx k < dx - 1
  /\ 0 < node_y dx dy k < dy - 1
  /\ 0 < node_z dx dy k < dz - 1.

(** A coordinate lies on the side of its axis a sign names. *)
Definition on_side (s : Sign) (c n : Z) : Prop :=
  match s with
  | Minus => c = 0
  | Null => True
  | Plus => c = n - 1
  end.

(** Node [k] of a [dx] x [dy] x [dz] mesh lies on the face, edge or corner of
    the mesh that a direction names. *)
Definition boundary_node (dx dy dz : Z) (dir : Direction) (k : Z) : Prop :=
  exists x y z,
    0 <= x < dx /\ 0 <= y < dy /\ 0 <= z < dz
    /\ k = x + y * dx + z * (dx * dy)
    /\ on_side (d_col dir) x dx /\ on_side (d_row dir) y dy
    /\ on_side (d_plane dir) z dz.

(** Along an axis a direction moves along, a coordinate on the side the
    sign names faces the coordinate on the other side of the neighbour's
    mesh; along the other axes the two coordinates are the same. *)
Definition mirrored (s : Sign) (c c' n : Z) : Prop :=
  match s with
  | Minus => c = 0 /\ c' = n - 1
  | Null => c = c'
  | Plus => c = n - 1 /\ c' = 0
  end.

(** Node [k] of a domain and node [k'] of its neighbour along [dir] are the
    same point of the boundary the two meshes share. *)
Definition facing (dx dy dz : Z) (dir : Direction) (k k' : Z) : Prop :=
  exists x y z x' y' z',
    mirrored (d_col dir) x x' dx /\ mirrored (d_row dir) y y' dy
    /\ mirrored (d_plane dir) z z' dz
    /\ (0 <= x < dx /\ 0 <= y < dy /\ 0 <= z < dz)
    /\ (0 <= x' < dx /\ 0 <= y' < dy /\ 0 <= z' < dz)
    /\ k = x + y * dx + z * (dx * dy)
    /\ k' = x' + y' * dx + z' * (dx * dy).

(** Rank 13 of a 3x3x3 grid sits at row 1, column 1, plane 1; its neighbour
    along the plane axis is rank 22. *)
Definition above_centre : World Z :=
  mkWorld (sample_domain 27 3 1 1 2 1 (fun _ _ => 0) (fun _ => 1)) [].

(** A world whose fields hold a different value at every node. *)
Definition graded_centre : World Z :=
  mkWorld (sample_domain 27 3 1 1 1 2 (fun _ k => 100 + k) (fun q => q)) [].

(** The neighbour below [graded_centre] (rank 4, at plane 0), whose receive
    buffer holds what [graded_centre] packs when it sends the six position
    and velocity fields to its lower neighbours. *)
Definition below_graded_centre : World Z :=
  mkWorld
    (sample_domain 27 3 1 1 0 2 (fun _ _ => 0)
       (commDataSend
          (domain (CommSend 16 13 7 6 PosVel_fields 3 3 3 false false
                     graded_centre))))
    [].

(** The values the messages of a consuming run carry for node [k] and the
    field at place [fi] of the field list, in the order the blocks of the run
    consume them. *)
Fixpoint contributions {Real_t : Type} (PAD maxPlaneComm maxEdgeComm : Z)
    (buf : Z -> Real_t) (fi : nat) (k : Z) (bs : list UnpackBlock)
    (c : Counters) : list Real_t :=
  match bs with
  | [] => []
  | b :: bs' =>
      if ub_guard b
      then match find (fun pk => snd pk =? k) (cells (ub_shape b)) with
           | Some pk =>
               [buf (slot_offset PAD maxPlaneComm maxEdgeComm (ub_class b) c
                     + Z.of_nat fi * advance (ub_shape b) + fst pk)]
           | None => []
           end
           ++ contributions PAD maxPlaneComm maxEdgeComm buf fi k bs'
                (bump (ub_class b) c)
      else contributions PAD maxPlaneComm maxEdgeComm buf fi k bs' c
  end.

(** * Properties *)

(** ** Equality tests *)

Lemma Sign_eqb_eq (a b : Sign) : Sign_eqb a b = true <-> a = b.
Proof. destruct a, b; simpl; split; intro H; congruence. Qed.

Lemma Direction_eqb_eq (a b : Direction) : Direction_eqb a b = true <-> a = b.
Proof.
  destruct a as [a1 a2 a3], b as [b1 b2 b3]; unfold Direction_eqb; simpl.
  rewrite !andb_true_iff, !Sign_eqb_eq.
  split; [intros [[-> ->] ->]; reflexivity | intros H; inversion H; auto].
Qed.

Lemma Direction_eqb_refl (a : Direction) : Direction_eqb a a = true.
Proof. apply Direction_eqb_eq; reflexivity. Qed.

Lemma Domain_member_eqb_eq (a b : Domain_member) :
  Domain_member_eqb a b = true <-> a = b.
Proof.
  destruct a, b; simpl; split; intro H; try congruence.
  - apply Nat.eqb_eq in H; congruence.
  - inversion H; apply Nat.eqb_refl.
Qed.

Lemma Domain_member_eqb_refl (a : Domain_member) : Domain_member_eqb a a = true.
Proof. apply Domain_member_eqb_eq; reflexivity. Qed.

Lemma Domain_member_eqb_neq (a b : Domain_member) :
  a <> b -> Domain_member_eqb a b = false.
Proof.
  intro H; destruct (Domain_member_eqb a b) eqn:E; [|reflexivity].
  apply Domain_member_eqb_eq in E; contradiction.
Qed.

(** ** Loops and maps *)

Lemma in_upto (n i : Z) : In i (upto n) <-> 0 <= i < n.
Proof.
  unfold upto; rewrite in_map_iff; split.
  - intros [k [<- Hk]]; apply in_seq in Hk; lia.
  - intros H; exists (Z.to_nat i); split; [lia | apply in_seq; lia].
Qed.

Lemma upd_same {V} (m : Z -> V) k v : upd m k v k = v.
Proof. unfold upd; rewrite Z.eqb_refl; reflexivity. Qed.

Lemma upd_other {V} (m : Z -> V) k v j : j <> k -> upd m k v j = m j.
Proof. intro H; unfold upd; apply Z.eqb_neq in H; rewrite H; reflexivity. Qed.

Lemma upd2_same {V} (m : Domain_member -> Z -> V) f k v : upd2 m f k v f k = v.
Proof.
  unfold upd2; rewrite Domain_member_eqb_refl, Z.eqb_refl; reflexivity.
Qed.

Lemma upd2_other {V} (m : Domain_member -> Z -> V) f k v g j :
  g <> f \/ j <> k -> upd2 m f k v g j = m g j.
Proof.
  intros [H | H]; unfold upd2.
  - rewrite (Domain_member_eqb_neq _ _ H); reflexivity.
  - apply Z.eqb_neq in H; rewrite H, andb_false_r; reflexivity.
Qed.

(** ** The log of a run *)

Lemma issued_app {Real_t} (w w' : World Real_t) (l : list Call) :
  calls w' = calls w ++ l -> issued w w' = l.
Proof.
  intro H; unfold issued; rewrite H, skipn_app, skipn_all, Nat.sub_diag.
  reflexivity.
Qed.

Lemma issued_same {Real_t} (w : World Real_t) : issued w w = [].
Proof. apply issued_app; rewrite app_nil_r; reflexivity. Qed.

Section RunLogs.

Context {Real_t : Type}.
Variable Real_add : Real_t -> Real_t -> Real_t.
Variable PAD : Z.
Variables mp me tag : Z.

Lemma run_recv_calls (bs : list RecvBlock) :
  forall (c : Counters) (w : World Real_t),
    calls (run_recv PAD mp me tag bs c w) = calls w ++ recv_log PAD mp me tag bs c.
Proof.
  induction bs as [|b bs IH]; intros c w; simpl.
  - rewrite app_nil_r; reflexivity.
  - destruct (rb_guard b); [|apply IH].
    rewrite IH; simpl; rewrite <- app_assoc; reflexivity.
Qed.

Lemma run_send_calls (fs : list Domain_member) (bs : list SendBlock) :
  forall (c : Counters) (w : World Real_t),
    calls (run_send PAD mp me tag fs bs c w)
    = calls w ++ send_log PAD mp me tag bs c.
Proof.
  induction bs as [|b bs IH]; intros c w; simpl.
  - rewrite app_nil_r; reflexivity.
  - destruct (sb_guard b); [|apply IH].
    rewrite IH; simpl; rewrite <- app_assoc; reflexivity.
Qed.

Lemma run_unpack_calls unp (fs : list Domain_member) (bs : list UnpackBlock) :
  forall (c : Counters) (w : World Real_t),
    calls (run_unpack PAD unp mp me fs bs c w)
    = calls w ++ unpack_log PAD mp me bs c.
Proof.
  induction bs as [|b bs IH]; intros c w; simpl.
  - rewrite app_nil_r; reflexivity.
  - destruct (ub_guard b); [|apply IH].
    rewrite IH; simpl; rewrite <- app_assoc; reflexivity.
Qed.

Lemma run_mono_calls (fs : list Domain_member) (bs : list MonoBlock) :
  forall (pm : Z) (fo : Z -> Z) (w : World Real_t),
    calls (run_mono mp fs bs pm fo w) = calls w ++ mono_log mp bs pm.
Proof.
  induction bs as [|b bs IH]; intros pm fo w; simpl.
  - rewrite app_nil_r; reflexivity.
  - destruct (mb_guard b); [|apply IH].
    rewrite IH; simpl; rewrite <- app_assoc; reflexivity.
Qed.

End RunLogs.

Section Issued.

Context {Real_t : Type}.
Variable Real_add : Real_t -> Real_t -> Real_t.
Variable PAD : Z.

Lemma CommRecv_issued (myRank msgType xferFields dx dy dz : Z)
    (doRecv planeOnly : bool) (w : World Real_t) :
  issued w (CommRecv PAD myRank msgType xferFields dx dy dz doRecv planeOnly w)
  = if numRanks (domain w) =? 1 then []
    else recv_log PAD (xferFields * maxPlaneSize (domain w))
           (xferFields * maxEdgeSize (domain w)) msgType
           (CommRecv_blocks (boundary (domain w)) (tp (domain w)) myRank
              xferFields dx dy dz doRecv planeOnly)
           (mkCounters 0 0 0).
Proof.
  unfold CommRecv; destruct (numRanks (domain w) =? 1).
  - apply issued_same.
  - apply issued_app; rewrite run_recv_calls; reflexivity.
Qed.

Lemma CommSend_issued (myRank msgType xferFields : Z)
    (fieldData : list Domain_member) (dx dy dz : Z)
    (doSend planeOnly : bool) (w : World Real_t) :
  issued w (CommSend PAD myRank msgType xferFields fieldData dx dy dz
              doSend planeOnly w)
  = if numRanks (domain w) =? 1 then []
    else send_log PAD (xferFields * maxPlaneSize (domain w))
           (xferFields * maxEdgeSize (domain w)) msgType
           (CommSend_blocks (boundary (domain w)) (tp (domain w)) myRank
              xferFields dx dy dz doSend planeOnly)
           (mkCounters 0 0 0)
         ++ [Waitall 26].
Proof.
  unfold CommSend; destruct (numRanks (domain w) =? 1).
  - apply issued_same.
  - apply issued_app; unfold wait_all_sends; cbn [calls].
    rewrite run_send_calls; cbn [calls]; rewrite <- app_assoc; reflexivity.
Qed.

Lemma CommSBN_issued (myRank xferFields : Z) (fieldData : list Domain_member)
    (w : World Real_t) :
  issued w (CommSBN Real_add PAD myRank xferFields fieldData w)
  = if numRanks (domain w) =? 1 then []
    else unpack_log PAD (xferFields * maxPlaneSize (domain w))
           (xferFields * maxEdgeSize (domain w))
           (CommSBN_blocks (boundary (domain w)) (sizeX (domain w) + 1)
              (sizeY (domain w) + 1) (sizeZ (domain w) + 1))
           (mkCounters 0 0 0).
Proof.
  unfold CommSBN; destruct (numRanks (domain w) =? 1).
  - apply issued_same.
  - apply issued_app; rewrite run_unpack_calls; reflexivity.
Qed.

Lemma CommSyncPosVel_issued (myRank : Z) (w : World Real_t) :
  issued w (CommSyncPosVel PAD myRank w)
  = if numRanks (domain w) =? 1 then []
    else unpack_log PAD (6 * maxPlaneSize (domain w))
           (6 * maxEdgeSize (domain w))
           (CommSyncPosVel_blocks (boundary (domain w)) (sizeX (domain w) + 1)
              (sizeY (domain w) + 1) (sizeZ (domain w) + 1) false)
           (mkCounters 0 0 0).
Proof.
  unfold CommSyncPosVel; destruct (numRanks (domain w) =? 1).
  - apply issued_same.
  - apply issued_app; rewrite run_unpack_calls; reflexivity.
Qed.

Lemma CommMonoQ_issued (myRank : Z) (w : World Real_t) :
  issued w (CommMonoQ myRank w)
  = if numRanks (domain w) =? 1 then []
    else mono_log (3 * maxPlaneSize (domain w))
           (CommMonoQ_blocks (boundary (domain w)) (sizeX (domain w))
              (sizeY (domain w)) (sizeZ (domain w))) 0.
Proof.
  unfold CommMonoQ; destruct (numRanks (domain w) =? 1).
  - apply issued_same.
  - apply issued_app; rewrite run_mono_calls; reflexivity.
Qed.

End Issued.

(** ** Single-rank runs *)

(** C7. With [numRanks() == 1] each of the five routines returns the world it
    was given: no element of the send or receive buffer is written, no field
    of the domain changes, no request changes, and no transport call is
    issued. *)
Theorem single_rank_is_noop {Real_t : Type}
    (Real_add : Real_t -> Real_t -> Real_t) (PAD : Z) (w : World Real_t)
    (myRank msgType xferFields dx dy dz : Z) (fieldData : list Domain_member)
    (flag planeOnly : bool) :
  numRanks (domain w) = 1 ->
  CommRecv PAD myRank msgType xferFields dx dy dz flag planeOnly w = w
  /\ CommSend PAD myRank msgType xferFields fieldData dx dy dz flag planeOnly w = w
  /\ CommSBN Real_add PAD myRank xferFields fieldData w = w
  /\ CommSyncPosVel PAD myRank w = w
  /\ CommMonoQ myRank w = w.
Proof.
  intro H.
  unfold CommRecv, CommSend, CommSBN, CommSyncPosVel, CommMonoQ.
  rewrite H; simpl; repeat split.
Qed.

Lemma single_rank_is_noop_witness :
  numRanks (domain single_rank) = 1
  /\ CommRecv 16 0 7 6 3 3 3 true false single_rank = single_rank
  /\ CommSend 16 0 7 6 PosVel_fields 3 3 3 true false single_rank = single_rank
  /\ CommSBN Z.add 16 0 6 PosVel_fields single_rank = single_rank
  /\ CommSyncPosVel 16 0 single_rank = single_rank
  /\ CommMonoQ 0 single_rank = single_rank.
Proof.
  split; [reflexivity|].
  apply (single_rank_is_noop Z.add 16 single_rank 0 7 6 3 3 3 PosVel_fields
           true false).
  reflexivity.
Defined.

(** ** Active directions *)

Lemma active_boundary {Real_t} (d : Domain Real_t) (dir : Direction) :
  in_grid (tp d) (rowLoc d) (colLoc d) (planeLoc d) ->
  active d dir = flags_active (boundary d) dir.
Proof.
  intros (Hr & Hc & Hp); unfold active, flags_active, boundary; simpl.
  assert (E : forall coord s, 0 <= coord < tp d ->
            component_ok (tp d) coord s
            = flag_ok (negb (coord =? 0)) (negb (coord =? tp d - 1)) s).
  { intros coord [] Hx; simpl; try reflexivity.
    destruct (Z.ltb_spec coord (tp d - 1)), (Z.eqb_spec coord (tp d - 1));
      simpl; try reflexivity; lia. }
  rewrite !E by assumption; reflexivity.
Qed.

Lemma flags_active_in_grid {Real_t} (d : Domain Real_t) (dir : Direction) :
  in_grid (tp d) (rowLoc d) (colLoc d) (planeLoc d) ->
  flags_active (boundary d) dir = true -> neighbour_in_grid d dir.
Proof.
  intros (Hr & Hc & Hp); unfold flags_active, boundary, neighbour_in_grid, in_grid.
  simpl; rewrite !andb_true_iff; intros [[H1 H2] H3].
  assert (E : forall coord s, 0 <= coord < tp d ->
            flag_ok (negb (coord =? 0)) (negb (coord =? tp d - 1)) s = true ->
            0 <= coord + sgn s < tp d).
  { intros coord [] Hx; simpl; intro H; lia. }
  repeat split; try (apply E; assumption); apply E; assumption.
Qed.

Lemma single_domain_has_no_neighbour {Real_t} (d : Domain Real_t)
    (dir : Direction) :
  well_formed d -> numRanks d = 1 -> is_neighbour dir && active d dir = false.
Proof.
  intros (Htp & Hn & Hr & Hc & Hp) H1.
  assert (Ht : tp d = 1) by (rewrite Hn in H1; nia).
  unfold active; rewrite Ht in *.
  replace (rowLoc d) with 0 by lia.
  replace (colLoc d) with 0 by lia.
  replace (planeLoc d) with 0 by lia.
  destruct dir as [[] [] []]; reflexivity.
Qed.

Section RecvLog.

Variable PAD : Z.
Variables mp me tag : Z.

Lemma receives_posted_recv_log (dir : Direction) (bs : list RecvBlock) :
  forall c,
    receives_posted dir (recv_log PAD mp me tag bs c)
    = length (filter (fun b => rb_guard b && Direction_eqb (rb_dir b) dir) bs).
Proof.
  unfold receives_posted.
  induction bs as [|b bs IH]; intro c; simpl; [reflexivity|].
  destruct (rb_guard b); simpl; [|apply IH].
  unfold labelled at 1; simpl.
  destruct (Direction_eqb (rb_dir b) dir); simpl; rewrite IH; reflexivity.
Qed.

Lemma recv_log_all_Irecv (bs : list RecvBlock) :
  forall c, Forall (fun e => is_Irecv e = true) (recv_log PAD mp me tag bs c).
Proof.
  induction bs as [|b bs IH]; intro c; simpl; [constructor|].
  destruct (rb_guard b); [constructor; [reflexivity|]|]; apply IH.
Qed.

(** Every call of the log comes from a block whose guard holds. *)
Lemma recv_log_In (bs : list RecvBlock) :
  forall c e, In e (recv_log PAD mp me tag bs c) ->
    exists b buf req,
      In b bs /\ rb_guard b = true
      /\ e = Irecv (rb_dir b) buf (rb_count b) (rb_fromRank b) tag req.
Proof.
  induction bs as [|b bs IH]; intros c e; simpl; [tauto|].
  destruct (rb_guard b) eqn:G.
  - intros [<- | H].
    + eexists b, _, _; repeat split; auto.
    + destruct (IH _ _ H) as (b' & buf & req & Hin & Hg & He).
      exists b', buf, req; auto.
  - intro H; destruct (IH _ _ H) as (b' & buf & req & Hin & Hg & He).
    exists b', buf, req; auto.
Qed.

(** Every block whose guard holds contributes its call. *)
Lemma recv_log_block (bs : list RecvBlock) :
  forall c b, In b bs -> rb_guard b = true ->
    exists buf req,
      In (Irecv (rb_dir b) buf (rb_count b) (rb_fromRank b) tag req)
         (recv_log PAD mp me tag bs c).
Proof.
  induction bs as [|b0 bs IH]; intros c b; simpl; [tauto|].
  intros [-> | Hin] Hg.
  - rewrite Hg; eexists _, _; left; reflexivity.
  - destruct (IH (if rb_guard b0 then bump (rb_class b0) c else c) b Hin Hg)
      as (buf & req & H).
    exists buf, req; destruct (rb_guard b0); [right|]; exact H.
Qed.

End RecvLog.

Lemma CommRecv_guard_count (fl : Flags) (tp myRank xferFields dx dy dz : Z)
    (dir : Direction) :
  length (filter (fun b => rb_guard b && Direction_eqb (rb_dir b) dir)
            (CommRecv_blocks fl tp myRank xferFields dx dy dz true false))
  = if is_neighbour dir && flags_active fl dir then 1%nat else 0%nat.
Proof.
  destruct fl as [[] [] [] [] [] []], dir as [[] [] []]; reflexivity.
Qed.

(** C1. At every position of a [tp]^3 grid, [CommRecv] with [doRecv = true]
    and [planeOnly = false] posts exactly one receive for each of the 26
    directions that are active there, none for any other direction, and
    nothing but receives; the neighbour of a direction that is posted lies
    inside the grid. *)
Theorem CommRecv_posts_one_receive_per_active_direction {Real_t : Type}
    (PAD : Z) (w : World Real_t) (myRank msgType xferFields dx dy dz : Z) :
  well_formed (domain w) ->
  let posted :=
    issued w (CommRecv PAD myRank msgType xferFields dx dy dz true false w) in
  Forall (fun e => is_Irecv e = true) posted
  /\ forall dir : Direction,
       receives_posted dir posted
       = (if is_neighbour dir && active (domain w) dir then 1%nat else 0%nat)
       /\ (receives_posted dir posted <> 0%nat ->
           neighbour_in_grid (domain w) dir).
Proof.
  intros Hwf posted; subst posted; rewrite CommRecv_issued.
  destruct (Z.eqb_spec (numRanks (domain w)) 1) as [H1 | H1].
  - split; [constructor|]; intro dir.
    rewrite (single_domain_has_no_neighbour _ _ Hwf H1).
    split; [reflexivity | intro H; elim H; reflexivity].
  - destruct Hwf as (Htp & Hn & Hg).
    split; [apply recv_log_all_Irecv|]; intro dir.
    rewrite receives_posted_recv_log, CommRecv_guard_count.
    rewrite (active_boundary _ _ Hg).
    split; [reflexivity|].
    destruct (is_neighbour dir); simpl; [|intro H; elim H; reflexivity].
    destruct (flags_active (boundary (domain w)) dir) eqn:E;
      [|intro H; elim H; reflexivity].
    intros _; apply flags_active_in_grid; assumption.
Qed.

Ltac grid_facts :=
  unfold well_formed, in_grid, adjacent; simpl; repeat split; lia.

Lemma CommRecv_posts_one_receive_per_active_direction_witness :
  well_formed (domain origin_of_8)
  /\ let posted :=
       issued origin_of_8 (CommRecv 16 0 7 6 2 2 2 true false origin_of_8) in
     Forall (fun e => is_Irecv e = true) posted
     /\ forall dir : Direction,
          receives_posted dir posted
          = (if is_neighbour dir && active (domain origin_of_8) dir
             then 1%nat else 0%nat)
          /\ (receives_posted dir posted <> 0%nat ->
              neighbour_in_grid (domain origin_of_8) dir).
Proof.
  assert (H : well_formed (domain origin_of_8)) by grid_facts.
  split; [exact H|].
  exact (CommRecv_posts_one_receive_per_active_direction
           16 origin_of_8 0 7 6 2 2 2 H).
Defined.

(** ** Guards, labels and peers of the blocks *)

Lemma pow2_mul (t : Z) : t ^ 2 = t * t.
Proof. apply Z.pow_2_r. Qed.

Lemma CommRecv_fromRank (fl : Flags) (tp myRank xferFields dx dy dz : Z)
    (doRecv planeOnly : bool) :
  Forall (fun b => rb_fromRank b = neighbour_rank myRank tp (rb_dir b))
         (CommRecv_blocks fl tp myRank xferFields dx dy dz doRecv planeOnly).
Proof.
  unfold CommRecv_blocks, CommRecv_planes, CommRecv_edges_corners.
  destruct planeOnly; cbn [negb app];
    repeat (constructor;
            [unfold neighbour_rank;
             cbn [rb_fromRank rb_dir sb_toRank sb_dir d_col d_row d_plane sgn];
             rewrite pow2_mul; lia|]);
    constructor.
Qed.

Lemma CommSend_toRank (fl : Flags) (tp myRank xferFields dx dy dz : Z)
    (doSend planeOnly : bool) :
  Forall (fun b => sb_toRank b = neighbour_rank myRank tp (sb_dir b))
         (CommSend_blocks fl tp myRank xferFields dx dy dz doSend planeOnly).
Proof.
  unfold CommSend_blocks, CommSend_planes, CommSend_edges_corners.
  destruct planeOnly; cbn [negb app];
    repeat (constructor;
            [unfold neighbour_rank;
             cbn [rb_fromRank rb_dir sb_toRank sb_dir d_col d_row d_plane sgn];
             rewrite pow2_mul; lia|]);
    constructor.
Qed.

(** The guard of a block of [CommRecv] holds when its direction is active
    and the receive is not masked: [doRecv] masks the directions that lead to
    a lower rank. *)
Lemma CommRecv_guard (fl : Flags) (tp myRank xferFields dx dy dz : Z)
    (doRecv planeOnly : bool) :
  Forall (fun b => is_neighbour (rb_dir b) = true
                   /\ (planeOnly = true -> is_face (rb_dir b) = true)
                   /\ rb_guard b = flags_active fl (rb_dir b)
                                   && (doRecv || negb (to_lower (rb_dir b))))
         (CommRecv_blocks fl tp myRank xferFields dx dy dz doRecv planeOnly).
Proof.
  unfold CommRecv_blocks, CommRecv_planes, CommRecv_edges_corners.
  destruct fl as [[] [] [] [] [] []], doRecv, planeOnly; simpl;
    repeat (constructor; [repeat split; discriminate|]); constructor.
Qed.

(** [doSend] masks the directions that lead to a higher rank. *)
Lemma CommSend_guard (fl : Flags) (tp myRank xferFields dx dy dz : Z)
    (doSend planeOnly : bool) :
  Forall (fun b => is_neighbour (sb_dir b) = true
                   /\ (planeOnly = true -> is_face (sb_dir b) = true)
                   /\ sb_guard b = flags_active fl (sb_dir b)
                                   && (doSend || to_lower (sb_dir b)))
         (CommSend_blocks fl tp myRank xferFields dx dy dz doSend planeOnly).
Proof.
  unfold CommSend_blocks, CommSend_planes, CommSend_edges_corners.
  destruct fl as [[] [] [] [] [] []], doSend, planeOnly; simpl;
    repeat (constructor; [repeat split; discriminate|]); constructor.
Qed.

(** Every direction has its block (a face when [planeOnly] holds). *)
Lemma CommRecv_block_of (fl : Flags) (tp myRank xferFields dx dy dz : Z)
    (doRecv planeOnly : bool) (dir : Direction) :
  is_neighbour dir = true ->
  planeOnly = false \/ is_face dir = true ->
  exists b,
    In b (CommRecv_blocks fl tp myRank xferFields dx dy dz doRecv planeOnly)
    /\ rb_dir b = dir.
Proof.
  intros Hn Hp.
  assert (E : exists b,
             find (fun b => Direction_eqb (rb_dir b) dir)
               (CommRecv_blocks fl tp myRank xferFields dx dy dz doRecv planeOnly)
             = Some b).
  { destruct planeOnly;
      [destruct Hp as [Hp | Hp]; [discriminate|]|];
      destruct dir as [[] [] []]; try discriminate;
      eexists; reflexivity. }
  destruct E as [b E]; exists b; apply find_some in E; destruct E as [E1 E2].
  split; [exact E1 | apply Direction_eqb_eq; exact E2].
Qed.

Lemma CommSend_block_of (fl : Flags) (tp myRank xferFields dx dy dz : Z)
    (doSend planeOnly : bool) (dir : Direction) :
  is_neighbour dir = true ->
  planeOnly = false \/ is_face dir = true ->
  exists b,
    In b (CommSend_blocks fl tp myRank xferFields dx dy dz doSend planeOnly)
    /\ sb_dir b = dir.
Proof.
  intros Hn Hp.
  assert (E : exists b,
             find (fun b => Direction_eqb (sb_dir b) dir)
               (CommSend_blocks fl tp myRank xferFields dx dy dz doSend planeOnly)
             = Some b).
  { destruct planeOnly;
      [destruct Hp as [Hp | Hp]; [discriminate|]|];
      destruct dir as [[] [] []]; try discriminate;
      eexists; reflexivity. }
  destruct E as [b E]; exists b; apply find_some in E; destruct E as [E1 E2].
  split; [exact E1 | apply Direction_eqb_eq; exact E2].
Qed.

Section SendLog.

Variable PAD : Z.
Variables mp me tag : Z.

Lemma send_log_In (bs : list SendBlock) :
  forall c e, In e (send_log PAD mp me tag bs c) ->
    exists b buf req,
      In b bs /\ sb_guard b = true
      /\ e = Isend (sb_dir b) buf (sb_count b) (sb_toRank b) tag req.
Proof.
  induction bs as [|b bs IH]; intros c e; simpl; [tauto|].
  destruct (sb_guard b) eqn:G.
  - intros [<- | H].
    + eexists b, _, _; repeat split; auto.
    + destruct (IH _ _ H) as (b' & buf & req & Hin & Hg & He).
      exists b', buf, req; auto.
  - intro H; destruct (IH _ _ H) as (b' & buf & req & Hin & Hg & He).
    exists b', buf, req; auto.
Qed.

Lemma send_log_block (bs : list SendBlock) :
  forall c b, In b bs -> sb_guard b = true ->
    exists buf req,
      In (Isend (sb_dir b) buf (sb_count b) (sb_toRank b) tag req)
         (send_log PAD mp me tag bs c).
Proof.
  induction bs as [|b0 bs IH]; intros c b; simpl; [tauto|].
  intros [-> | Hin] Hg.
  - rewrite Hg; eexists _, _; left; reflexivity.
  - destruct (IH (if sb_guard b0 then bump (sb_class b0) c else c) b Hin Hg)
      as (buf & req & H).
    exists buf, req; destruct (sb_guard b0); [right|]; exact H.
Qed.

End SendLog.

Arguments CommRecv_blocks : simpl never.
Arguments CommSend_blocks : simpl never.
Arguments CommSBN_blocks : simpl never.
Arguments CommSyncPosVel_blocks : simpl never.
Arguments CommMonoQ_blocks : simpl never.

(** ** Neighbour ranks *)

(** C5. Every receive [CommRecv] posts and every send [CommSend] issues names
    the rank [myRank + dz tp^2 + dy tp + dx] of the neighbour along the
    direction [(dx, dy, dz)] of its block, whatever the flags; and with
    [doRecv = doSend = true] and [planeOnly = false] every active direction
    gets its receive and its send, so the formula covers all 26 cases. *)
Theorem transfers_name_the_neighbour_rank {Real_t : Type} (PAD : Z)
    (w : World Real_t) (myRank msgType xferFields : Z)
    (fieldData : list Domain_member) (dx dy dz : Z) (flag planeOnly : bool) :
  let names_neighbour := fun e =>
    exists dir, call_dir e = Some dir
      /\ call_peer e = Some (neighbour_rank myRank (tp (domain w)) dir) in
  Forall names_neighbour
    (issued w (CommRecv PAD myRank msgType xferFields dx dy dz flag planeOnly w))
  /\ Forall names_neighbour
       (filter is_Isend
          (issued w (CommSend PAD myRank msgType xferFields fieldData dx dy dz
                       flag planeOnly w)))
  /\ forall dir : Direction,
       well_formed (domain w) ->
       is_neighbour dir = true -> active (domain w) dir = true ->
       (exists buf n req,
          In (Irecv dir buf n (neighbour_rank myRank (tp (domain w)) dir)
                msgType req)
             (issued w (CommRecv PAD myRank msgType xferFields dx dy dz
                          true false w)))
       /\ (exists buf n req,
             In (Isend dir buf n (neighbour_rank myRank (tp (domain w)) dir)
                   msgType req)
                (issued w (CommSend PAD myRank msgType xferFields fieldData
                             dx dy dz true false w))).
Proof.
  intro names_neighbour; subst names_neighbour.
  rewrite !CommRecv_issued, !CommSend_issued.
  split; [|split].
  - destruct (numRanks (domain w) =? 1); [constructor|].
    apply Forall_forall; intros e He.
    apply recv_log_In in He; destruct He as (b & buf & req & Hin & _ & ->).
    pose proof (CommRecv_fromRank (boundary (domain w)) (tp (domain w)) myRank
                  xferFields dx dy dz flag planeOnly) as F.
    rewrite Forall_forall in F; exists (rb_dir b); simpl.
    rewrite (F b Hin); auto.
  - destruct (numRanks (domain w) =? 1); [constructor|].
    rewrite filter_app.
    change (filter is_Isend [Waitall 26]) with (@nil Call); rewrite app_nil_r.
    apply Forall_forall; intros e He; apply filter_In in He; destruct He as [He _].
    apply send_log_In in He; destruct He as (b & buf & req & Hin & _ & ->).
    pose proof (CommSend_toRank (boundary (domain w)) (tp (domain w)) myRank
                  xferFields dx dy dz flag planeOnly) as F.
    rewrite Forall_forall in F; exists (sb_dir b); simpl.
    rewrite (F b Hin); auto.
  - intros dir Hwf Hn Ha.
    destruct (Z.eqb_spec (numRanks (domain w)) 1) as [H1 | H1].
    { pose proof (single_domain_has_no_neighbour _ dir Hwf H1) as E.
      rewrite Hn, Ha in E; discriminate. }
    destruct Hwf as (_ & _ & Hg); rewrite (active_boundary _ _ Hg) in Ha.
    split.
    + destruct (CommRecv_block_of (boundary (domain w)) (tp (domain w)) myRank
                  xferFields dx dy dz true false dir Hn (or_introl eq_refl))
        as (b & Hin & Hd).
      pose proof (CommRecv_fromRank (boundary (domain w)) (tp (domain w)) myRank
                    xferFields dx dy dz true false) as F.
      pose proof (CommRecv_guard (boundary (domain w)) (tp (domain w)) myRank
                    xferFields dx dy dz true false) as G.
      rewrite Forall_forall in F, G.
      destruct (G b Hin) as (_ & _ & Hgd); rewrite Hd, Ha in Hgd.
      destruct (recv_log_block PAD (xferFields * maxPlaneSize (domain w))
                  (xferFields * maxEdgeSize (domain w)) msgType _
                  (mkCounters 0 0 0) b Hin Hgd) as (buf & req & H).
      rewrite (F b Hin), Hd in H; exists buf, (rb_count b), req; exact H.
    + destruct (CommSend_block_of (boundary (domain w)) (tp (domain w)) myRank
                  xferFields dx dy dz true false dir Hn (or_introl eq_refl))
        as (b & Hin & Hd).
      pose proof (CommSend_toRank (boundary (domain w)) (tp (domain w)) myRank
                    xferFields dx dy dz true false) as F.
      pose proof (CommSend_guard (boundary (domain w)) (tp (domain w)) myRank
                    xferFields dx dy dz true false) as G.
      rewrite Forall_forall in F, G.
      destruct (G b Hin) as (_ & _ & Hgd); rewrite Hd, Ha in Hgd.
      destruct (send_log_block PAD (xferFields * maxPlaneSize (domain w))
                  (xferFields * maxEdgeSize (domain w)) msgType _
                  (mkCounters 0 0 0) b Hin Hgd) as (buf & req & H).
      rewrite (F b Hin), Hd in H; exists buf, (sb_count b), req.
      apply in_or_app; left; exact H.
Qed.

Lemma transfers_name_the_neighbour_rank_witness :
  well_formed (domain origin_of_8)
  /\ is_neighbour (mkDir Plus Null Null) = true
  /\ active (domain origin_of_8) (mkDir Plus Null Null) = true
  /\ (exists buf n req,
        In (Irecv (mkDir Plus Null Null) buf n
              (neighbour_rank 0 2 (mkDir Plus Null Null)) 7 req)
           (issued origin_of_8
              (CommRecv 16 0 7 6 2 2 2 true false origin_of_8)))
  /\ (exists buf n req,
        In (Isend (mkDir Plus Null Null) buf n
              (neighbour_rank 0 2 (mkDir Plus Null Null)) 7 req)
           (issued origin_of_8
              (CommSend 16 0 7 6 PosVel_fields 2 2 2 true false origin_of_8))).
Proof.
  assert (H : well_formed (domain origin_of_8)) by grid_facts.
  split; [exact H|]; split; [reflexivity|]; split; [reflexivity|].
  exact (proj2 (proj2 (transfers_name_the_neighbour_rank
                         16 origin_of_8 0 7 6 PosVel_fields 2 2 2 true false))
           (mkDir Plus Null Null) H eq_refl eq_refl).
Defined.

(** ** Slot tables *)

Section Slots.

Variable PAD : Z.
Variables mp me tag : Z.

(** Two traversals whose blocks agree on label, guard and class assign the
    same buffer offset and the same request index to every block. *)
Lemma slots_agree (bs : list RecvBlock) :
  forall (us : list UnpackBlock) (c : Counters),
    map (fun b => (rb_dir b, rb_guard b, rb_class b)) bs
    = map (fun b => (ub_dir b, ub_guard b, ub_class b)) us ->
    map call_slot (unpack_log PAD mp me us c)
    = map call_slot (recv_log PAD mp me tag bs c).
Proof.
  induction bs as [|b bs IH]; intros [|u us] c H; simpl in H;
    try discriminate; [reflexivity|].
  inversion H as [[Hd Hg Hk Ht]]; simpl.
  rewrite <- Hg, <- Hk, <- Hd.
  destruct (rb_guard b); simpl; [f_equal|]; apply IH; assumption.
Qed.

End Slots.

Lemma CommSBN_keys (fl : Flags) (tp myRank xferFields dx dy dz dx' dy' dz' : Z) :
  map (fun b => (rb_dir b, rb_guard b, rb_class b))
      (CommRecv_blocks fl tp myRank xferFields dx dy dz true false)
  = map (fun b => (ub_dir b, ub_guard b, ub_class b))
        (CommSBN_blocks fl dx' dy' dz').
Proof. destruct fl as [[] [] [] [] [] []]; reflexivity. Qed.

Lemma CommSyncPosVel_keys (fl : Flags)
    (tp myRank xferFields dx dy dz dx' dy' dz' : Z) :
  map (fun b => (rb_dir b, rb_guard b, rb_class b))
      (CommRecv_blocks fl tp myRank xferFields dx dy dz false false)
  = map (fun b => (ub_dir b, ub_guard b, ub_class b))
        (CommSyncPosVel_blocks fl dx' dy' dz' false).
Proof. destruct fl as [[] [] [] [] [] []]; reflexivity. Qed.

Lemma same_layout_boundary {Real_t} (a b : Domain Real_t) :
  same_layout a b -> boundary b = boundary a.
Proof.
  intros (_ & Ht & Hr & Hc & Hp & _); unfold boundary.
  rewrite Ht, Hr, Hc, Hp; reflexivity.
Qed.

(** C6. At every position, [CommSBN] waits for and reads the receives at the
    buffer offsets and request indices at which [CommRecv] with
    [doRecv = true] and [planeOnly = false] posted them, block by block and
    in the same order; and [CommSyncPosVel] does so for [CommRecv] with
    [doRecv = false] (and six fields). *)
Theorem consume_phase_uses_the_slots_of_the_post_phase {Real_t : Type}
    (Real_add : Real_t -> Real_t -> Real_t) (PAD : Z)
    (w w' : World Real_t) (myRank msgType xferFields dx dy dz : Z)
    (fieldData : list Domain_member) :
  same_layout (domain w) (domain w') ->
  map call_slot (issued w' (CommSBN Real_add PAD myRank xferFields fieldData w'))
  = map call_slot
      (issued w (CommRecv PAD myRank msgType xferFields dx dy dz true false w))
  /\ map call_slot (issued w' (CommSyncPosVel PAD myRank w'))
     = map call_slot
         (issued w (CommRecv PAD myRank msgType 6 dx dy dz false false w)).
Proof.
  intro H; pose proof (same_layout_boundary _ _ H) as Hb.
  destruct H as (Hn & Ht & _ & _ & _ & Hmp & Hme).
  rewrite CommSBN_issued, CommSyncPosVel_issued, !CommRecv_issued.
  rewrite Hn, Hb, Hmp, Hme.
  destruct (numRanks (domain w) =? 1); [split; reflexivity|].
  split; apply slots_agree.
  - apply CommSBN_keys.
  - apply CommSyncPosVel_keys.
Qed.

Lemma consume_phase_uses_the_slots_of_the_post_phase_witness :
  same_layout (domain centre_of_27) (domain centre_of_27)
  /\ map call_slot
       (issued centre_of_27 (CommSBN Z.add 16 13 3 MonoQ_fields centre_of_27))
     = map call_slot
         (issued centre_of_27
            (CommRecv 16 13 7 3 2 2 2 true false centre_of_27))
  /\ map call_slot (issued centre_of_27 (CommSyncPosVel 16 13 centre_of_27))
     = map call_slot
         (issued centre_of_27
            (CommRecv 16 13 7 6 2 2 2 false false centre_of_27)).
Proof.
  assert (H : same_layout (domain centre_of_27) (domain centre_of_27))
    by (repeat split).
  split; [exact H|].
  exact (consume_phase_uses_the_slots_of_the_post_phase
           Z.add 16 centre_of_27 centre_of_27 13 7 3 2 2 2 MonoQ_fields H).
Defined.

(** ** Masks and rank order *)

Lemma rank_order (r tp : Z) (dir : Direction) :
  2 <= tp -> is_neighbour dir = true ->
  if to_lower dir then neighbour_rank r tp dir < r
  else r < neighbour_rank r tp dir.
Proof.
  intros Ht Hn; destruct dir as [[] [] []]; try discriminate;
    unfold neighbour_rank, to_lower; cbn [d_col d_row d_plane sgn];
    rewrite pow2_mul; nia.
Qed.

Lemma to_lower_opposite (dir : Direction) :
  is_neighbour dir = true -> to_lower (opposite dir) = negb (to_lower dir).
Proof. destruct dir as [[] [] []]; intro H; try discriminate; reflexivity. Qed.

Lemma is_neighbour_opposite (dir : Direction) :
  is_neighbour (opposite dir) = is_neighbour dir.
Proof. destruct dir as [[] [] []]; reflexivity. Qed.

Lemma is_face_opposite (dir : Direction) :
  is_face (opposite dir) = is_face dir.
Proof. destruct dir as [[] [] []]; reflexivity. Qed.

Lemma opposite_involutive (dir : Direction) : opposite (opposite dir) = dir.
Proof. destruct dir as [[] [] []]; reflexivity. Qed.

Lemma neighbour_rank_opposite (r tp : Z) (dir : Direction) :
  neighbour_rank (neighbour_rank r tp dir) tp (opposite dir) = r.
Proof.
  destruct dir as [[] [] []]; unfold neighbour_rank, opposite;
    cbn [d_col d_row d_plane sgn flip]; ring.
Qed.

Lemma existsb_labelled (dir : Direction) (l : list Call) :
  existsb (labelled dir) l = true <->
  exists e, In e l /\ call_dir e = Some dir.
Proof.
  rewrite existsb_exists; split; intros (e & He & H); exists e; split; auto.
  - unfold labelled in H; destruct (call_dir e) as [d|]; [|discriminate].
    apply Direction_eqb_eq in H; congruence.
  - unfold labelled; rewrite H; apply Direction_eqb_refl.
Qed.

Section MaskOrder.

Context {Real_t : Type}.
Variable PAD : Z.
Variable w : World Real_t.
Variables myRank msgType xferFields dx dy dz : Z.
Variable fieldData : list Domain_member.
Variable planeOnly : bool.
Hypothesis Htp : 2 <= tp (domain w).

Let recvs (doRecv : bool) : list Call :=
  issued w (CommRecv PAD myRank msgType xferFields dx dy dz doRecv planeOnly w).

Let sends (doSend : bool) : list Call :=
  issued w (CommSend PAD myRank msgType xferFields fieldData dx dy dz
              doSend planeOnly w).

Lemma kept_receives_come_from_higher : flows_to_lower myRank (recvs false).
Proof.
  unfold recvs, flows_to_lower; rewrite CommRecv_issued.
  destruct (numRanks (domain w) =? 1); [constructor|].
  apply Forall_forall; intros e He.
  apply recv_log_In in He; destruct He as (b & buf & req & Hin & Hg & ->).
  pose proof (CommRecv_fromRank (boundary (domain w)) (tp (domain w)) myRank
                xferFields dx dy dz false planeOnly) as F.
  pose proof (CommRecv_guard (boundary (domain w)) (tp (domain w)) myRank
                xferFields dx dy dz false planeOnly) as G.
  rewrite Forall_forall in F, G.
  destruct (G b Hin) as (Hn & _ & Hgd); rewrite Hg in Hgd.
  symmetry in Hgd; apply andb_true_iff in Hgd; destruct Hgd as [_ Hl].
  simpl in Hl; apply negb_true_iff in Hl.
  pose proof (rank_order myRank _ _ Htp Hn) as R; rewrite Hl in R.
  rewrite (F b Hin); exact R.
Qed.

Lemma kept_sends_go_to_lower : flows_to_lower myRank (sends false).
Proof.
  unfold sends, flows_to_lower; rewrite CommSend_issued.
  destruct (numRanks (domain w) =? 1); [constructor|].
  apply Forall_forall; intros e He.
  apply in_app_or in He; destruct He as [He | [<- | []]]; [|exact I].
  apply send_log_In in He; destruct He as (b & buf & req & Hin & Hg & ->).
  pose proof (CommSend_toRank (boundary (domain w)) (tp (domain w)) myRank
                xferFields dx dy dz false planeOnly) as F.
  pose proof (CommSend_guard (boundary (domain w)) (tp (domain w)) myRank
                xferFields dx dy dz false planeOnly) as G.
  rewrite Forall_forall in F, G.
  destruct (G b Hin) as (Hn & _ & Hgd); rewrite Hg in Hgd.
  symmetry in Hgd; apply andb_true_iff in Hgd; destruct Hgd as [_ Hl].
  simpl in Hl.
  pose proof (rank_order myRank _ _ Htp Hn) as R; rewrite Hl in R.
  rewrite (F b Hin); exact R.
Qed.

Lemma suppressed_receives_come_from_lower :
  flows_to_higher myRank (suppressed (recvs true) (recvs false)).
Proof.
  unfold recvs, flows_to_higher, suppressed; rewrite !CommRecv_issued.
  destruct (numRanks (domain w) =? 1); [constructor|].
  apply Forall_forall; intros e He.
  apply filter_In in He; destruct He as [He Hs].
  apply recv_log_In in He; destruct He as (b & buf & req & Hin & Hg & ->).
  cbn [call_dir] in Hs; apply negb_true_iff in Hs.
  pose proof (CommRecv_fromRank (boundary (domain w)) (tp (domain w)) myRank
                xferFields dx dy dz true planeOnly) as F.
  pose proof (CommRecv_guard (boundary (domain w)) (tp (domain w)) myRank
                xferFields dx dy dz true planeOnly) as G.
  pose proof (CommRecv_guard (boundary (domain w)) (tp (domain w)) myRank
                xferFields dx dy dz false planeOnly) as G'.
  rewrite Forall_forall in F, G, G'.
  destruct (G b Hin) as (Hn & Hf & Hgd); rewrite Hg in Hgd.
  rewrite orb_true_l, andb_true_r in Hgd.
  pose proof (rank_order myRank _ _ Htp Hn) as R.
  rewrite (F b Hin).
  destruct (to_lower (rb_dir b)) eqn:Hl; [exact R|].
  exfalso.
  assert (Hp : planeOnly = false \/ is_face (rb_dir b) = true)
    by (destruct planeOnly; [right; apply Hf; reflexivity | left; reflexivity]).
  destruct (CommRecv_block_of (boundary (domain w)) (tp (domain w)) myRank
              xferFields dx dy dz false planeOnly (rb_dir b) Hn Hp)
    as (b' & Hin' & Hd').
  destruct (G' b' Hin') as (_ & _ & Hgd').
  rewrite Hd', <- Hgd, Hl in Hgd'; simpl in Hgd'.
  destruct (recv_log_block PAD (xferFields * maxPlaneSize (domain w))
              (xferFields * maxEdgeSize (domain w)) msgType _
              (mkCounters 0 0 0) b' Hin' Hgd') as (buf' & req' & H).
  assert (E : existsb (labelled (rb_dir b))
                (recv_log PAD (xferFields * maxPlaneSize (domain w))
                   (xferFields * maxEdgeSize (domain w)) msgType
                   (CommRecv_blocks (boundary (domain w)) (tp (domain w))
                      myRank xferFields dx dy dz false planeOnly)
                   (mkCounters 0 0 0)) = true).
  { apply existsb_labelled; eexists; split; [exact H|].
    simpl; rewrite Hd'; reflexivity. }
  rewrite E in Hs; discriminate.
Qed.

Lemma suppressed_sends_go_to_higher :
  flows_to_higher myRank (suppressed (sends true) (sends false)).
Proof.
  unfold sends, flows_to_higher, suppressed; rewrite !CommSend_issued.
  destruct (numRanks (domain w) =? 1); [constructor|].
  apply Forall_forall; intros e He.
  apply filter_In in He; destruct He as [He Hs].
  apply in_app_or in He; destruct He as [He | [<- | []]]; [|exact I].
  apply send_log_In in He; destruct He as (b & buf & req & Hin & Hg & ->).
  cbn [call_dir] in Hs; apply negb_true_iff in Hs.
  pose proof (CommSend_toRank (boundary (domain w)) (tp (domain w)) myRank
                xferFields dx dy dz true planeOnly) as F.
  pose proof (CommSend_guard (boundary (domain w)) (tp (domain w)) myRank
                xferFields dx dy dz true planeOnly) as G.
  pose proof (CommSend_guard (boundary (domain w)) (tp (domain w)) myRank
                xferFields dx dy dz false planeOnly) as G'.
  rewrite Forall_forall in F, G, G'.
  destruct (G b Hin) as (Hn & Hf & Hgd); rewrite Hg in Hgd.
  rewrite orb_true_l, andb_true_r in Hgd.
  pose proof (rank_order myRank _ _ Htp Hn) as R.
  rewrite (F b Hin).
  destruct (to_lower (sb_dir b)) eqn:Hl; [|exact R].
  exfalso.
  assert (Hp : planeOnly = false \/ is_face (sb_dir b) = true)
    by (destruct planeOnly; [right; apply Hf; reflexivity | left; reflexivity]).
  destruct (CommSend_block_of (boundary (domain w)) (tp (domain w)) myRank
              xferFields dx dy dz false planeOnly (sb_dir b) Hn Hp)
    as (b' & Hin' & Hd').
  destruct (G' b' Hin') as (_ & _ & Hgd').
  rewrite Hd', <- Hgd, Hl in Hgd'; simpl in Hgd'.
  destruct (send_log_block PAD (xferFields * maxPlaneSize (domain w))
              (xferFields * maxEdgeSize (domain w)) msgType _
              (mkCounters 0 0 0) b' Hin' Hgd') as (buf' & req' & H).
  assert (E : existsb (labelled (sb_dir b))
                (send_log PAD (xferFields * maxPlaneSize (domain w))
                   (xferFields * maxEdgeSize (domain w)) msgType
                   (CommSend_blocks (boundary (domain w)) (tp (domain w))
                      myRank xferFields dx dy dz false planeOnly)
                   (mkCounters 0 0 0) ++ [Waitall 26]) = true).
  { apply existsb_labelled; eexists; split; [apply in_or_app; left; exact H|].
    simpl; rewrite Hd'; reflexivity. }
  rewrite E in Hs; discriminate.
Qed.

End MaskOrder.

(** C9 (amended). For [tp >= 2]: with [doRecv = false] every receive
    [CommRecv] still posts comes from a strictly higher rank, and every
    receive the flag suppresses would have come from a strictly lower rank;
    with [doSend = false] every send [CommSend] still issues goes to a
    strictly lower rank, and every send the flag suppresses would have gone
    to a strictly higher rank.  With both flags false, data moves from
    higher ranks to lower ranks only. *)
Theorem masks_follow_rank_order {Real_t : Type} (PAD : Z) (w : World Real_t)
    (myRank msgType xferFields dx dy dz : Z) (fieldData : list Domain_member)
    (planeOnly : bool) :
  2 <= tp (domain w) ->
  let recvs := fun doRecv =>
    issued w (CommRecv PAD myRank msgType xferFields dx dy dz
                doRecv planeOnly w) in
  let sends := fun doSend =>
    issued w (CommSend PAD myRank msgType xferFields fieldData dx dy dz
                doSend planeOnly w) in
  flows_to_lower myRank (recvs false)
  /\ flows_to_higher myRank (suppressed (recvs true) (recvs false))
  /\ flows_to_lower myRank (sends false)
  /\ flows_to_higher myRank (suppressed (sends true) (sends false)).
Proof.
  intros Htp recvs sends; subst recvs sends; cbv beta.
  split; [|split; [|split]].
  - apply kept_receives_come_from_higher; assumption.
  - apply suppressed_receives_come_from_lower; assumption.
  - apply kept_sends_go_to_lower; assumption.
  - apply suppressed_sends_go_to_higher; assumption.
Qed.

Lemma masks_follow_rank_order_witness :
  2 <= tp (domain east_of_origin)
  /\ flows_to_lower 1
       (issued east_of_origin
          (CommRecv 16 1 7 6 2 2 2 false false east_of_origin))
  /\ flows_to_higher 1
       (suppressed
          (issued east_of_origin
             (CommRecv 16 1 7 6 2 2 2 true false east_of_origin))
          (issued east_of_origin
             (CommRecv 16 1 7 6 2 2 2 false false east_of_origin)))
  /\ flows_to_lower 1
       (issued east_of_origin
          (CommSend 16 1 7 6 PosVel_fields 2 2 2 false false east_of_origin))
  /\ flows_to_higher 1
       (suppressed
          (issued east_of_origin
             (CommSend 16 1 7 6 PosVel_fields 2 2 2 true false east_of_origin))
          (issued east_of_origin
             (CommSend 16 1 7 6 PosVel_fields 2 2 2 false false
                east_of_origin))).
Proof.
  assert (H : 2 <= tp (domain east_of_origin)) by (simpl; lia).
  split; [exact H|].
  exact (masks_follow_rank_order 16 east_of_origin 1 7 6 2 2 2 PosVel_fields
           false H).
Defined.

(** C9 as stated fails: at rank 1 of a 2x2x2 grid, [CommSend] with
    [doSend = false] sends to rank 0, so data does not move from lower to
    higher ranks only. *)
Lemma masked_exchange_does_not_flow_to_higher :
  ~ flows_to_higher 1
      (issued east_of_origin
         (CommSend 16 1 7 6 PosVel_fields 2 2 2 false false east_of_origin)
       ++ issued east_of_origin
            (CommRecv 16 1 7 6 2 2 2 false false east_of_origin)).
Proof.
  unfold flows_to_higher; intro H; vm_compute in H.
  inversion H as [|e l H1 _]; discriminate H1.
Qed.

(** ** Exactly-once transmission between adjacent domains *)

Lemma adjacent_active {Real_t} (a b : Domain Real_t) (dir : Direction) :
  in_grid (tp a) (rowLoc a) (colLoc a) (planeLoc a) ->
  in_grid (tp b) (rowLoc b) (colLoc b) (planeLoc b) ->
  adjacent a b dir ->
  flags_active (boundary a) dir = true
  /\ flags_active (boundary b) (opposite dir) = true.
Proof.
  intros (Hr & Hc & Hp) (Hr' & Hc' & Hp') (Ht & _ & Er & Ec & Ep).
  rewrite Ht in *.
  assert (E : forall x x' s, 0 <= x < tp a -> 0 <= x' < tp a ->
            x' = x + sgn s ->
            flag_ok (negb (x =? 0)) (negb (x =? tp a - 1)) s = true
            /\ flag_ok (negb (x' =? 0)) (negb (x' =? tp a - 1)) (flip s) = true).
  { intros x0 x' [] H H' ->; simpl in *; split; try reflexivity;
      apply negb_true_iff, Z.eqb_neq; lia. }
  unfold flags_active, boundary, opposite; simpl; rewrite Ht.
  destruct (E _ _ _ Hr Hr' Er), (E _ _ _ Hc Hc' Ec), (E _ _ _ Hp Hp' Ep).
  rewrite !andb_true_iff; auto.
Qed.

Lemma adjacent_has_ranks {Real_t} (a b : Domain Real_t) (dir : Direction) :
  well_formed a ->
  in_grid (tp b) (rowLoc b) (colLoc b) (planeLoc b) ->
  adjacent a b dir -> is_neighbour dir = true ->
  2 <= tp a /\ (numRanks a =? 1) = false /\ (numRanks b =? 1) = false.
Proof.
  intros (H1 & Hn & Hr & Hc & Hp) (Hr' & Hc' & Hp') (Ht & Hn' & Er & Ec & Ep) Hd.
  rewrite Ht in *.
  assert (H2 : 2 <= tp a)
    by (destruct dir as [[] [] []]; try discriminate; simpl in *; lia).
  split; [exact H2|].
  assert (numRanks a <> 1) by (rewrite Hn; nia).
  rewrite Hn'; split; apply Z.eqb_neq; assumption.
Qed.

Lemma region_size_opposite (dx dy dz : Z) (dir : Direction) :
  region_size dx dy dz (opposite dir) = region_size dx dy dz dir.
Proof. destruct dir as [[] [] []]; reflexivity. Qed.

Lemma CommRecv_count (fl : Flags) (tp myRank xferFields dx dy dz : Z)
    (doRecv planeOnly : bool) :
  Forall (fun b => rb_count b = xferFields * region_size dx dy dz (rb_dir b))
         (CommRecv_blocks fl tp myRank xferFields dx dy dz doRecv planeOnly).
Proof.
  unfold CommRecv_blocks, CommRecv_planes, CommRecv_edges_corners.
  destruct planeOnly; cbn [negb app];
    repeat (constructor;
            [unfold region_size;
             cbn [rb_count rb_dir d_col d_row d_plane Sign_eqb]; ring|]);
    constructor.
Qed.

Lemma CommSend_count (fl : Flags) (tp myRank xferFields dx dy dz : Z)
    (doSend planeOnly : bool) :
  Forall (fun b => sb_count b = xferFields * region_size dx dy dz (sb_dir b))
         (CommSend_blocks fl tp myRank xferFields dx dy dz doSend planeOnly).
Proof.
  unfold CommSend_blocks, CommSend_planes, CommSend_edges_corners.
  destruct planeOnly; cbn [negb app];
    repeat (constructor;
            [unfold region_size;
             cbn [sb_count sb_dir d_col d_row d_plane Sign_eqb]; ring|]);
    constructor.
Qed.

Section Labels.

Variable PAD : Z.
Variables mp me tag : Z.

Lemma recv_log_labelled (dir : Direction) (bs : list RecvBlock) :
  forall c,
    existsb (labelled dir) (recv_log PAD mp me tag bs c)
    = existsb (fun b => rb_guard b && Direction_eqb (rb_dir b) dir) bs.
Proof.
  induction bs as [|b bs IH]; intro c; simpl; [reflexivity|].
  destruct (rb_guard b); simpl; rewrite IH; reflexivity.
Qed.

Lemma send_log_labelled (dir : Direction) (bs : list SendBlock) :
  forall c,
    existsb (labelled dir) (send_log PAD mp me tag bs c ++ [Waitall 26])
    = existsb (fun b => sb_guard b && Direction_eqb (sb_dir b) dir) bs.
Proof.
  induction bs as [|b bs IH]; intro c; simpl; [reflexivity|].
  destruct (sb_guard b); simpl; rewrite IH; reflexivity.
Qed.

End Labels.

Lemma CommRecv_labelled (fl : Flags) (tp myRank xferFields dx dy dz : Z)
    (doRecv planeOnly : bool) (dir : Direction) :
  existsb (fun b => rb_guard b && Direction_eqb (rb_dir b) dir)
    (CommRecv_blocks fl tp myRank xferFields dx dy dz doRecv planeOnly)
  = is_neighbour dir && flags_active fl dir
    && (doRecv || negb (to_lower dir)) && (negb planeOnly || is_face dir).
Proof.
  destruct fl as [[] [] [] [] [] []], doRecv, planeOnly, dir as [[] [] []];
    reflexivity.
Qed.

Lemma CommSend_labelled (fl : Flags) (tp myRank xferFields dx dy dz : Z)
    (doSend planeOnly : bool) (dir : Direction) :
  existsb (fun b => sb_guard b && Direction_eqb (sb_dir b) dir)
    (CommSend_blocks fl tp myRank xferFields dx dy dz doSend planeOnly)
  = is_neighbour dir && flags_active fl dir
    && (doSend || to_lower dir) && (negb planeOnly || is_face dir).
Proof.
  destruct fl as [[] [] [] [] [] []], doSend, planeOnly, dir as [[] [] []];
    reflexivity.
Qed.

Lemma suppressed_labelled (dir : Direction) (l1 l2 : list Call) :
  existsb (labelled dir) (suppressed l1 l2)
  = existsb (labelled dir) l1 && negb (existsb (labelled dir) l2).
Proof.
  unfold suppressed; induction l1 as [|e l1 IH]; simpl; [reflexivity|].
  assert (L : labelled dir e
              = match call_dir e with
                | Some d => Direction_eqb d dir
                | None => false
                end) by reflexivity.
  destruct (call_dir e) as [d|] eqn:E.
  - destruct (Direction_eqb d dir) eqn:D.
    + apply Direction_eqb_eq in D; subst d.
      destruct (existsb (labelled dir) l2); simpl.
      * rewrite IH; simpl; rewrite !andb_false_r; reflexivity.
      * rewrite L; simpl; reflexivity.
    + destruct (existsb (labelled d) l2); simpl; rewrite L; simpl; exact IH.
  - rewrite L; simpl; exact IH.
Qed.

Section MaskedTransfer.

Variable PAD : Z.
Variables mpA meA mpB meB tag : Z.
Variables (fa fb : Flags) (tp rA rB xferFields dx dy dz : Z).
Variables (planeOnly : bool) (dir : Direction).
Hypothesis Hn : is_neighbour dir = true.
Hypothesis Hp : negb planeOnly || is_face dir = true.
Hypothesis Ha : flags_active fa dir = true.
Hypothesis Hb : flags_active fb (opposite dir) = true.
Hypothesis Hr : rB = neighbour_rank rA tp dir.

Let plane_or_face : planeOnly = false \/ is_face dir = true.
Proof.
  destruct planeOnly; [right; exact Hp | left; reflexivity].
Qed.

(** With both flags false the sender [A] of a pair transmits along [dir]
    exactly when [dir] leads to a lower rank. *)
Lemma masked_transfer_iff_to_lower :
  transmits
    (send_log PAD mpA meA tag
       (CommSend_blocks fa tp rA xferFields dx dy dz false planeOnly)
       (mkCounters 0 0 0) ++ [Waitall 26])
    (recv_log PAD mpB meB tag
       (CommRecv_blocks fb tp rB xferFields dx dy dz false planeOnly)
       (mkCounters 0 0 0))
    dir rA rB
  <-> to_lower dir = true.
Proof.
  split.
  - intros (sbuf & rbuf & n & n' & tg & sreq & rreq & Hs & _ & _).
    assert (E : existsb (labelled dir)
                  (send_log PAD mpA meA tag
                     (CommSend_blocks fa tp rA xferFields dx dy dz false
                        planeOnly) (mkCounters 0 0 0) ++ [Waitall 26]) = true).
    { apply existsb_labelled; eexists; split; [exact Hs | reflexivity]. }
    rewrite send_log_labelled, CommSend_labelled, Hn, Ha, Hp in E.
    simpl in E; rewrite andb_true_r in E; exact E.
  - intro Hl.
    destruct (CommSend_block_of fa tp rA xferFields dx dy dz false planeOnly
                dir Hn plane_or_face) as (b & Hin & Hd).
    pose proof (CommSend_guard fa tp rA xferFields dx dy dz false planeOnly) as G.
    pose proof (CommSend_toRank fa tp rA xferFields dx dy dz false planeOnly) as F.
    pose proof (CommSend_count fa tp rA xferFields dx dy dz false planeOnly) as C.
    rewrite Forall_forall in G, F, C.
    destruct (G b Hin) as (_ & _ & Hg); rewrite Hd, Ha, Hl in Hg.
    destruct (send_log_block PAD mpA meA tag _ (mkCounters 0 0 0) b Hin Hg)
      as (sbuf & sreq & Hs).
    rewrite (F b Hin), (C b Hin), Hd, <- Hr in Hs.
    assert (Hn' : is_neighbour (opposite dir) = true)
      by (rewrite is_neighbour_opposite; exact Hn).
    assert (Hp' : planeOnly = false \/ is_face (opposite dir) = true)
      by (rewrite is_face_opposite; exact plane_or_face).
    destruct (CommRecv_block_of fb tp rB xferFields dx dy dz false planeOnly
                (opposite dir) Hn' Hp') as (b' & Hin' & Hd').
    pose proof (CommRecv_guard fb tp rB xferFields dx dy dz false planeOnly) as G'.
    pose proof (CommRecv_fromRank fb tp rB xferFields dx dy dz false planeOnly)
      as F'.
    pose proof (CommRecv_count fb tp rB xferFields dx dy dz false planeOnly) as C'.
    rewrite Forall_forall in G', F', C'.
    destruct (G' b' Hin') as (_ & _ & Hg').
    rewrite Hd', Hb, (to_lower_opposite _ Hn), Hl in Hg'.
    destruct (recv_log_block PAD mpB meB tag _ (mkCounters 0 0 0) b' Hin' Hg')
      as (rbuf & rreq & Hrc).
    assert (Eo : neighbour_rank rB tp (opposite dir) = rA)
      by (rewrite Hr; apply neighbour_rank_opposite).
    rewrite (F' b' Hin'), (C' b' Hin'), Hd', region_size_opposite, Eo in Hrc.
    exists sbuf, rbuf, (xferFields * region_size dx dy dz dir),
      (xferFields * region_size dx dy dz dir), tag, sreq, rreq.
    split; [apply in_or_app; left; exact Hs|]; split; [exact Hrc | reflexivity].
Qed.

(** The send along [dir] is suppressed at [A] exactly when the receive from
    the opposite direction is suppressed at [B]. *)
Lemma suppressed_send_meets_suppressed_receive :
  existsb (labelled dir)
    (suppressed
       (send_log PAD mpA meA tag
          (CommSend_blocks fa tp rA xferFields dx dy dz true planeOnly)
          (mkCounters 0 0 0) ++ [Waitall 26])
       (send_log PAD mpA meA tag
          (CommSend_blocks fa tp rA xferFields dx dy dz false planeOnly)
          (mkCounters 0 0 0) ++ [Waitall 26]))
  = existsb (labelled (opposite dir))
      (suppressed
         (recv_log PAD mpB meB tag
            (CommRecv_blocks fb tp rB xferFields dx dy dz true planeOnly)
            (mkCounters 0 0 0))
         (recv_log PAD mpB meB tag
            (CommRecv_blocks fb tp rB xferFields dx dy dz false planeOnly)
            (mkCounters 0 0 0))).
Proof.
  rewrite !suppressed_labelled, !send_log_labelled, !recv_log_labelled.
  rewrite !CommSend_labelled, !CommRecv_labelled.
  rewrite is_neighbour_opposite, is_face_opposite, (to_lower_opposite _ Hn).
  rewrite Hn, Ha, Hb, Hp; destruct (to_lower dir); reflexivity.
Qed.

End MaskedTransfer.

(** C2. Take two adjacent domains [A] and [B] of a grid, [B] the neighbour of
    [A] along [dir], both calling [CommSend] with [doSend = false] and
    [CommRecv] with [doRecv = false] (all 26 directions, or the faces when
    [planeOnly] holds).  Then precisely one of the two transfers of the pair
    takes place: [A] sends along [dir] and [B] has posted the matching
    receive (opposite block, source [A], same tag and count), or [B] sends
    along the opposite direction and [A] has posted the matching receive.
    The send along [dir] is suppressed by [doSend = false] at [A] exactly when
    the receive from the opposite direction is suppressed by
    [doRecv = false] at [B]. *)
Theorem masked_exchange_transmits_exactly_once {Real_t : Type} (PAD : Z)
    (A B : World Real_t) (rankA rankB msgType xferFields dx dy dz : Z)
    (fieldData : list Domain_member) (planeOnly : bool) (dir : Direction) :
  well_formed (domain A) -> well_formed (domain B) ->
  adjacent (domain A) (domain B) dir ->
  is_neighbour dir = true ->
  rankB = neighbour_rank rankA (tp (domain A)) dir ->
  planeOnly = false \/ is_face dir = true ->
  let sends := fun (W : World Real_t) rank doSend =>
    issued W (CommSend PAD rank msgType xferFields fieldData dx dy dz
                doSend planeOnly W) in
  let recvs := fun (W : World Real_t) rank doRecv =>
    issued W (CommRecv PAD rank msgType xferFields dx dy dz
                doRecv planeOnly W) in
  let a_to_b :=
    transmits (sends A rankA false) (recvs B rankB false) dir rankA rankB in
  let b_to_a :=
    transmits (sends B rankB false) (recvs A rankA false) (opposite dir)
      rankB rankA in
  ((a_to_b /\ ~ b_to_a) \/ (~ a_to_b /\ b_to_a))
  /\ existsb (labelled dir)
       (suppressed (sends A rankA true) (sends A rankA false))
     = existsb (labelled (opposite dir))
         (suppressed (recvs B rankB true) (recvs B rankB false)).
Proof.
  intros HA HB Hadj Hn Hr Hp sends recvs a_to_b b_to_a.
  subst a_to_b b_to_a sends recvs; cbv beta.
  destruct (adjacent_has_ranks _ _ _ HA (proj2 (proj2 HB)) Hadj Hn)
    as (Htp & HnA & HnB).
  destruct (adjacent_active _ _ _ (proj2 (proj2 HA)) (proj2 (proj2 HB)) Hadj)
    as (Ha & Hb).
  assert (Ht : tp (domain B) = tp (domain A)) by apply Hadj.
  assert (Hp' : negb planeOnly || is_face dir = true)
    by (destruct Hp as [-> | ->]; [reflexivity | apply orb_true_r]).
  rewrite !CommSend_issued, !CommRecv_issued, HnA, HnB, Ht.
  split.
  - pose proof (masked_transfer_iff_to_lower PAD
                  (xferFields * maxPlaneSize (domain A))
                  (xferFields * maxEdgeSize (domain A))
                  (xferFields * maxPlaneSize (domain B))
                  (xferFields * maxEdgeSize (domain B)) msgType
                  (boundary (domain A)) (boundary (domain B)) (tp (domain A))
                  rankA rankB xferFields dx dy dz planeOnly dir
                  Hn Hp' Ha Hb Hr) as T1.
    assert (Hn' : is_neighbour (opposite dir) = true)
      by (rewrite is_neighbour_opposite; exact Hn).
    assert (Hpo : negb planeOnly || is_face (opposite dir) = true)
      by (rewrite is_face_opposite; exact Hp').
    assert (Ha' : flags_active (boundary (domain A)) (opposite (opposite dir))
                  = true) by (rewrite opposite_involutive; exact Ha).
    assert (Hr' : rankA = neighbour_rank rankB (tp (domain A)) (opposite dir))
      by (rewrite Hr, neighbour_rank_opposite; reflexivity).
    pose proof (masked_transfer_iff_to_lower PAD
                  (xferFields * maxPlaneSize (domain B))
                  (xferFields * maxEdgeSize (domain B))
                  (xferFields * maxPlaneSize (domain A))
                  (xferFields * maxEdgeSize (domain A)) msgType
                  (boundary (domain B)) (boundary (domain A)) (tp (domain A))
                  rankB rankA xferFields dx dy dz planeOnly (opposite dir)
                  Hn' Hpo Hb Ha' Hr') as T2.
    rewrite (to_lower_opposite _ Hn) in T2.
    destruct (to_lower dir).
    + left; split; [apply T1; reflexivity|].
      intro H; apply T2 in H; discriminate.
    + right; split; [intro H; apply T1 in H; discriminate|].
      apply T2; reflexivity.
  - apply suppressed_send_meets_suppressed_receive; assumption.
Qed.

Lemma masked_exchange_transmits_exactly_once_witness :
  let dir := mkDir Plus Null Null in
  let sends := fun (W : World Z) rank doSend =>
    issued W (CommSend 16 rank 7 6 PosVel_fields 2 2 2 doSend false W) in
  let recvs := fun (W : World Z) rank doRecv =>
    issued W (CommRecv 16 rank 7 6 2 2 2 doRecv false W) in
  let a_to_b :=
    transmits (sends origin_of_8 0 false) (recvs east_of_origin 1 false)
      dir 0 1 in
  let b_to_a :=
    transmits (sends east_of_origin 1 false) (recvs origin_of_8 0 false)
      (opposite dir) 1 0 in
  well_formed (domain origin_of_8) /\ well_formed (domain east_of_origin)
  /\ adjacent (domain origin_of_8) (domain east_of_origin) dir
  /\ ((a_to_b /\ ~ b_to_a) \/ (~ a_to_b /\ b_to_a))
  /\ existsb (labelled dir)
       (suppressed (sends origin_of_8 0 true) (sends origin_of_8 0 false))
     = existsb (labelled (opposite dir))
         (suppressed (recvs east_of_origin 1 true)
            (recvs east_of_origin 1 false)).
Proof.
  assert (HA : well_formed (domain origin_of_8)) by grid_facts.
  assert (HB : well_formed (domain east_of_origin)) by grid_facts.
  assert (Hadj : adjacent (domain origin_of_8) (domain east_of_origin)
                   (mkDir Plus Null Null)) by grid_facts.
  split; [exact HA|]; split; [exact HB|]; split; [exact Hadj|].
  exact (masked_exchange_transmits_exactly_once 16 origin_of_8 east_of_origin
           0 1 7 6 2 2 2 PosVel_fields false (mkDir Plus Null Null)
           HA HB Hadj eq_refl eq_refl (or_introl eq_refl)).
Defined.

(** ** Packing and unpacking a region *)

Lemma cells_Run1 (n : Z) (idx : Z -> Z) (p k : Z) :
  In (p, k) (cells (Run1 n idx)) <-> 0 <= p < n /\ k = idx p.
Proof.
  simpl; rewrite in_map_iff; split.
  - intros (i & E & Hi); inversion E; subst; apply in_upto in Hi; auto.
  - intros [Hp ->]; exists p; split; [reflexivity | apply in_upto; exact Hp].
Qed.

Lemma cells_Run2 (n m : Z) (pos idx : Z -> Z -> Z) (adv p k : Z) :
  In (p, k) (cells (Run2 n m pos idx adv)) <->
  exists i j, 0 <= i < n /\ 0 <= j < m /\ p = pos i j /\ k = idx i j.
Proof.
  simpl; rewrite in_flat_map; split.
  - intros (i & Hi & H); apply in_map_iff in H; destruct H as (j & E & Hj).
    inversion E; subst; exists i, j.
    apply in_upto in Hi; apply in_upto in Hj; auto.
  - intros (i & j & Hi & Hj & -> & ->); exists i; split; [apply in_upto; exact Hi|].
    apply in_map_iff; exists j; split; [reflexivity | apply in_upto; exact Hj].
Qed.

Lemma Run1_well_positioned (n : Z) (idx : Z -> Z) :
  well_positioned (Run1 n idx).
Proof.
  split.
  - intros p k H; apply cells_Run1 in H; simpl; tauto.
  - intros p k k' H H'; apply cells_Run1 in H; apply cells_Run1 in H'.
    destruct H as [_ ->], H' as [_ ->]; reflexivity.
Qed.

Lemma row_major_unique (m i j i' j' : Z) :
  0 <= j < m -> 0 <= j' < m -> i * m + j = i' * m + j' -> i = i' /\ j = j'.
Proof.
  intros Hj Hj' E.
  assert (Hi : i = i').
  { destruct (Z.lt_trichotomy i i') as [H | [H | H]]; [exfalso|exact H|exfalso].
    - assert (1 * m <= (i' - i) * m) by (apply Z.mul_le_mono_nonneg_r; lia).
      lia.
    - assert (1 * m <= (i - i') * m) by (apply Z.mul_le_mono_nonneg_r; lia).
      lia. }
  subst i'; split; [reflexivity | lia].
Qed.

Lemma Run2_well_positioned (n m : Z) (idx : Z -> Z -> Z) :
  well_positioned (Run2 n m (fun i j => i * m + j) idx (m * n)).
Proof.
  split.
  - intros p k H; apply cells_Run2 in H.
    destruct H as (i & j & Hi & Hj & -> & _); simpl; nia.
  - intros p k k' H H'; apply cells_Run2 in H; apply cells_Run2 in H'.
    destruct H as (i & j & Hi & Hj & -> & ->).
    destruct H' as (i' & j' & Hi' & Hj' & E & ->).
    destruct (row_major_unique m i j i' j' Hj Hj' E) as [-> ->]; reflexivity.
Qed.

Lemma Point_well_positioned (idx : Z) : well_positioned (Point idx).
Proof.
  split; simpl.
  - intros p k [E | []]; inversion E; lia.
  - intros p k k' [E | []] [E' | []]; congruence.
Qed.

Ltac shapes_well_positioned :=
  repeat (constructor;
          [first [apply Run1_well_positioned | apply Run2_well_positioned
                 | apply Point_well_positioned]|]);
  constructor.

Lemma CommSend_well_positioned (fl : Flags) (tp myRank xferFields dx dy dz : Z)
    (doSend planeOnly : bool) :
  Forall (fun b => well_positioned (sb_shape b))
         (CommSend_blocks fl tp myRank xferFields dx dy dz doSend planeOnly).
Proof.
  unfold CommSend_blocks, CommSend_planes, CommSend_edges_corners.
  destruct planeOnly; cbn [negb app sb_shape]; shapes_well_positioned.
Qed.

Section PackUnpack.

Context {Real_t : Type}.
Variable sh : Shape.

(** A run of writes into a buffer: the cell holds the value written, when
    all writes to it carry that value. *)
Lemma writes_settle (v : Z -> Real_t) (base p : Z) (val : Real_t)
    (l : list (Z * Z)) :
  forall buf,
    (forall k', In (p, k') l -> v k' = val) ->
    In p (map fst l) \/ buf (base + p) = val ->
    fold_left (fun b pk => upd b (base + fst pk) (v (snd pk))) l buf (base + p)
    = val.
Proof.
  induction l as [|[p0 k0] l IH]; intros buf Hv H; simpl.
  - destruct H as [[] | H]; exact H.
  - apply IH.
    + intros k' Hk; apply Hv; right; exact Hk.
    + destruct (Z.eq_dec p0 p) as [-> | Hne].
      * right; rewrite upd_same; apply Hv; left; reflexivity.
      * destruct H as [[H | H] | H]; [simpl in H; contradiction | left; exact H|].
        right; rewrite upd_other by lia; exact H.
Qed.

Lemma writes_miss (v : Z -> Real_t) (base q : Z) (l : list (Z * Z)) :
  forall buf,
    (forall p k, In (p, k) l -> base + p <> q) ->
    fold_left (fun b pk => upd b (base + fst pk) (v (snd pk))) l buf q = buf q.
Proof.
  induction l as [|[p0 k0] l IH]; intros buf H; simpl; [reflexivity|].
  rewrite IH by (intros p k Hk; apply (H p k); right; exact Hk).
  apply upd_other; intro E; apply (H p0 k0); [left; reflexivity | auto].
Qed.

Hypothesis Hsh : well_positioned sh.

Lemma pack_below (fs : list Domain_member) (fld : Domain_member -> Z -> Real_t) :
  forall destAddr buf q,
    q < destAddr -> pack fs sh fld destAddr buf q = buf q.
Proof.
  induction fs as [|f fs IH]; intros destAddr buf q Hq; simpl; [reflexivity|].
  destruct (cells sh) as [|[p0 k0] l] eqn:E.
  - simpl. clear IH Hq; revert destAddr; induction fs as [|g fs IH];
      intro destAddr; simpl; [reflexivity|]; rewrite E; simpl; apply IH.
  - rewrite <- E.
    assert (0 < advance sh)
      by (destruct Hsh as [Hb _]; specialize (Hb p0 k0); rewrite E in Hb;
          specialize (Hb (or_introl eq_refl)); lia).
    rewrite IH by lia.
    apply writes_miss; intros p k Hk.
    destruct Hsh as [Hb _]; specialize (Hb p k Hk); lia.
Qed.

(** After [pack], the segment of the field at place [fi] of the list holds
    the field's values over the region. *)
Lemma pack_holds (fld : Domain_member -> Z -> Real_t) (fs : list Domain_member) :
  forall destAddr buf fi f p k,
    nth_error fs fi = Some f -> In (p, k) (cells sh) ->
    pack fs sh fld destAddr buf (destAddr + Z.of_nat fi * advance sh + p)
    = fld f k.
Proof.
  induction fs as [|f0 fs IH]; intros destAddr buf fi f p k Hf Hc.
  - destruct fi; discriminate.
  - destruct Hsh as [Hb Hu]; pose proof (Hb p k Hc) as Hp.
    destruct fi as [|fi]; cbn [pack nth_error] in Hf |- *.
    + inversion Hf; subst f0.
      rewrite pack_below by lia.
      replace (destAddr + Z.of_nat 0 * advance sh + p) with (destAddr + p)
        by lia.
      apply writes_settle.
      * intros k' Hk'; rewrite (Hu p k k' Hc Hk'); reflexivity.
      * left; apply in_map_iff; exists (p, k); auto.
    + replace (destAddr + Z.of_nat (S fi) * advance sh + p)
        with (destAddr + advance sh + Z.of_nat fi * advance sh + p) by lia.
      apply IH; assumption.
Qed.

(** A run of writes into the mesh. *)
Lemma stores_settle (buf : Z -> Real_t) (srcAddr : Z) (dest g : Domain_member)
    (j : Z) (val : Real_t) (l : list (Z * Z)) :
  forall fld,
    (forall p, In (p, j) l -> dest = g -> buf (srcAddr + p) = val) ->
    (dest = g /\ In j (map snd l)) \/ fld g j = val ->
    fold_left (fun h pk => upd2 h dest (snd pk) (buf (srcAddr + fst pk))) l fld
      g j = val.
Proof.
  induction l as [|[p0 k0] l IH]; intros fld Hv H; simpl.
  - destruct H as [[_ []] | H]; exact H.
  - apply IH.
    + intros p Hp; apply Hv; right; exact Hp.
    + destruct (Domain_member_eqb g dest) eqn:Ed.
      * apply Domain_member_eqb_eq in Ed; subst g.
        destruct (Z.eq_dec k0 j) as [-> | Hne].
        -- right; rewrite upd2_same; apply Hv; [left|]; reflexivity.
        -- destruct H as [[_ [H | H]] | H];
             [simpl in H; contradiction | left; split; [reflexivity | exact H]|].
           right; rewrite upd2_other by (right; congruence); exact H.
      * assert (g <> dest)
          by (intro; subst g; rewrite Domain_member_eqb_refl in Ed; discriminate).
        destruct H as [[H _] | H]; [congruence|].
        right; rewrite upd2_other by (left; assumption); exact H.
Qed.

Lemma unpack_settles (buf : Z -> Real_t) (g : Domain_member) (j : Z)
    (val : Real_t) (fs : list Domain_member) :
  forall srcAddr fld,
    (forall fi p, nth_error fs fi = Some g -> In (p, j) (cells sh) ->
                  buf (srcAddr + Z.of_nat fi * advance sh + p) = val) ->
    (In g fs /\ In j (region sh)) \/ fld g j = val ->
    unpack fs sh buf srcAddr fld g j = val.
Proof.
  induction fs as [|f0 fs IH]; intros srcAddr fld Hv H; simpl.
  - destruct H as [[[] _] | H]; exact H.
  - apply IH.
    + intros fi p Hf Hc.
      replace (srcAddr + advance sh + Z.of_nat fi * advance sh + p)
        with (srcAddr + Z.of_nat (S fi) * advance sh + p) by lia.
      apply Hv; assumption.
    + destruct (Domain_member_eqb g f0) eqn:Ed.
      * apply Domain_member_eqb_eq in Ed; subst f0.
        destruct (in_dec Z.eq_dec j (region sh)) as [Hj | Hj].
        -- right; apply stores_settle.
           ++ intros p Hp _.
              replace (srcAddr + p) with (srcAddr + Z.of_nat 0 * advance sh + p)
                by lia.
              apply Hv; [reflexivity | exact Hp].
           ++ left; split; [reflexivity | exact Hj].
        -- destruct H as [[_ H] | H]; [contradiction|].
           right; apply stores_settle; [|right; exact H].
           intros p Hp _; elim Hj; apply in_map_iff; exists (p, j); auto.
      * assert (g <> f0)
          by (intro; subst g; rewrite Domain_member_eqb_refl in Ed; discriminate).
        destruct H as [[[H | H] Hj] | H]; [congruence | left; auto|].
        right; apply stores_settle; [|right; exact H].
        intros p _ E; congruence.
Qed.

(** Packing a region and unpacking the delivered message over the same
    region reproduces the packed values. *)
Lemma pack_unpack (fs : list Domain_member)
    (src dst : Domain_member -> Z -> Real_t) (sendBuf recvBuf : Z -> Real_t)
    (destAddr srcAddr : Z) (f : Domain_member) (k : Z) :
  delivered (pack fs sh src destAddr sendBuf) recvBuf destAddr srcAddr
    (Z.of_nat (length fs) * advance sh) ->
  In f fs -> In k (region sh) ->
  unpack fs sh recvBuf srcAddr dst f k = src f k.
Proof.
  intros Hd Hf Hk; apply unpack_settles; [|left; auto].
  intros fi p Hfi Hc.
  assert (Hlt : (fi < length fs)%nat)
    by (apply nth_error_Some; rewrite Hfi; discriminate).
  destruct Hsh as [Hb _]; pose proof (Hb p k Hc) as Hp.
  replace (srcAddr + Z.of_nat fi * advance sh + p)
    with (srcAddr + (Z.of_nat fi * advance sh + p)) by lia.
  rewrite Hd by nia.
  replace (destAddr + (Z.of_nat fi * advance sh + p))
    with (destAddr + Z.of_nat fi * advance sh + p) by lia.
  apply pack_holds; assumption.
Qed.

End PackUnpack.

(** The blocks of [CommSend] and of [CommSyncPosVel] that carry the same
    label run the same loops. *)
Lemma CommSend_CommSyncPosVel_shapes (fl fl' : Flags)
    (tp myRank xferFields dx dy dz : Z) (doSend doRecv : bool) :
  map (fun b => (sb_dir b, sb_shape b))
      (CommSend_blocks fl tp myRank xferFields dx dy dz doSend false)
  = map (fun u => (ub_dir u, ub_shape u))
        (CommSyncPosVel_blocks fl' dx dy dz doRecv).
Proof. reflexivity. Qed.

Lemma CommSend_labels (fl : Flags) (tp myRank xferFields dx dy dz : Z)
    (doSend : bool) :
  map sb_dir (CommSend_blocks fl tp myRank xferFields dx dy dz doSend false)
  = map (fun b => rb_dir b)
      (CommRecv_blocks fl tp myRank xferFields dx dy dz true false).
Proof. reflexivity. Qed.

Lemma neighbour_labels_NoDup (fl : Flags) (tp myRank xferFields dx dy dz : Z) :
  NoDup (map (fun b => rb_dir b)
           (CommRecv_blocks fl tp myRank xferFields dx dy dz true false)).
Proof.
  unfold CommRecv_blocks, CommRecv_planes, CommRecv_edges_corners.
  cbn [negb app map rb_dir].
  repeat (constructor; [simpl; intuition discriminate|]); constructor.
Qed.

Lemma labelled_shape_unique {S : Type} (l : list (Direction * S))
    (d : Direction) (s s' : S) :
  NoDup (map fst l) -> In (d, s) l -> In (d, s') l -> s = s'.
Proof.
  induction l as [|[d0 s0] l IH]; simpl; [tauto|].
  intros Hnd [E | H] [E' | H'].
  - congruence.
  - inversion E; subst; inversion Hnd as [|? ? Hn _]; elim Hn.
    apply in_map_iff; exists (d, s'); auto.
  - inversion E'; subst; inversion Hnd as [|? ? Hn _]; elim Hn.
    apply in_map_iff; exists (d, s); auto.
  - apply IH; [inversion Hnd; assumption | assumption | assumption].
Qed.

Lemma same_label_same_shape (fl fl' : Flags)
    (tp myRank xferFields dx dy dz : Z) (doSend doRecv : bool)
    (b : SendBlock) (u : UnpackBlock) :
  In b (CommSend_blocks fl tp myRank xferFields dx dy dz doSend false) ->
  In u (CommSyncPosVel_blocks fl' dx dy dz doRecv) ->
  ub_dir u = sb_dir b -> ub_shape u = sb_shape b.
Proof.
  intros Hb Hu Hd.
  apply (labelled_shape_unique
           (map (fun b => (sb_dir b, sb_shape b))
              (CommSend_blocks fl tp myRank xferFields dx dy dz doSend false))
           (sb_dir b)).
  - rewrite map_map; simpl.
    change (NoDup (map sb_dir
                     (CommSend_blocks fl tp myRank xferFields dx dy dz doSend
                        false))).
    rewrite CommSend_labels; apply neighbour_labels_NoDup.
  - rewrite (CommSend_CommSyncPosVel_shapes fl fl' tp myRank xferFields dx dy dz
               doSend doRecv), <- Hd.
    apply in_map_iff; exists u; auto.
  - apply in_map_iff; exists b; auto.
Qed.

(** C3. For each of the 26 blocks of [CommSend] - faces, edges and corners -
    every field list and every state of the fields: when the region of the
    block is packed by the gather loops of [CommSend] and the message so
    built is unpacked by the overwrite loops of the block of
    [CommSyncPosVel] with the same label, which run over the same region,
    every field of the list holds, at every index of the region, the value
    that was packed. *)
Theorem pack_then_unpack_reproduces_the_region {Real_t : Type}
    (fl fl' : Flags) (tp myRank xferFields dx dy dz : Z) (doSend doRecv : bool)
    (b : SendBlock) (u : UnpackBlock) (fieldData : list Domain_member)
    (src dst : Domain_member -> Z -> Real_t) (sendBuf recvBuf : Z -> Real_t)
    (destAddr srcAddr : Z) (f : Domain_member) (k : Z) :
  In b (CommSend_blocks fl tp myRank xferFields dx dy dz doSend false) ->
  In u (CommSyncPosVel_blocks fl' dx dy dz doRecv) ->
  ub_dir u = sb_dir b ->
  let fs := fields_of xferFields fieldData in
  delivered (pack fs (sb_shape b) src destAddr sendBuf) recvBuf destAddr srcAddr
    (Z.of_nat (length fs) * advance (sb_shape b)) ->
  In f fs -> In k (region (sb_shape b)) ->
  region (ub_shape u) = region (sb_shape b)
  /\ unpack fs (ub_shape u) recvBuf srcAddr dst f k = src f k.
Proof.
  intros Hb Hu Hd fs Hdel Hf Hk.
  rewrite (same_label_same_shape _ _ _ _ _ _ _ _ _ _ _ _ Hb Hu Hd).
  split; [reflexivity|].
  pose proof (CommSend_well_positioned fl tp myRank xferFields dx dy dz doSend
                false) as W.
  rewrite Forall_forall in W.
  apply (pack_unpack (sb_shape b) (W b Hb) fs src dst sendBuf recvBuf destAddr
           srcAddr f k Hdel Hf Hk).
Qed.

Lemma pack_then_unpack_reproduces_the_region_witness :
  let fl := mkFlags true true true true true true in
  let sh := Run2 2 2 (fun i j => i*2 + j) (fun i j => 2*(2 - 1) + i*2*2 + j)
              (2 * 2) in
  let b := mkSendBlock (mkDir Null Plus Null) true Plane (13 + 3) sh
             (6 * (2 * 2)) in
  let u := mkUnpackBlock (mkDir Null Plus Null) true Plane sh in
  let fs := fields_of 6 PosVel_fields in
  let src := fun (_ : Domain_member) (k : Z) => 100 + k in
  let message := pack fs sh src 0 (fun _ => 0) in
  In b (CommSend_blocks fl 3 13 6 2 2 2 true false)
  /\ In u (CommSyncPosVel_blocks fl 2 2 2 true)
  /\ delivered message message 0 0 (Z.of_nat (length fs) * advance sh)
  /\ In Domain_y fs /\ In 6 (region sh)
  /\ region (ub_shape u) = region (sb_shape b)
  /\ unpack fs (ub_shape u) message 0 (fun _ _ => 0) Domain_y 6 = 106.
Proof.
  intros fl sh b u fs src message.
  assert (Hb : In b (CommSend_blocks fl 3 13 6 2 2 2 true false))
    by (right; right; right; left; reflexivity).
  assert (Hu : In u (CommSyncPosVel_blocks fl 2 2 2 true))
    by (right; right; right; left; reflexivity).
  assert (Hd : delivered message message 0 0 (Z.of_nat (length fs) * advance sh))
    by (intros q _; reflexivity).
  assert (Hf : In Domain_y fs) by (right; left; reflexivity).
  assert (Hk : In 6 (region sh)) by (right; right; left; reflexivity).
  split; [exact Hb|]; split; [exact Hu|]; split; [exact Hd|].
  split; [exact Hf|]; split; [exact Hk|].
  exact (pack_then_unpack_reproduces_the_region fl fl 3 13 6 2 2 2 true true
           b u PosVel_fields src (fun _ _ => 0) (fun _ => 0) message 0 0
           Domain_y 6 Hb Hu eq_refl Hd Hf Hk).
Defined.

(** ** Accumulation *)

Lemma upto_NoDup (n : Z) : NoDup (upto n).
Proof.
  unfold upto; apply NoDup_map_NoDup_ForallPairs; [|apply seq_NoDup].
  intros a b _ _ H; lia.
Qed.

Lemma NoDup_flat_map {A B : Type} (f : A -> list B) (l : list A) :
  NoDup l -> (forall a, In a l -> NoDup (f a)) ->
  (forall a a' b, In a l -> In a' l -> In b (f a) -> In b (f a') -> a = a') ->
  NoDup (flat_map f l).
Proof.
  induction l as [|a l IH]; simpl; intros Hl Hf Hd; [constructor|].
  inversion Hl as [|? ? Hn Hl']; subst.
  apply NoDup_app.
  - apply Hf; left; reflexivity.
  - apply IH; [assumption | intros; apply Hf; right; assumption|].
    intros a0 a' b0 H H'; apply Hd; right; assumption.
  - intros b0 Hb Hb'; apply in_flat_map in Hb'; destruct Hb' as (a' & Ha' & Hb').
    assert (a = a') by (apply (Hd a a' b0); auto).
    subst a'; contradiction.
Qed.

Lemma Run1_region_NoDup (n : Z) (idx : Z -> Z) :
  (forall i i', 0 <= i < n -> 0 <= i' < n -> idx i = idx i' -> i = i') ->
  NoDup (region (Run1 n idx)).
Proof.
  intro H; unfold region; simpl; rewrite map_map; simpl.
  apply NoDup_map_NoDup_ForallPairs; [|apply upto_NoDup].
  intros a b Ha Hb; apply H; apply in_upto; assumption.
Qed.

Lemma Run2_region_NoDup (n m : Z) (pos idx : Z -> Z -> Z) (adv : Z) :
  (forall i j i' j', 0 <= i < n -> 0 <= j < m -> 0 <= i' < n -> 0 <= j' < m ->
                     idx i j = idx i' j' -> i = i' /\ j = j') ->
  NoDup (region (Run2 n m pos idx adv)).
Proof.
  intro H; unfold region; simpl.
  assert (E : forall l,
             map snd (flat_map (fun i => map (fun j => (pos i j, idx i j))
                                             (upto m)) l)
             = flat_map (fun i => map (idx i) (upto m)) l).
  { induction l as [|a l IH]; simpl; [reflexivity|].
    rewrite map_app, map_map, IH; reflexivity. }
  rewrite E; apply NoDup_flat_map; [apply upto_NoDup| |].
  - intros i Hi.
    apply NoDup_map_NoDup_ForallPairs; [|apply upto_NoDup].
    intros a b Ha Hb E'; apply in_upto in Hi, Ha, Hb.
    apply (H i a i b); assumption.
  - intros i i' k Hi Hi' Hk Hk'.
    apply in_map_iff in Hk, Hk'.
    destruct Hk as (j & <- & Hj), Hk' as (j' & E' & Hj').
    apply in_upto in Hi, Hi', Hj, Hj'.
    apply (H i j i' j'); auto.
Qed.

Lemma Point_region_NoDup (idx : Z) : NoDup (region (Point idx)).
Proof. repeat constructor; simpl; tauto. Qed.

Lemma scaled_injective (s i i' : Z) : 0 < s -> i * s = i' * s -> i = i'.
Proof. intros; nia. Qed.

Lemma pencil_unique (dx dy i j i' j' : Z) :
  1 <= dx -> 1 <= dy -> 0 <= j < dx -> 0 <= j' < dx ->
  i*dx*dy + j = i'*dx*dy + j' -> i = i' /\ j = j'.
Proof.
  intros Hx Hy Hj Hj' E.
  apply (row_major_unique (dx * dy) i j i' j'); nia.
Qed.

Lemma column_unique (dx dy i j i' j' : Z) :
  1 <= dx -> 1 <= dy -> 0 <= j < dy -> 0 <= j' < dy ->
  i*dx*dy + j*dx = i'*dx*dy + j'*dx -> i = i' /\ j = j'.
Proof.
  intros Hx Hy Hj Hj' E.
  apply (row_major_unique dy i j i' j'); try assumption.
  apply (scaled_injective dx); [lia | nia].
Qed.

(** With at least one node along every axis, no block of [CommSBN] visits a
    mesh index twice. *)
Lemma CommSBN_regions_NoDup (fl : Flags) (dx dy dz : Z) :
  1 <= dx -> 1 <= dy -> 1 <= dz ->
  Forall (fun u => NoDup (region (ub_shape u))) (CommSBN_blocks fl dx dy dz).
Proof.
  intros Hx Hy Hz; unfold CommSBN_blocks; cbn [ub_shape].
  repeat (constructor;
          [first
             [ apply Point_region_NoDup
             | apply Run1_region_NoDup; intros i i' Hi Hi' E;
               first [ lia
                     | apply (scaled_injective dx); [lia | lia]
                     | apply (scaled_injective (dx * dy)); [nia | lia] ]
             | apply Run2_region_NoDup; intros i j i' j' Hi Hj Hi' Hj' E;
               first [ apply (pencil_unique dx dy); (assumption || lia)
                     | apply (column_unique dx dy); (assumption || lia) ] ]|]);
    constructor.
Qed.

Section Accumulate.

Context {Real_t : Type}.
Variable Real_add : Real_t -> Real_t -> Real_t.
Variable sh : Shape.
Variable buf : Z -> Real_t.

Let add_cell (srcAddr : Z) (dest : Domain_member)
    (g : Domain_member -> Z -> Real_t) (pk : Z * Z) :=
  upd2 g dest (snd pk) (Real_add (g dest (snd pk)) (buf (srcAddr + fst pk))).

Lemma adds_miss (srcAddr : Z) (dest g : Domain_member) (j : Z)
    (l : list (Z * Z)) :
  forall fld,
    g <> dest \/ ~ In j (map snd l) ->
    fold_left (add_cell srcAddr dest) l fld g j = fld g j.
Proof.
  induction l as [|[p0 k0] l IH]; intros fld H; simpl; [reflexivity|].
  rewrite IH by (destruct H as [H | H]; [left; exact H | right; simpl in H; tauto]).
  unfold add_cell; simpl; apply upd2_other.
  destruct H as [H | H]; [left; exact H | right; simpl in H; intro; subst; tauto].
Qed.

Lemma adds_hit (srcAddr : Z) (dest : Domain_member) (p j : Z)
    (l : list (Z * Z)) :
  forall fld,
    NoDup (map snd l) -> In (p, j) l ->
    fold_left (add_cell srcAddr dest) l fld dest j
    = Real_add (fld dest j) (buf (srcAddr + p)).
Proof.
  induction l as [|[p0 k0] l IH]; intros fld Hnd Hin; simpl; [destruct Hin|].
  simpl in Hnd; inversion Hnd as [|? ? Hn Hnd']; subst.
  destruct Hin as [E | Hin].
  - inversion E; subst.
    rewrite adds_miss by (right; exact Hn).
    unfold add_cell; simpl; apply upd2_same.
  - rewrite (IH _ Hnd' Hin); unfold add_cell; simpl.
    rewrite upd2_other; [reflexivity|].
    right; intro; subst; apply Hn; apply in_map_iff; exists (p, k0); auto.
Qed.

Lemma unpack_add_miss (g : Domain_member) (j : Z) (fs : list Domain_member) :
  forall srcAddr fld,
    ~ In g fs \/ ~ In j (region sh) ->
    unpack_add Real_add fs sh buf srcAddr fld g j = fld g j.
Proof.
  induction fs as [|f0 fs IH]; intros srcAddr fld H; simpl; [reflexivity|].
  rewrite IH by (destruct H as [H | H]; [left; simpl in H; tauto | right; exact H]).
  apply (adds_miss srcAddr f0 g j (cells sh)).
  destruct H as [H | H]; [left; simpl in H; intro; subst; tauto | right; exact H].
Qed.

(** One pass of the accumulating loops adds, to every cell of the region and
    every field of the list, the value the message carries for it. *)
Lemma unpack_add_hit (fs : list Domain_member) :
  forall srcAddr fld fi f p k,
    NoDup fs -> NoDup (region sh) ->
    nth_error fs fi = Some f -> In (p, k) (cells sh) ->
    unpack_add Real_add fs sh buf srcAddr fld f k
    = Real_add (fld f k) (buf (srcAddr + Z.of_nat fi * advance sh + p)).
Proof.
  induction fs as [|f0 fs IH]; intros srcAddr fld fi f p k Hfs Hr Hf Hc.
  - destruct fi; discriminate.
  - inversion Hfs as [|? ? Hn Hfs']; subst.
    destruct fi as [|fi]; cbn [unpack_add nth_error] in Hf |- *.
    + inversion Hf; subst f0.
      rewrite unpack_add_miss by (left; exact Hn).
      replace (srcAddr + Z.of_nat 0 * advance sh + p) with (srcAddr + p) by lia.
      apply (adds_hit srcAddr f p k (cells sh)); assumption.
    + rewrite (IH _ _ fi f p k Hfs' Hr Hf Hc).
      replace (srcAddr + advance sh + Z.of_nat fi * advance sh + p)
        with (srcAddr + Z.of_nat (S fi) * advance sh + p) by lia.
      f_equal.
      apply (adds_miss srcAddr f0 f k (cells sh)).
      left; intro; subst f0; apply Hn; eapply nth_error_In; exact Hf.
Qed.

End Accumulate.

(** C4. The consumption of [CommSBN] is additive.  For each of its blocks,
    every list of distinct fields and every state of the fields (at least one
    node along every axis): unpacking a message adds the value [v] it carries
    for a cell to the value [v0] of the cell with the addition of [Real_t],
    and unpacking the same message again leaves [(v0 + v) + v] there.  This
    is [v0 + (v + v)] when the addition is associative, and it differs from
    [v0 + v] exactly when [v] is not zero when the addition can be cancelled
    on the left and has a zero; neither is assumed of [Real_t]. *)
Theorem CommSBN_unpack_accumulates {Real_t : Type}
    (Real_add : Real_t -> Real_t -> Real_t) (fl : Flags) (dx dy dz : Z)
    (u : UnpackBlock) (xferFields : Z) (fieldData : list Domain_member)
    (buf : Z -> Real_t) (srcAddr : Z) (fld : Domain_member -> Z -> Real_t)
    (fi : nat) (f : Domain_member) (p k : Z) :
  1 <= dx -> 1 <= dy -> 1 <= dz ->
  In u (CommSBN_blocks fl dx dy dz) ->
  let fs := fields_of xferFields fieldData in
  NoDup fs ->
  nth_error fs fi = Some f -> In (p, k) (cells (ub_shape u)) ->
  let v := buf (srcAddr + Z.of_nat fi * advance (ub_shape u) + p) in
  let v0 := fld f k in
  let once := unpack_add Real_add fs (ub_shape u) buf srcAddr fld in
  let twice := unpack_add Real_add fs (ub_shape u) buf srcAddr once in
  once f k = Real_add v0 v
  /\ twice f k = Real_add (Real_add v0 v) v
  /\ ((forall a b c, Real_add a (Real_add b c) = Real_add (Real_add a b) c) ->
      twice f k = Real_add v0 (Real_add v v))
  /\ (forall zero : Real_t,
        (forall a b c, Real_add a b = Real_add a c -> b = c) ->
        (forall a, Real_add a zero = a) ->
        (twice f k = Real_add v0 v <-> v = zero)).
Proof.
  intros Hx Hy Hz Hu fs Hfs Hf Hc v v0 once twice.
  pose proof (CommSBN_regions_NoDup fl dx dy dz Hx Hy Hz) as R.
  rewrite Forall_forall in R; specialize (R u Hu).
  assert (E1 : once f k = Real_add v0 v)
    by (apply (unpack_add_hit Real_add (ub_shape u) buf fs srcAddr fld fi f p k);
        assumption).
  assert (E2 : twice f k = Real_add (Real_add v0 v) v).
  { unfold twice.
    rewrite (unpack_add_hit Real_add (ub_shape u) buf fs srcAddr once fi f p k)
      by assumption.
    rewrite E1; reflexivity. }
  split; [exact E1|]; split; [exact E2|]; split.
  - intro Hassoc; rewrite E2; symmetry; apply Hassoc.
  - intros zero Hcancel Hzero; rewrite E2; split.
    + intro E; apply (Hcancel (Real_add v0 v)).
      rewrite Hzero; exact E.
    + intros ->; apply Hzero.
Qed.

Lemma CommSBN_unpack_accumulates_witness :
  let fl := mkFlags true true true true true true in
  let sh := Run2 2 2 (fun i j => i*2 + j) (fun i j => 2*(2 - 1) + i*2*2 + j)
              (2 * 2) in
  let u := mkUnpackBlock (mkDir Null Plus Null) true Plane sh in
  let fs := fields_of 3 MonoQ_fields in
  let buf := fun q : Z => 7 + q in
  let fld := fun (_ : Domain_member) (k : Z) => 5 in
  let once := unpack_add Z.add fs sh buf 0 fld in
  let twice := unpack_add Z.add fs sh buf 0 once in
  In u (CommSBN_blocks fl 2 2 2)
  /\ NoDup fs
  /\ nth_error fs 1 = Some Domain_delv_eta /\ In (2, 6) (cells sh)
  /\ once Domain_delv_eta 6 = 5 + 13
  /\ twice Domain_delv_eta 6 = 5 + 13 + 13
  /\ twice Domain_delv_eta 6 = 5 + (13 + 13)
  /\ twice Domain_delv_eta 6 <> 5 + 13.
Proof.
  intros fl sh u fs buf fld once twice.
  assert (Hu : In u (CommSBN_blocks fl 2 2 2))
    by (right; right; right; left; reflexivity).
  assert (Hfs : NoDup fs)
    by (repeat constructor; simpl; intuition discriminate).
  assert (Hc : In (2, 6) (cells sh)) by (right; right; left; reflexivity).
  pose proof (CommSBN_unpack_accumulates Z.add fl 2 2 2 u 3 MonoQ_fields buf 0
                fld 1 Domain_delv_eta 2 6
                ltac:(lia) ltac:(lia) ltac:(lia) Hu Hfs eq_refl Hc) as T.
  destruct T as (T1 & T2 & T3 & T4).
  split; [exact Hu|]; split; [exact Hfs|]; split; [reflexivity|].
  split; [exact Hc|]; split; [exact T1|]; split; [exact T2|].
  split; [exact (T3 Z.add_assoc)|].
  intro E.
  apply (T4 0 (fun a b c => proj1 (Z.add_cancel_l b c a)) Z.add_0_r) in E.
  discriminate E.
Defined.

(** C4 as stated fails for the arithmetic of the code.  With [double] for
    [Real_t], take a cell that holds 2^53 and a message that carries 1 for
    it: the corner block of [CommSBN] leaves 2^53 after one unpacking and
    after two, which is [v0 + v] and not [v0 + 2 v] = 2^53 + 2.  And in any
    arithmetic a message that carries 0 leaves [v0 + v] after two
    unpackings. *)
Lemma second_unpack_can_leave_v0_plus_v :
  let fl := mkFlags true true true true true true in
  let u := mkUnpackBlock (mkDir Minus Minus Minus) true Corner (Point 0) in
  let fs := fields_of 3 MonoQ_fields in
  In u (CommSBN_blocks fl 2 2 2)
  /\ ~ twice_leaves_v0_plus_2v PrimFloat.add fs (ub_shape u)
        (fun _ => PrimFloat.one) 0 (fun _ _ => two_to_53)
  /\ ~ twice_differs_from_v0_plus_v PrimFloat.add fs (ub_shape u)
        (fun _ => PrimFloat.one) 0 (fun _ _ => two_to_53)
  /\ ~ twice_differs_from_v0_plus_v Z.add fs (ub_shape u)
        (fun _ => 0) 0 (fun _ _ => 5).
Proof.
  intros fl u fs; split; [|split; [|split]].
  - do 18 right; left; reflexivity.
  - intro H.
    specialize (H 0%nat Domain_delv_xi 0 0 eq_refl (or_introl eq_refl)).
    apply (f_equal (PrimFloat.eqb two_to_53)) in H.
    vm_compute in H; discriminate H.
  - intro H.
    apply (H 0%nat Domain_delv_xi 0 0 eq_refl (or_introl eq_refl)).
    vm_compute; reflexivity.
  - intro H.
    apply (H 0%nat Domain_delv_xi 0 0 eq_refl (or_introl eq_refl)).
    reflexivity.
Qed.

(** ** What CommSyncPosVel leaves alone *)

Lemma unpack_miss {Real_t : Type} (sh : Shape) (buf : Z -> Real_t)
    (fs : list Domain_member) (srcAddr : Z)
    (fld : Domain_member -> Z -> Real_t) (g : Domain_member) (j : Z) :
  ~ In g fs \/ ~ In j (region sh) ->
  unpack fs sh buf srcAddr fld g j = fld g j.
Proof.
  intro H; apply unpack_settles; [|right; reflexivity].
  intros fi p Hf Hc; exfalso; destruct H as [H | H]; apply H.
  - eapply nth_error_In; exact Hf.
  - apply in_map_iff; exists (p, j); auto.
Qed.

Section UnpackRuns.

Context {Real_t : Type}.
Variable PAD : Z.
Variables mp me : Z.
Variable fs : list Domain_member.

Lemma unpack_log_In (bs : list UnpackBlock) :
  forall c e, In e (unpack_log PAD mp me bs c) ->
    exists u buf req,
      In u bs /\ ub_guard u = true /\ e = Wait (ub_dir u) buf req.
Proof.
  induction bs as [|b bs IH]; intros c e; simpl; [tauto|].
  destruct (ub_guard b) eqn:G.
  - intros [<- | H].
    + eexists b, _, _; repeat split; auto.
    + destruct (IH _ _ H) as (b' & buf & req & Hin & Hg & He).
      exists b', buf, req; auto.
  - intro H; destruct (IH _ _ H) as (b' & buf & req & Hin & Hg & He).
    exists b', buf, req; auto.
Qed.

(** A cell outside the field list, or outside the region of every block
    that runs, keeps its value; the buffers are not written. *)
Lemma run_unpack_frame (f : Domain_member) (k : Z) (bs : list UnpackBlock) :
  forall c (w : World Real_t),
    ~ In f fs
    \/ (forall u, In u bs -> ub_guard u = true -> ~ In k (region (ub_shape u))) ->
    field (domain (run_unpack PAD unpack mp me fs bs c w)) f k
    = field (domain w) f k.
Proof.
  induction bs as [|b bs IH]; intros c w H; simpl; [reflexivity|].
  assert (H' : ~ In f fs
               \/ (forall u, In u bs -> ub_guard u = true ->
                             ~ In k (region (ub_shape u))))
    by (destruct H as [H | H]; [left; exact H|];
        right; intros u Hu; apply H; right; exact Hu).
  destruct (ub_guard b) eqn:G; rewrite IH by exact H'; [|reflexivity].
  unfold wait_unpack; simpl; apply unpack_miss.
  destruct H as [H | H]; [left; exact H|].
  right; apply H; [left; reflexivity | exact G].
Qed.

Lemma run_unpack_buffers unp (bs : list UnpackBlock) :
  forall c (w : World Real_t),
    commDataRecv (domain (run_unpack PAD unp mp me fs bs c w))
    = commDataRecv (domain w)
    /\ commDataSend (domain (run_unpack PAD unp mp me fs bs c w))
       = commDataSend (domain w).
Proof.
  induction bs as [|b bs IH]; intros c w; simpl; [split; reflexivity|].
  destruct (ub_guard b); [|apply IH].
  destruct (IH (bump (ub_class b) c) (wait_unpack PAD unp mp me fs b c w))
    as [E1 E2]; rewrite E1, E2; split; reflexivity.
Qed.

End UnpackRuns.

(** The guard of a block of [CommSyncPosVel] names [doRecv] exactly when its
    direction leads to a lower rank. *)
Lemma CommSyncPosVel_guard (fl : Flags) (dx dy dz : Z) (doRecv : bool) :
  Forall (fun u => is_neighbour (ub_dir u) = true
                   /\ ub_guard u = flags_active fl (ub_dir u)
                                   && (doRecv || negb (to_lower (ub_dir u))))
         (CommSyncPosVel_blocks fl dx dy dz doRecv).
Proof.
  unfold CommSyncPosVel_blocks.
  destruct fl as [[] [] [] [] [] []], doRecv; simpl;
    repeat (constructor; [split; reflexivity|]); constructor.
Qed.

(** C10 (amended). [CommSyncPosVel] fixes [doRecv] to [false], so no branch
    guarded by [doRecv] runs: every wait it issues belongs to the block of an
    active direction that leads to a higher rank.  The only field data it
    modifies are the six fields x, y, z, xd, yd, zd at the indices of the
    regions of these blocks; every other cell, and both buffers, are left
    unchanged. *)
Theorem CommSyncPosVel_writes_unmasked_regions_only {Real_t : Type} (PAD : Z)
    (myRank : Z) (w : World Real_t) :
  let d := domain w in
  let after := domain (CommSyncPosVel PAD myRank w) in
  let blocks :=
    CommSyncPosVel_blocks (boundary d) (sizeX d + 1) (sizeY d + 1)
      (sizeZ d + 1) false in
  Forall (fun u => ub_guard u = true ->
                   to_lower (ub_dir u) = false
                   /\ flags_active (boundary d) (ub_dir u) = true) blocks
  /\ Forall (fun e => exists u buf req,
                        In u blocks /\ ub_guard u = true
                        /\ e = Wait (ub_dir u) buf req)
            (issued w (CommSyncPosVel PAD myRank w))
  /\ (forall f k,
        ~ In f PosVel_fields
        \/ (forall u, In u blocks -> ub_guard u = true ->
                      ~ In k (region (ub_shape u))) ->
        field after f k = field d f k)
  /\ commDataRecv after = commDataRecv d
  /\ commDataSend after = commDataSend d.
Proof.
  intros d after blocks; subst d after blocks.
  split; [|split; [|split]].
  - pose proof (CommSyncPosVel_guard (boundary (domain w))
                  (sizeX (domain w) + 1) (sizeY (domain w) + 1)
                  (sizeZ (domain w) + 1) false) as G.
    apply Forall_forall; intros u Hu Hg; rewrite Forall_forall in G.
    destruct (G u Hu) as (_ & E); rewrite Hg in E.
    symmetry in E; apply andb_true_iff in E; destruct E as [E1 E2].
    simpl in E2; apply negb_true_iff in E2; auto.
  - rewrite CommSyncPosVel_issued.
    destruct (numRanks (domain w) =? 1); [constructor|].
    apply Forall_forall; intros e He; apply unpack_log_In in He; exact He.
  - intros f k H; unfold CommSyncPosVel.
    destruct (numRanks (domain w) =? 1); [reflexivity|].
    apply run_unpack_frame; exact H.
  - unfold CommSyncPosVel.
    destruct (numRanks (domain w) =? 1); [split; reflexivity|].
    apply run_unpack_buffers.
Qed.

Lemma CommSyncPosVel_writes_unmasked_regions_only_witness :
  let d := domain centre_of_27 in
  let after := domain (CommSyncPosVel 16 13 centre_of_27) in
  (forall u,
      In u (CommSyncPosVel_blocks (boundary d) (sizeX d + 1) (sizeY d + 1)
              (sizeZ d + 1) false) ->
      ub_guard u = true -> ~ In 0 (region (ub_shape u)))
  /\ field after Domain_x 0 = field d Domain_x 0
  /\ field after Domain_x 7 = 1.
Proof.
  intros d after.
  assert (H : forall u,
             In u (CommSyncPosVel_blocks (boundary d) (sizeX d + 1)
                     (sizeY d + 1) (sizeZ d + 1) false) ->
             ub_guard u = true -> ~ In 0 (region (ub_shape u))).
  { intros u Hu Hg Hk; vm_compute in Hu.
    repeat (destruct Hu as [<- | Hu];
            [first [discriminate Hg
                   | vm_compute in Hk; intuition discriminate]|]).
    exact Hu. }
  split; [exact H|]; split.
  - exact (proj1 (proj2 (proj2 (CommSyncPosVel_writes_unmasked_regions_only
                                  16 13 centre_of_27)))
             Domain_x 0 (or_intror H)).
  - reflexivity.
Defined.

(** C10 as stated fails: in the middle of a 3x3x3 grid the node with index 2
    lies on the face toward the lower plane, whose branch is guarded by
    [doRecv], and on the face toward the higher row, whose message
    overwrites it. *)
Lemma masked_region_is_overwritten :
  ~ masked_regions_unchanged (domain centre_of_27)
      (domain (CommSyncPosVel 16 13 centre_of_27)).
Proof.
  intro H.
  specialize (H (mkUnpackBlock (mkDir Null Null Minus) false Plane
                   (Run1 (2 * 2) (fun i => i)))
                Domain_x 2).
  assert (E : field (domain (CommSyncPosVel 16 13 centre_of_27)) Domain_x 2
              = field (domain centre_of_27) Domain_x 2).
  { apply H; [left; reflexivity | reflexivity|].
    right; right; left; reflexivity. }
  vm_compute in E; discriminate E.
Qed.

(** ** The ghost strip of CommMonoQ *)

Lemma ghost_total_nonneg (bs : list MonoBlock) :
  Forall (fun b => 0 <= mb_opCount b) bs -> 0 <= ghost_total bs.
Proof.
  induction bs as [|b bs IH]; intro H; [simpl; lia|].
  inversion H as [|? ? Hb H']; subst; specialize (IH H').
  unfold ghost_total in *; cbn [fold_right]; destruct (mb_guard b); lia.
Qed.

Section Mono.

Context {Real_t : Type}.
Variable mp : Z.
Variable buf : Z -> Real_t.

Lemma mono_unpack_offsets (n : Z) (adv : bool) (fs : list Domain_member) :
  forall fi srcAddr fo (fld : Domain_member -> Z -> Real_t) j,
    fst (mono_unpack fs fi n adv buf srcAddr fo fld) j
    = if adv && (fi <=? j) && (j <? fi + Z.of_nat (length fs))
      then fo j + n else fo j.
Proof.
  induction fs as [|f0 fs IH]; intros fi srcAddr fo fld j.
  - simpl; replace (j <? fi + 0) with (j <? fi) by (f_equal; lia).
    destruct adv; simpl; [|reflexivity].
    destruct (Z.leb_spec fi j), (Z.ltb_spec j fi); simpl; try reflexivity; lia.
  - cbn [mono_unpack length]; rewrite IH.
    destruct adv; cbn [andb]; [|reflexivity].
    destruct (Z.leb_spec (fi + 1) j), (Z.leb_spec fi j),
      (Z.ltb_spec j (fi + 1 + Z.of_nat (length fs))),
      (Z.ltb_spec j (fi + Z.of_nat (S (length fs)))); cbn [andb]; try lia;
      unfold upd;
      destruct (Z.eqb_spec j fi); try reflexivity; try lia.
    subst; reflexivity.
Qed.

(** A cell no field loop of the block addresses keeps its value. *)
Lemma mono_unpack_frame (n : Z) (adv : bool) (g : Domain_member) (k : Z)
    (fs : list Domain_member) :
  forall fi srcAddr fo (fld : Domain_member -> Z -> Real_t),
    (forall m i, nth_error fs m = Some g -> 0 <= i < n ->
                 fo (fi + Z.of_nat m) + i <> k) ->
    snd (mono_unpack fs fi n adv buf srcAddr fo fld) g k = fld g k.
Proof.
  induction fs as [|f0 fs IH]; intros fi srcAddr fo fld H; [reflexivity|].
  cbn [mono_unpack]; rewrite IH.
  - apply stores_settle; [|right; reflexivity].
    intros p Hp ->; exfalso.
    apply cells_Run1 in Hp; destruct Hp as [Hp E].
    apply (H 0%nat p); [reflexivity | exact Hp|].
    replace (fi + Z.of_nat 0) with fi by lia; congruence.
  - intros m i Hm Hi.
    replace (fi + 1 + Z.of_nat m) with (fi + Z.of_nat (S m)) by lia.
    specialize (H (S m) i Hm Hi).
    destruct adv; [|exact H].
    rewrite upd_other by lia; exact H.
Qed.

(** The loop of the field at place [m] copies its segment of the message to
    the run that starts at the field's offset. *)
Lemma mono_unpack_content (n : Z) (adv : bool) (fs : list Domain_member) :
  forall fi srcAddr fo (fld : Domain_member -> Z -> Real_t) m g i,
    NoDup fs -> nth_error fs m = Some g -> 0 <= i < n ->
    snd (mono_unpack fs fi n adv buf srcAddr fo fld) g
        (fo (fi + Z.of_nat m) + i)
    = buf (srcAddr + Z.of_nat m * n + i).
Proof.
  induction fs as [|f0 fs IH]; intros fi srcAddr fo fld m g i Hnd Hm Hi.
  - destruct m; discriminate.
  - inversion Hnd as [|? ? Hn Hnd']; subst.
    destruct m as [|m]; cbn [mono_unpack nth_error] in Hm |- *.
    + inversion Hm; subst f0.
      rewrite mono_unpack_frame
        by (intros m' i' Hm'; exfalso; apply Hn; eapply nth_error_In; exact Hm').
      replace (fi + Z.of_nat 0) with fi by lia.
      replace (srcAddr + Z.of_nat 0 * n + i) with (srcAddr + i) by lia.
      apply stores_settle.
      * intros p Hp _; apply cells_Run1 in Hp; destruct Hp as [_ E].
        f_equal; lia.
      * left; split; [reflexivity|].
        apply in_map_iff; exists (i, fo fi + i); split; [reflexivity|].
        apply cells_Run1; auto.
    + replace (fo (fi + Z.of_nat (S m)))
        with ((if adv then upd fo fi (fo fi + n) else fo)
                (fi + 1 + Z.of_nat m)).
      * rewrite (IH _ _ _ _ m g i Hnd' Hm Hi); f_equal; lia.
      * replace (fi + 1 + Z.of_nat m) with (fi + Z.of_nat (S m)) by lia.
        destruct adv; [apply upd_other; lia | reflexivity].
Qed.

Variable fs : list Domain_member.
Hypothesis fs_NoDup : NoDup fs.

(** The run of the face blocks, from the moment every [fieldOffset[fi]]
    equals [start]. *)
Lemma run_mono_strip (bs : list MonoBlock) :
  forall pm fo (w : World Real_t) start,
    commDataRecv (domain w) = buf ->
    bs = [] \/ (forall m, (m < length fs)%nat -> fo (Z.of_nat m) = start) ->
    Forall (fun b => 0 <= mb_opCount b) bs ->
    advancing bs ->
    let after := domain (run_mono mp fs bs pm fo w) in
    (forall g k,
        k < start \/ start + ghost_total bs <= k \/ ~ In g fs ->
        field after g k = field (domain w) g k)
    /\ (forall b pm' off m g i,
          In (b, pm', off) (ghost_runs bs pm start) ->
          nth_error fs m = Some g -> 0 <= i < mb_opCount b ->
          start <= off
          /\ field after g (off + i)
             = buf (pm' * mp + Z.of_nat m * mb_opCount b + i)).
Proof.
  induction bs as [|b bs IH]; intros pm fo w start Hbuf Hfo Hpos Hadv after.
  - split; [reflexivity | intros b pm' off m g i []].
  - destruct Hfo as [Hfo | Hfo]; [discriminate|].
    apply Forall_cons_iff in Hpos; destruct Hpos as [Hb Hpos'].
    destruct Hadv as [Hlast Hadv].
    subst after; cbn [run_mono ghost_runs ghost_total fold_right].
    fold (ghost_total bs).
    destruct (mb_guard b) eqn:G; [|apply IH; auto].
    set (r := wait_mono mp fs b pm fo w).
    assert (Hbuf1 : commDataRecv (domain (snd r)) = buf) by exact Hbuf.
    assert (Hfo1 : bs = []
                   \/ (forall m, (m < length fs)%nat ->
                                 fst r (Z.of_nat m) = start + mb_opCount b)).
    { destruct Hlast as [-> | Ha]; [left; reflexivity | right].
      intros m Hm; unfold r, wait_mono; cbn [fst]; rewrite Hbuf.
      rewrite mono_unpack_offsets, Ha.
      replace (0 <=? Z.of_nat m) with true by (symmetry; apply Z.leb_le; lia).
      replace (Z.of_nat m <? 0 + Z.of_nat (length fs)) with true
        by (symmetry; apply Z.ltb_lt; lia).
      cbn [andb]; rewrite Hfo by exact Hm; reflexivity. }
    destruct (IH (pm + 1) (fst r) (snd r) (start + mb_opCount b)
                Hbuf1 Hfo1 Hpos' Hadv) as [F C].
    assert (Fb : forall g k,
               k < start \/ start + mb_opCount b <= k \/ ~ In g fs ->
               field (domain (snd r)) g k = field (domain w) g k).
    { intros g k H; unfold r, wait_mono; cbn [snd domain field set_field].
      rewrite Hbuf; apply mono_unpack_frame; intros m i Hm Hi.
      assert (Hlt : (m < length fs)%nat)
        by (apply nth_error_Some; rewrite Hm; discriminate).
      replace (0 + Z.of_nat m) with (Z.of_nat m) by lia.
      rewrite Hfo by exact Hlt.
      destruct H as [H | [H | H]]; [lia | lia|].
      exfalso; apply H; eapply nth_error_In; exact Hm. }
    pose proof (ghost_total_nonneg bs Hpos') as Ht.
    split.
    + intros g k H.
      rewrite F by (destruct H as [H | [H | H]];
                    [left; lia | right; left; lia | right; right; exact H]).
      apply Fb; destruct H as [H | [H | H]];
        [left; lia | right; left; lia | right; right; exact H].
    + intros b' pm' off m g i [E | Hin] Hm Hi.
      * inversion E; subst b' pm' off; split; [lia|].
        rewrite F by (left; lia).
        unfold r, wait_mono; cbn [snd domain field set_field].
        assert (Hlt : (m < length fs)%nat)
          by (apply nth_error_Some; rewrite Hm; discriminate).
        rewrite <- (Hfo m Hlt).
        replace (fo (Z.of_nat m)) with (fo (0 + Z.of_nat m)) by (f_equal; lia).
        rewrite Hbuf.
        apply mono_unpack_content; assumption.
      * destruct (C b' pm' off m g i Hin Hm Hi) as [C1 C2].
        split; [lia | exact C2].
Qed.

End Mono.

Lemma mono_log_In (mp : Z) (bs : list MonoBlock) :
  forall pm e, In e (mono_log mp bs pm) ->
    exists b buf req,
      In b bs /\ mb_guard b = true /\ e = Wait (mb_dir b) buf req.
Proof.
  induction bs as [|b bs IH]; intros pm e; simpl; [tauto|].
  destruct (mb_guard b) eqn:G.
  - intros [<- | H].
    + eexists b, _, _; repeat split; auto.
    + destruct (IH _ _ H) as (b' & buf & req & Hin & Hg & He).
      exists b', buf, req; auto.
  - intro H; destruct (IH _ _ H) as (b' & buf & req & Hin & Hg & He).
    exists b', buf, req; auto.
Qed.

Lemma CommMonoQ_faces (fl : Flags) (dx dy dz : Z) :
  Forall (fun b => is_face (mb_dir b) = true) (CommMonoQ_blocks fl dx dy dz).
Proof. repeat constructor. Qed.

Lemma CommMonoQ_counts (fl : Flags) (dx dy dz : Z) :
  0 <= dx -> 0 <= dy -> 0 <= dz ->
  Forall (fun b => 0 <= mb_opCount b) (CommMonoQ_blocks fl dx dy dz).
Proof.
  intros; unfold CommMonoQ_blocks; repeat (constructor; [simpl; nia|]);
    constructor.
Qed.

Lemma CommMonoQ_advancing (fl : Flags) (dx dy dz : Z) :
  advancing (CommMonoQ_blocks fl dx dy dz).
Proof. simpl; repeat split; auto. Qed.

Lemma MonoQ_fields_NoDup : NoDup (fields_of 3 MonoQ_fields).
Proof. repeat constructor; simpl; intuition discriminate. Qed.

(** C8. [CommMonoQ] waits for face messages only, and every index it writes
    lies at or beyond [numElem()]: with [fieldOffset] starting at
    [numElem()] and moving past each face consumed, the faces are stored one
    after the other in the strip that follows the domain's own elements,
    each field receiving its segment of each message; nothing below
    [numElem()], nothing beyond the strip and no other field is written. *)
Theorem CommMonoQ_fills_the_ghost_strip {Real_t : Type} (myRank : Z)
    (w : World Real_t) :
  0 <= sizeX (domain w) -> 0 <= sizeY (domain w) -> 0 <= sizeZ (domain w) ->
  let d := domain w in
  let after := domain (CommMonoQ myRank w) in
  let blocks := CommMonoQ_blocks (boundary d) (sizeX d) (sizeY d) (sizeZ d) in
  Forall (fun e => exists dir buf req,
                     e = Wait dir buf req /\ is_face dir = true)
         (issued w (CommMonoQ myRank w))
  /\ (forall f k,
        k < numElem d \/ numElem d + ghost_total blocks <= k
        \/ ~ In f MonoQ_fields ->
        field after f k = field d f k)
  /\ (numRanks d <> 1 ->
      forall b pm off m f i,
        In (b, pm, off) (ghost_runs blocks 0 (numElem d)) ->
        nth_error MonoQ_fields m = Some f -> 0 <= i < mb_opCount b ->
        numElem d <= off
        /\ field after f (off + i)
           = commDataRecv d (pm * (3 * maxPlaneSize d)
                             + Z.of_nat m * mb_opCount b + i)).
Proof.
  intros Hx Hy Hz d after blocks.
  pose proof (run_mono_strip (3 * maxPlaneSize d) (commDataRecv d)
                (fields_of 3 MonoQ_fields) MonoQ_fields_NoDup blocks 0
                (fun _ => numElem d) w (numElem d) eq_refl
                (or_intror (fun m _ => eq_refl))
                (CommMonoQ_counts _ _ _ _ Hx Hy Hz)
                (CommMonoQ_advancing _ _ _ _)) as [F C].
  split; [|split].
  - rewrite CommMonoQ_issued.
    destruct (numRanks (domain w) =? 1); [constructor|].
    apply Forall_forall; intros e He; apply mono_log_In in He.
    destruct He as (b & buf & req & Hin & _ & ->).
    pose proof (CommMonoQ_faces (boundary (domain w)) (sizeX (domain w))
                  (sizeY (domain w)) (sizeZ (domain w))) as Hf.
    rewrite Forall_forall in Hf; exists (mb_dir b), buf, req; auto.
  - intros f k H; subst after; unfold CommMonoQ.
    destruct (numRanks (domain w) =? 1); [reflexivity|].
    apply F; exact H.
  - intros Hn b pm off m f i Hin Hm Hi; subst after; unfold CommMonoQ.
    destruct (Z.eqb_spec (numRanks (domain w)) 1) as [E | _]; [contradiction|].
    apply C; assumption.
Qed.

Lemma CommMonoQ_fills_the_ghost_strip_witness :
  let d := domain centre_of_27 in
  let after := domain (CommMonoQ 13 centre_of_27) in
  let blocks := CommMonoQ_blocks (boundary d) (sizeX d) (sizeY d) (sizeZ d) in
  let b := mkMonoBlock (mkDir Null Minus Null) true (1 * 1) true in
  0 <= sizeX d /\ numRanks d <> 1
  /\ In (b, 2, 3) (ghost_runs blocks 0 (numElem d))
  /\ numElem d <= 3
  /\ field after Domain_delv_eta (3 + 0) = commDataRecv d (2 * (3 * 4) + 1 * 1 + 0)
  /\ field after Domain_delv_eta 0 = field d Domain_delv_eta 0.
Proof.
  intros d after blocks b.
  assert (Hn : numRanks d <> 1) by (simpl; lia).
  assert (Hin : In (b, 2, 3) (ghost_runs blocks 0 (numElem d)))
    by (right; right; left; reflexivity).
  pose proof (CommMonoQ_fills_the_ghost_strip 13 centre_of_27
                ltac:(simpl; lia) ltac:(simpl; lia) ltac:(simpl; lia))
    as (_ & F & C).
  split; [simpl; lia|]; split; [exact Hn|]; split; [exact Hin|].
  destruct (C Hn b 2 3 1%nat Domain_delv_eta 0 Hin eq_refl ltac:(simpl; lia))
    as [C1 C2].
  split; [exact C1|]; split; [exact C2|].
  apply F; left; simpl; lia.
Defined.

(** ** Sample runs *)

(** Rank 1 of a 2x2x2 grid (row 0, column 1, plane 0), position and velocity
    exchange with both mask flags false: six receives, all from higher
    ranks, and one send, to rank 0. *)
Example CommRecv_at_rank_1 :
  issued east_of_origin (CommRecv 16 1 7 6 2 2 2 false false east_of_origin)
  = [ Irecv (mkDir Null Null Plus) 0 24 5 7 0;
      Irecv (mkDir Null Plus Null) 24 24 3 7 1;
      Irecv (mkDir Null Plus Plus) 48 12 7 7 2;
      Irecv (mkDir Minus Plus Null) 60 12 2 7 3;
      Irecv (mkDir Minus Null Plus) 72 12 4 7 4;
      Irecv (mkDir Minus Plus Plus) 84 6 6 7 5 ].
Proof. reflexivity. Qed.

Example CommSend_at_rank_1 :
  issued east_of_origin
    (CommSend 16 1 7 6 PosVel_fields 2 2 2 false false east_of_origin)
  = [ Isend (mkDir Minus Null Null) 0 24 0 7 0; Waitall 26 ].
Proof. reflexivity. Qed.

(** The same rank consumes its six receives in the order and at the offsets
    at which it posted them. *)
Example CommSyncPosVel_at_rank_1 :
  issued east_of_origin (CommSyncPosVel 16 1 east_of_origin)
  = [ Wait (mkDir Null Null Plus) 0 0;
      Wait (mkDir Null Plus Null) 24 1;
      Wait (mkDir Null Plus Plus) 48 2;
      Wait (mkDir Minus Plus Null) 60 3;
      Wait (mkDir Minus Null Plus) 72 4;
      Wait (mkDir Minus Plus Plus) 84 5 ].
Proof. reflexivity. Qed.

(** In the middle of a 3x3x3 grid [CommSyncPosVel] overwrites every node of
    the 2x2x2 mesh but node 0, the only one that lies on no face toward a
    higher rank. *)
Example CommSyncPosVel_in_the_middle :
  map (field (domain (CommSyncPosVel 16 13 centre_of_27)) Domain_x) (upto 8)
  = [0; 1; 1; 1; 1; 1; 1; 1].
Proof. reflexivity. Qed.

(** There [CommMonoQ] copies one element per face and field into the cells
    1..6 that follow the single element of the domain. *)
Example CommMonoQ_in_the_middle :
  map (field (domain (CommMonoQ 13 centre_of_27)) Domain_delv_xi) (upto 8)
  = [0; 1; 1; 1; 1; 1; 1; 0].
Proof. reflexivity. Qed.

(** Two passes of [CommSBN] over the same buffer add every message twice:
    node 0 lies in the regions of seven blocks (three faces, three edges,
    one corner), node 7 in those of seven others. *)
Example CommSBN_twice_in_the_middle :
  map (field (domain (CommSBN Z.add 16 13 1 [Domain_x]
                        (CommSBN Z.add 16 13 1 [Domain_x] centre_of_27)))
         Domain_x) (upto 8)
  = [14; 14; 14; 14; 14; 14; 14; 14].
Proof. reflexivity. Qed.

(** * Further properties of the routines *)

(** ** Sends of CommSend *)

Lemma sends_issued_send_log (PAD mp me tag : Z) (dir : Direction)
    (bs : list SendBlock) :
  forall c,
    sends_issued dir (send_log PAD mp me tag bs c ++ [Waitall 26])
    = length (filter (fun b => sb_guard b && Direction_eqb (sb_dir b) dir) bs).
Proof.
  unfold sends_issued.
  induction bs as [|b bs IH]; intro c; simpl; [reflexivity|].
  destruct (sb_guard b); simpl; [|apply IH].
  unfold labelled at 1; simpl.
  destruct (Direction_eqb (sb_dir b) dir); simpl; rewrite IH; reflexivity.
Qed.

Lemma send_log_all_Isend (PAD mp me tag : Z) (bs : list SendBlock) :
  forall c, Forall (fun e => is_Isend e = true) (send_log PAD mp me tag bs c).
Proof.
  induction bs as [|b bs IH]; intro c; simpl; [constructor|].
  destruct (sb_guard b); [constructor; [reflexivity|]|]; apply IH.
Qed.

Lemma CommSend_guard_count (fl : Flags) (tp myRank xferFields dx dy dz : Z)
    (dir : Direction) :
  length (filter (fun b => sb_guard b && Direction_eqb (sb_dir b) dir)
            (CommSend_blocks fl tp myRank xferFields dx dy dz true false))
  = if is_neighbour dir && flags_active fl dir then 1%nat else 0%nat.
Proof.
  destruct fl as [[] [] [] [] [] []], dir as [[] [] []]; reflexivity.
Qed.

(** X1. On a grid of more than one rank, [CommSend] with [doSend = true] and
    [planeOnly = false] issues exactly one send for each active direction,
    none for any other direction, and ends with the one [MPI_Waitall] over
    the 26 send requests. *)
Theorem CommSend_issues_one_send_per_active_direction {Real_t : Type}
    (PAD : Z) (w : World Real_t) (myRank msgType xferFields : Z)
    (fieldData : list Domain_member) (dx dy dz : Z) :
  well_formed (domain w) -> numRanks (domain w) <> 1 ->
  let calls :=
    issued w (CommSend PAD myRank msgType xferFields fieldData dx dy dz
                true false w) in
  (exists sends, calls = sends ++ [Waitall 26]
                 /\ Forall (fun e => is_Isend e = true) sends)
  /\ forall dir : Direction,
       sends_issued dir calls
       = (if is_neighbour dir && active (domain w) dir then 1%nat else 0%nat).
Proof.
  intros (Htp & Hn & Hg) H1 calls; subst calls; rewrite CommSend_issued.
  apply Z.eqb_neq in H1; rewrite H1; split.
  - eexists; split; [reflexivity | apply send_log_all_Isend].
  - intro dir.
    rewrite sends_issued_send_log, CommSend_guard_count.
    rewrite (active_boundary _ _ Hg); reflexivity.
Qed.

Lemma CommSend_issues_one_send_per_active_direction_witness :
  well_formed (domain origin_of_8) /\ numRanks (domain origin_of_8) <> 1
  /\ let calls :=
       issued origin_of_8
         (CommSend 16 0 7 6 PosVel_fields 2 2 2 true false origin_of_8) in
     (exists sends, calls = sends ++ [Waitall 26]
                    /\ Forall (fun e => is_Isend e = true) sends)
     /\ forall dir : Direction,
          sends_issued dir calls
          = (if is_neighbour dir && active (domain origin_of_8) dir
             then 1%nat else 0%nat).
Proof.
  assert (H : well_formed (domain origin_of_8)) by grid_facts.
  assert (H1 : numRanks (domain origin_of_8) <> 1) by (simpl; lia).
  split; [exact H|]; split; [exact H1|].
  exact (CommSend_issues_one_send_per_active_direction
           16 origin_of_8 0 7 6 PosVel_fields 2 2 2 H H1).
Defined.

(** ** planeOnly *)

Lemma CommRecv_planeOnly_log (PAD mp me tag : Z) (fl : Flags)
    (tp myRank xferFields dx dy dz : Z) (doRecv : bool) :
  filter face_call
    (recv_log PAD mp me tag
       (CommRecv_blocks fl tp myRank xferFields dx dy dz doRecv false)
       (mkCounters 0 0 0))
  = recv_log PAD mp me tag
      (CommRecv_blocks fl tp myRank xferFields dx dy dz doRecv true)
      (mkCounters 0 0 0).
Proof. destruct fl as [[] [] [] [] [] []], doRecv; reflexivity. Qed.

Lemma CommSend_planeOnly_log (PAD mp me tag : Z) (fl : Flags)
    (tp myRank xferFields dx dy dz : Z) (doSend : bool) :
  filter face_call
    (send_log PAD mp me tag
       (CommSend_blocks fl tp myRank xferFields dx dy dz doSend false)
       (mkCounters 0 0 0) ++ [Waitall 26])
  = send_log PAD mp me tag
      (CommSend_blocks fl tp myRank xferFields dx dy dz doSend true)
      (mkCounters 0 0 0) ++ [Waitall 26].
Proof. destruct fl as [[] [] [] [] [] []], doSend; reflexivity. Qed.

(** X2. With [planeOnly = true], [CommRecv] and [CommSend] issue exactly the
    face calls of the run with [planeOnly = false], in the same order, at the
    same buffer offsets and with the same request indices, peers and counts;
    no edge or corner call is left. *)
Theorem planeOnly_keeps_the_face_calls {Real_t : Type} (PAD : Z)
    (w : World Real_t) (myRank msgType xferFields : Z)
    (fieldData : list Domain_member) (dx dy dz : Z) (flag : bool) :
  issued w (CommRecv PAD myRank msgType xferFields dx dy dz flag true w)
  = filter face_call
      (issued w (CommRecv PAD myRank msgType xferFields dx dy dz flag false w))
  /\ issued w (CommSend PAD myRank msgType xferFields fieldData dx dy dz
                 flag true w)
     = filter face_call
         (issued w (CommSend PAD myRank msgType xferFields fieldData dx dy dz
                      flag false w)).
Proof.
  rewrite !CommRecv_issued, !CommSend_issued.
  destruct (numRanks (domain w) =? 1); [split; reflexivity|].
  split; symmetry; [apply CommRecv_planeOnly_log | apply CommSend_planeOnly_log].
Qed.

(** ** Request indices *)

Lemma CommRecv_requests (PAD mp me tag : Z) (fl : Flags)
    (tp myRank xferFields dx dy dz : Z) (doRecv planeOnly : bool) :
  let l := recv_log PAD mp me tag
             (CommRecv_blocks fl tp myRank xferFields dx dy dz doRecv planeOnly)
             (mkCounters 0 0 0) in
  map call_req l = map Some (upto (Z.of_nat (length l)))
  /\ (length l <=? 26)%nat = true.
Proof.
  destruct fl as [[] [] [] [] [] []], doRecv, planeOnly; split; reflexivity.
Qed.

Lemma CommSend_requests (PAD mp me tag : Z) (fl : Flags)
    (tp myRank xferFields dx dy dz : Z) (doSend planeOnly : bool) :
  let l := send_log PAD mp me tag
             (CommSend_blocks fl tp myRank xferFields dx dy dz doSend planeOnly)
             (mkCounters 0 0 0) in
  map call_req l = map Some (upto (Z.of_nat (length l)))
  /\ (length l <=? 26)%nat = true.
Proof.
  destruct fl as [[] [] [] [] [] []], doSend, planeOnly; split; reflexivity.
Qed.

Lemma filter_all {A : Type} (f : A -> bool) (l : list A) :
  Forall (fun a => f a = true) l -> filter f l = l.
Proof.
  induction 1 as [|a l Ha _ IH]; simpl; [reflexivity|].
  rewrite Ha, IH; reflexivity.
Qed.

(** X3. Whatever the position and the flags, the receives of [CommRecv] and
    the sends of [CommSend] use the request indices 0, 1, 2, ... in the order
    in which they are issued, and there are at most 26 of them: every index
    lies inside the arrays [recvRequest[26]] and [sendRequest[26]]. *)
Theorem request_indices_are_consecutive {Real_t : Type} (PAD : Z)
    (w : World Real_t) (myRank msgType xferFields : Z)
    (fieldData : list Domain_member) (dx dy dz : Z) (flag planeOnly : bool) :
  let recvs :=
    issued w (CommRecv PAD myRank msgType xferFields dx dy dz flag planeOnly w) in
  let sends :=
    filter is_Isend
      (issued w (CommSend PAD myRank msgType xferFields fieldData dx dy dz
                   flag planeOnly w)) in
  map call_req recvs = map Some (upto (Z.of_nat (length recvs)))
  /\ (length recvs <= 26)%nat
  /\ map call_req sends = map Some (upto (Z.of_nat (length sends)))
  /\ (length sends <= 26)%nat.
Proof.
  intros recvs sends; subst recvs sends.
  rewrite CommRecv_issued, CommSend_issued.
  destruct (numRanks (domain w) =? 1).
  - simpl; repeat split; apply Nat.le_0_l.
  - rewrite filter_app.
    change (filter is_Isend [Waitall 26]) with (@nil Call); rewrite app_nil_r.
    rewrite (filter_all _ _ (send_log_all_Isend _ _ _ _ _ _)).
    destruct (CommRecv_requests PAD (xferFields * maxPlaneSize (domain w))
                (xferFields * maxEdgeSize (domain w)) msgType
                (boundary (domain w)) (tp (domain w)) myRank xferFields
                dx dy dz flag planeOnly) as [R1 R2].
    destruct (CommSend_requests PAD (xferFields * maxPlaneSize (domain w))
                (xferFields * maxEdgeSize (domain w)) msgType
                (boundary (domain w)) (tp (domain w)) myRank xferFields
                dx dy dz flag planeOnly) as [S1 S2].
    apply Nat.leb_le in R2, S2; auto.
Qed.

(** ** CommMonoQ after CommRecv *)

Lemma CommMonoQ_slots (PAD mp me tag : Z) (fl : Flags)
    (tp myRank dx dy dz dx' dy' dz' : Z) :
  map call_slot (mono_log mp (CommMonoQ_blocks fl dx' dy' dz') 0)
  = map call_slot
      (recv_log PAD mp me tag
         (CommRecv_blocks fl tp myRank 3 dx dy dz true true)
         (mkCounters 0 0 0)).
Proof. destruct fl as [[] [] [] [] [] []]; reflexivity. Qed.

(** X4. [CommMonoQ] waits for and reads its face messages at the buffer
    offsets and request indices at which [CommRecv] with three fields,
    [doRecv = true] and [planeOnly = true] posted them, in the same order. *)
Theorem CommMonoQ_uses_the_slots_of_the_face_receives {Real_t : Type}
    (PAD : Z) (w w' : World Real_t) (myRank msgType dx dy dz : Z) :
  same_layout (domain w) (domain w') ->
  map call_slot (issued w' (CommMonoQ myRank w'))
  = map call_slot
      (issued w (CommRecv PAD myRank msgType 3 dx dy dz true true w)).
Proof.
  intro H; pose proof (same_layout_boundary _ _ H) as Hb.
  destruct H as (Hn & Ht & _ & _ & _ & Hmp & Hme).
  rewrite CommMonoQ_issued, CommRecv_issued, Hn, Hb, Hmp.
  destruct (numRanks (domain w) =? 1); [reflexivity|].
  apply CommMonoQ_slots.
Qed.

Lemma CommMonoQ_uses_the_slots_of_the_face_receives_witness :
  same_layout (domain centre_of_27) (domain centre_of_27)
  /\ map call_slot (issued centre_of_27 (CommMonoQ 13 centre_of_27))
     = map call_slot
         (issued centre_of_27
            (CommRecv 16 13 7 3 1 1 1 true true centre_of_27)).
Proof.
  assert (H : same_layout (domain centre_of_27) (domain centre_of_27))
    by (repeat split).
  split; [exact H|].
  exact (CommMonoQ_uses_the_slots_of_the_face_receives
           16 centre_of_27 centre_of_27 13 7 1 1 1 H).
Defined.

(** ** The unmasked exchange *)

Section UnmaskedTransfer.

Variable PAD : Z.
Variables mpA meA mpB meB tag : Z.
Variables (fa fb : Flags) (tp rA rB xferFields dx dy dz : Z).
Variables (planeOnly : bool) (dir : Direction).
Hypothesis Hn : is_neighbour dir = true.
Hypothesis Hp : planeOnly = false \/ is_face dir = true.
Hypothesis Ha : flags_active fa dir = true.
Hypothesis Hb : flags_active fb (opposite dir) = true.
Hypothesis Hr : rB = neighbour_rank rA tp dir.

Lemma unmasked_transfer :
  transmits
    (send_log PAD mpA meA tag
       (CommSend_blocks fa tp rA xferFields dx dy dz true planeOnly)
       (mkCounters 0 0 0) ++ [Waitall 26])
    (recv_log PAD mpB meB tag
       (CommRecv_blocks fb tp rB xferFields dx dy dz true planeOnly)
       (mkCounters 0 0 0))
    dir rA rB.
Proof.
  destruct (CommSend_block_of fa tp rA xferFields dx dy dz true planeOnly
              dir Hn Hp) as (b & Hin & Hd).
  pose proof (CommSend_guard fa tp rA xferFields dx dy dz true planeOnly) as G.
  pose proof (CommSend_toRank fa tp rA xferFields dx dy dz true planeOnly) as F.
  pose proof (CommSend_count fa tp rA xferFields dx dy dz true planeOnly) as C.
  rewrite Forall_forall in G, F, C.
  destruct (G b Hin) as (_ & _ & Hg); rewrite Hd, Ha in Hg.
  destruct (send_log_block PAD mpA meA tag _ (mkCounters 0 0 0) b Hin Hg)
    as (sbuf & sreq & Hs).
  rewrite (F b Hin), (C b Hin), Hd, <- Hr in Hs.
  assert (Hn' : is_neighbour (opposite dir) = true)
    by (rewrite is_neighbour_opposite; exact Hn).
  assert (Hp' : planeOnly = false \/ is_face (opposite dir) = true)
    by (rewrite is_face_opposite; exact Hp).
  destruct (CommRecv_block_of fb tp rB xferFields dx dy dz true planeOnly
              (opposite dir) Hn' Hp') as (b' & Hin' & Hd').
  pose proof (CommRecv_guard fb tp rB xferFields dx dy dz true planeOnly) as G'.
  pose proof (CommRecv_fromRank fb tp rB xferFields dx dy dz true planeOnly)
    as F'.
  pose proof (CommRecv_count fb tp rB xferFields dx dy dz true planeOnly) as C'.
  rewrite Forall_forall in G', F', C'.
  destruct (G' b' Hin') as (_ & _ & Hg'); rewrite Hd', Hb in Hg'.
  destruct (recv_log_block PAD mpB meB tag _ (mkCounters 0 0 0) b' Hin' Hg')
    as (rbuf & rreq & Hrc).
  assert (Eo : neighbour_rank rB tp (opposite dir) = rA)
    by (rewrite Hr; apply neighbour_rank_opposite).
  rewrite (F' b' Hin'), (C' b' Hin'), Hd', region_size_opposite, Eo in Hrc.
  exists sbuf, rbuf, (xferFields * region_size dx dy dz dir),
    (xferFields * region_size dx dy dz dir), tag, sreq, rreq.
  split; [apply in_or_app; left; exact Hs|]; split; [exact Hrc | reflexivity].
Qed.

End UnmaskedTransfer.

(** X5. With [doSend = true] and [doRecv = true] (the exchange that
    [CommSBN] and [CommMonoQ] consume), two adjacent domains transmit in both
    directions: each one sends along the direction of the other, and the
    other has posted the receive that matches it in source, tag and element
    count (all 26 directions, or the faces when [planeOnly] holds). *)
Theorem unmasked_exchange_transmits_both_ways {Real_t : Type} (PAD : Z)
    (A B : World Real_t) (rankA rankB msgType xferFields dx dy dz : Z)
    (fieldData : list Domain_member) (planeOnly : bool) (dir : Direction) :
  well_formed (domain A) -> well_formed (domain B) ->
  adjacent (domain A) (domain B) dir ->
  is_neighbour dir = true ->
  rankB = neighbour_rank rankA (tp (domain A)) dir ->
  planeOnly = false \/ is_face dir = true ->
  let sends := fun (W : World Real_t) rank =>
    issued W (CommSend PAD rank msgType xferFields fieldData dx dy dz
                true planeOnly W) in
  let recvs := fun (W : World Real_t) rank =>
    issued W (CommRecv PAD rank msgType xferFields dx dy dz
                true planeOnly W) in
  transmits (sends A rankA) (recvs B rankB) dir rankA rankB
  /\ transmits (sends B rankB) (recvs A rankA) (opposite dir) rankB rankA.
Proof.
  intros HA HB Hadj Hn Hr Hp sends recvs; subst sends recvs; cbv beta.
  destruct (adjacent_has_ranks _ _ _ HA (proj2 (proj2 HB)) Hadj Hn)
    as (Htp & HnA & HnB).
  destruct (adjacent_active _ _ _ (proj2 (proj2 HA)) (proj2 (proj2 HB)) Hadj)
    as (Ha & Hb).
  assert (Ht : tp (domain B) = tp (domain A)) by apply Hadj.
  rewrite !CommSend_issued, !CommRecv_issued, HnA, HnB, Ht.
  split.
  - apply unmasked_transfer; assumption.
  - apply unmasked_transfer.
    + rewrite is_neighbour_opposite; exact Hn.
    + rewrite is_face_opposite; exact Hp.
    + exact Hb.
    + rewrite opposite_involutive; exact Ha.
    + rewrite Hr, neighbour_rank_opposite; reflexivity.
Qed.

Lemma unmasked_exchange_transmits_both_ways_witness :
  let dir := mkDir Null Null Plus in
  let sends := fun (W : World Z) rank =>
    issued W (CommSend 16 rank 9 3 MonoQ_fields 1 1 1 true true W) in
  let recvs := fun (W : World Z) rank =>
    issued W (CommRecv 16 rank 9 3 1 1 1 true true W) in
  well_formed (domain centre_of_27) /\ well_formed (domain above_centre)
  /\ adjacent (domain centre_of_27) (domain above_centre) dir
  /\ transmits (sends centre_of_27 13) (recvs above_centre 22) dir 13 22
  /\ transmits (sends above_centre 22) (recvs centre_of_27 13) (opposite dir)
       22 13.
Proof.
  assert (HA : well_formed (domain centre_of_27)) by grid_facts.
  assert (HB : well_formed (domain above_centre)) by grid_facts.
  assert (Hadj : adjacent (domain centre_of_27) (domain above_centre)
                   (mkDir Null Null Plus)) by grid_facts.
  split; [exact HA|]; split; [exact HB|]; split; [exact Hadj|].
  exact (unmasked_exchange_transmits_both_ways 16 centre_of_27 above_centre
           13 22 9 3 1 1 1 MonoQ_fields true (mkDir Null Null Plus)
           HA HB Hadj eq_refl eq_refl (or_intror eq_refl)).
Defined.

(** ** The request arrays *)

Lemma fold_upd_const {V : Type} (v : V) (l : list Z) :
  forall (r : Z -> V) (j : Z),
    fold_left (fun r i => upd r i v) l r j
    = if existsb (Z.eqb j) l then v else r j.
Proof.
  induction l as [|i l IH]; intros r j; simpl; [reflexivity|].
  rewrite IH; unfold upd.
  destruct (j =? i); simpl; destruct (existsb (Z.eqb j) l); reflexivity.
Qed.

Lemma clear_requests_spec (r : Z -> MPI_Request) (j : Z) :
  clear_requests r j
  = if (0 <=? j) && (j <? 26) then MPI_REQUEST_NULL else r j.
Proof.
  unfold clear_requests; rewrite fold_upd_const.
  destruct (existsb (Z.eqb j) (upto 26)) eqn:E.
  - apply existsb_exists in E; destruct E as (i & Hi & E).
    apply Z.eqb_eq in E; subst i; apply in_upto in Hi.
    replace (0 <=? j) with true by (symmetry; apply Z.leb_le; lia).
    replace (j <? 26) with true by (symmetry; apply Z.ltb_lt; lia).
    reflexivity.
  - destruct (Z.leb_spec 0 j), (Z.ltb_spec j 26); simpl; try reflexivity.
    assert (E' : existsb (Z.eqb j) (upto 26) = true)
      by (apply existsb_exists; exists j; split;
          [apply in_upto; lia | apply Z.eqb_refl]).
    rewrite E in E'; discriminate.
Qed.

Lemma uses_request_slots (j : Z) (l l' : list Call) :
  map call_slot l = map call_slot l' -> uses_request j l = uses_request j l'.
Proof.
  revert l'; induction l as [|e l IH]; intros [|e' l'] H; simpl in H;
    try discriminate; [reflexivity|].
  inversion H as [[He Hl]]; simpl; rewrite (IH _ Hl); f_equal.
  destruct e, e'; simpl in He |- *; inversion He; reflexivity.
Qed.

Lemma uses_request_consecutive (j n : Z) (l : list Call) :
  map call_req l = map Some (upto n) ->
  uses_request j l = (0 <=? j) && (j <? n).
Proof.
  intro H.
  assert (E : uses_request j l
              = existsb (fun o => match o with
                                  | Some r => r =? j
                                  | None => false
                                  end) (map call_req l)).
  { unfold uses_request; clear H; induction l as [|e l IH]; simpl;
      [reflexivity | rewrite IH; reflexivity]. }
  rewrite E, H; clear E H.
  apply eq_true_iff_eq; rewrite existsb_exists, andb_true_iff.
  rewrite Z.leb_le, Z.ltb_lt; split.
  - intros (o & Ho & Hj); apply in_map_iff in Ho; destruct Ho as (i & <- & Hi).
    apply Z.eqb_eq in Hj; subst i; apply in_upto; exact Hi.
  - intro Hj; exists (Some j); split; [|apply Z.eqb_refl].
    apply in_map; apply in_upto; lia.
Qed.

Section RequestArrays.

Context {Real_t : Type}.
Variable PAD : Z.
Variables mp me tag : Z.

(** [run_recv] marks the requests it names and writes nothing else. *)
Lemma run_recv_domain (bs : list RecvBlock) :
  forall c (w : World Real_t),
    let d := domain w in
    let after := domain (run_recv PAD mp me tag bs c w) in
    (forall j, recvRequest after j
               = if uses_request j (recv_log PAD mp me tag bs c)
                 then MPI_REQUEST_ACTIVE else recvRequest d j)
    /\ field after = field d /\ commDataSend after = commDataSend d
    /\ commDataRecv after = commDataRecv d /\ sendRequest after = sendRequest d
    /\ same_layout d after.
Proof.
  induction bs as [|b bs IH]; intros c w d after; subst d after.
  - simpl; repeat split; reflexivity.
  - cbn [run_recv recv_log]; destruct (rb_guard b); [|apply IH].
    destruct (IH (bump (rb_class b) c) (post_recv PAD mp me tag b c w))
      as (R & F & S & V & Q & L).
    split; [|split; [|split; [|split; [|split]]]]; try assumption.
    intro j; rewrite R; cbn [uses_request existsb call_req].
    fold (uses_request j (recv_log PAD mp me tag bs (bump (rb_class b) c))).
    destruct (uses_request j (recv_log PAD mp me tag bs (bump (rb_class b) c)));
      [rewrite orb_true_r; reflexivity|].
    rewrite orb_false_r; unfold post_recv; simpl; unfold upd.
    rewrite (Z.eqb_sym j); reflexivity.
Qed.

(** A consuming run completes the requests it waits for and leaves the
    others as they are. *)
Lemma run_unpack_requests unp (fs : list Domain_member) (bs : list UnpackBlock) :
  forall c (w : World Real_t) j,
    recvRequest (domain (run_unpack PAD unp mp me fs bs c w)) j
    = if uses_request j (unpack_log PAD mp me bs c)
      then MPI_REQUEST_NULL else recvRequest (domain w) j.
Proof.
  induction bs as [|b bs IH]; intros c w j; [reflexivity|].
  cbn [run_unpack unpack_log]; destruct (ub_guard b); [|apply IH].
  rewrite IH; cbn [uses_request existsb call_req].
  fold (uses_request j (unpack_log PAD mp me bs (bump (ub_class b) c))).
  destruct (uses_request j (unpack_log PAD mp me bs (bump (ub_class b) c)));
    [rewrite orb_true_r; reflexivity|].
  rewrite orb_false_r; unfold wait_unpack; simpl; unfold upd.
  rewrite (Z.eqb_sym j); reflexivity.
Qed.

Lemma run_mono_requests (fs : list Domain_member) (bs : list MonoBlock) :
  forall pm fo (w : World Real_t) j,
    recvRequest (domain (run_mono mp fs bs pm fo w)) j
    = if uses_request j (mono_log mp bs pm)
      then MPI_REQUEST_NULL else recvRequest (domain w) j.
Proof.
  induction bs as [|b bs IH]; intros pm fo w j; [reflexivity|].
  cbn [run_mono mono_log]; destruct (mb_guard b); [|apply IH].
  rewrite IH; cbn [uses_request existsb call_req].
  fold (uses_request j (mono_log mp bs (pm + 1))).
  destruct (uses_request j (mono_log mp bs (pm + 1)));
    [rewrite orb_true_r; reflexivity|].
  rewrite orb_false_r; unfold wait_mono; simpl; unfold upd.
  rewrite (Z.eqb_sym j); reflexivity.
Qed.

End RequestArrays.

(** X6. On more than one rank, [CommRecv] leaves the first [n] entries of
    [recvRequest[26]] active, [n] being the number of receives it posted, and
    the other entries of the array null; it writes no field, no buffer and no
    send request, and keeps the place of the domain in the grid. *)
Theorem CommRecv_leaves_the_posted_requests_active {Real_t : Type} (PAD : Z)
    (w : World Real_t) (myRank msgType xferFields dx dy dz : Z)
    (doRecv planeOnly : bool) :
  numRanks (domain w) <> 1 ->
  let d := domain w in
  let w' := CommRecv PAD myRank msgType xferFields dx dy dz doRecv planeOnly w in
  let n := Z.of_nat (length (issued w w')) in
  (forall j, 0 <= j < 26 ->
             recvRequest (domain w') j
             = if j <? n then MPI_REQUEST_ACTIVE else MPI_REQUEST_NULL)
  /\ (forall j, ~ 0 <= j < 26 -> recvRequest (domain w') j = recvRequest d j)
  /\ n <= 26
  /\ field (domain w') = field d
  /\ commDataSend (domain w') = commDataSend d
  /\ commDataRecv (domain w') = commDataRecv d
  /\ sendRequest (domain w') = sendRequest d
  /\ same_layout d (domain w').
Proof.
  intros H1 d w' n; subst d w' n; rewrite CommRecv_issued.
  unfold CommRecv; apply Z.eqb_neq in H1; rewrite H1.
  set (l := recv_log PAD (xferFields * maxPlaneSize (domain w))
              (xferFields * maxEdgeSize (domain w)) msgType
              (CommRecv_blocks (boundary (domain w)) (tp (domain w)) myRank
                 xferFields dx dy dz doRecv planeOnly) (mkCounters 0 0 0)).
  destruct (CommRecv_requests PAD (xferFields * maxPlaneSize (domain w))
              (xferFields * maxEdgeSize (domain w)) msgType
              (boundary (domain w)) (tp (domain w)) myRank xferFields
              dx dy dz doRecv planeOnly) as [R1 R2].
  fold l in R1, R2; apply Nat.leb_le in R2.
  destruct (run_recv_domain PAD (xferFields * maxPlaneSize (domain w))
              (xferFields * maxEdgeSize (domain w)) msgType
              (CommRecv_blocks (boundary (domain w)) (tp (domain w)) myRank
                 xferFields dx dy dz doRecv planeOnly) (mkCounters 0 0 0)
              (mkWorld (set_recvRequest (domain w)
                          (clear_requests (recvRequest (domain w))))
                 (calls w))) as (R & F & S & V & Q & L).
  fold l in R.
  split; [|split; [|split; [|split; [|split; [|split; [|split]]]]]];
    try assumption; try lia.
  - intros j Hj; rewrite R, (uses_request_consecutive _ _ _ R1).
    replace (0 <=? j) with true by (symmetry; apply Z.leb_le; lia).
    cbn [andb]; destruct (j <? Z.of_nat (length l)); [reflexivity|].
    simpl; rewrite clear_requests_spec.
    replace (0 <=? j) with true by (symmetry; apply Z.leb_le; lia).
    replace (j <? 26) with true by (symmetry; apply Z.ltb_lt; lia).
    reflexivity.
  - intros j Hj; rewrite R, (uses_request_consecutive _ _ _ R1).
    assert (E : (0 <=? j) && (j <? Z.of_nat (length l)) = false).
    { destruct (Z.leb_spec 0 j), (Z.ltb_spec j (Z.of_nat (length l)));
        simpl; try reflexivity; lia. }
    rewrite E; simpl; rewrite clear_requests_spec.
    destruct (Z.leb_spec 0 j), (Z.ltb_spec j 26); simpl; try reflexivity; lia.
Qed.

Lemma CommRecv_leaves_the_posted_requests_active_witness :
  let w' := CommRecv 16 1 7 6 2 2 2 false false east_of_origin in
  numRanks (domain east_of_origin) <> 1
  /\ Z.of_nat (length (issued east_of_origin w')) = 6
  /\ recvRequest (domain w') 5 = MPI_REQUEST_ACTIVE
  /\ recvRequest (domain w') 6 = MPI_REQUEST_NULL.
Proof.
  intro w'.
  assert (H1 : numRanks (domain east_of_origin) <> 1) by (simpl; lia).
  pose proof (CommRecv_leaves_the_posted_requests_active 16 east_of_origin
                1 7 6 2 2 2 false false H1) as (R & _).
  split; [exact H1|]; split; [reflexivity|]; split.
  - exact (R 5 ltac:(lia)).
  - exact (R 6 ltac:(lia)).
Defined.

(** The request array after [CommRecv], in terms of the calls it issued. *)
Lemma CommRecv_request_array {Real_t : Type} (PAD : Z)
    (w : World Real_t) (myRank msgType xferFields dx dy dz : Z)
    (doRecv planeOnly : bool) :
  numRanks (domain w) <> 1 ->
  let d := domain w in
  let w' := CommRecv PAD myRank msgType xferFields dx dy dz doRecv planeOnly w in
  (forall j, recvRequest (domain w') j
             = if uses_request j
                    (recv_log PAD (xferFields * maxPlaneSize d)
                       (xferFields * maxEdgeSize d) msgType
                       (CommRecv_blocks (boundary d) (tp d) myRank xferFields
                          dx dy dz doRecv planeOnly) (mkCounters 0 0 0))
               then MPI_REQUEST_ACTIVE
               else clear_requests (recvRequest d) j)
  /\ same_layout d (domain w').
Proof.
  intros H1 d w'; subst d w'.
  unfold CommRecv; apply Z.eqb_neq in H1; rewrite H1.
  destruct (run_recv_domain PAD (xferFields * maxPlaneSize (domain w))
              (xferFields * maxEdgeSize (domain w)) msgType
              (CommRecv_blocks (boundary (domain w)) (tp (domain w)) myRank
                 xferFields dx dy dz doRecv planeOnly) (mkCounters 0 0 0)
              (mkWorld (set_recvRequest (domain w)
                          (clear_requests (recvRequest (domain w))))
                 (calls w))) as (R & _ & _ & _ & _ & L).
  split; [exact R | exact L].
Qed.

Lemma clear_requests_null (r : Z -> MPI_Request) (j : Z) :
  0 <= j < 26 -> clear_requests r j = MPI_REQUEST_NULL.
Proof.
  intro Hj; rewrite clear_requests_spec.
  replace (0 <=? j) with true by (symmetry; apply Z.leb_le; lia).
  replace (j <? 26) with true by (symmetry; apply Z.ltb_lt; lia).
  reflexivity.
Qed.

(** X7. On more than one rank, the consuming routine that follows a
    [CommRecv] completes every receive it posted: after [CommRecv] and
    [CommSBN], after [CommRecv] with [doRecv = false] and [CommSyncPosVel],
    and after [CommRecv] with [planeOnly = true] and [CommMonoQ], all 26
    entries of [recvRequest] are null again. *)
Theorem consume_phase_completes_every_posted_receive {Real_t : Type}
    (Real_add : Real_t -> Real_t -> Real_t) (PAD : Z)
    (w : World Real_t) (myRank msgType xferFields dx dy dz : Z)
    (fieldData : list Domain_member) (j : Z) :
  numRanks (domain w) <> 1 ->
  0 <= j < 26 ->
  recvRequest
    (domain (CommSBN Real_add PAD myRank xferFields fieldData
               (CommRecv PAD myRank msgType xferFields dx dy dz true false w)))
    j = MPI_REQUEST_NULL
  /\ recvRequest
       (domain (CommSyncPosVel PAD myRank
                  (CommRecv PAD myRank msgType 6 dx dy dz false false w)))
       j = MPI_REQUEST_NULL
  /\ recvRequest
       (domain (CommMonoQ myRank
                  (CommRecv PAD myRank msgType 3 dx dy dz true true w)))
       j = MPI_REQUEST_NULL.
Proof.
  intros H1 Hj.
  assert (K : forall xf doRecv planeOnly,
             let w1 := CommRecv PAD myRank msgType xf dx dy dz
                         doRecv planeOnly w in
             (numRanks (domain w1) =? 1) = false
             /\ boundary (domain w1) = boundary (domain w)
             /\ maxPlaneSize (domain w1) = maxPlaneSize (domain w)
             /\ maxEdgeSize (domain w1) = maxEdgeSize (domain w)).
  { intros xf doRecv planeOnly w1; subst w1.
    destruct (CommRecv_request_array PAD w myRank msgType xf dx dy dz
                doRecv planeOnly H1) as [_ L].
    pose proof (same_layout_boundary _ _ L) as Hb.
    destruct L as (Hn & _ & _ & _ & _ & Hmp & Hme).
    repeat split; try assumption.
    apply Z.eqb_neq; rewrite Hn; exact H1. }
  split; [|split].
  - destruct (K xferFields true false) as (Hn & Hb & Hmp & Hme).
    destruct (CommRecv_request_array PAD w myRank msgType xferFields dx dy dz
                true false H1) as [R _].
    unfold CommSBN; rewrite Hn, run_unpack_requests, Hb, Hmp, Hme.
    rewrite (uses_request_slots j _ _
               (slots_agree PAD _ _ msgType _ _ _
                  (CommSBN_keys (boundary (domain w)) (tp (domain w)) myRank
                     xferFields dx dy dz _ _ _))).
    rewrite R.
    match goal with |- context [if ?b then _ else _] => destruct b end;
      [reflexivity | apply clear_requests_null; exact Hj].
  - destruct (K 6 false false) as (Hn & Hb & Hmp & Hme).
    destruct (CommRecv_request_array PAD w myRank msgType 6 dx dy dz
                false false H1) as [R _].
    unfold CommSyncPosVel; rewrite Hn, run_unpack_requests, Hb, Hmp, Hme.
    rewrite (uses_request_slots j _ _
               (slots_agree PAD _ _ msgType _ _ _
                  (CommSyncPosVel_keys (boundary (domain w)) (tp (domain w))
                     myRank 6 dx dy dz _ _ _))).
    rewrite R.
    match goal with |- context [if ?b then _ else _] => destruct b end;
      [reflexivity | apply clear_requests_null; exact Hj].
  - destruct (K 3 true true) as (Hn & Hb & Hmp & Hme).
    destruct (CommRecv_request_array PAD w myRank msgType 3 dx dy dz
                true true H1) as [R _].
    unfold CommMonoQ; rewrite Hn, run_mono_requests, Hb, Hmp.
    rewrite (uses_request_slots j _ _
               (CommMonoQ_slots PAD (3 * maxPlaneSize (domain w))
                  (3 * maxEdgeSize (domain w)) msgType (boundary (domain w))
                  (tp (domain w)) myRank dx dy dz _ _ _)).
    rewrite R.
    match goal with |- context [if ?b then _ else _] => destruct b end;
      [reflexivity | apply clear_requests_null; exact Hj].
Qed.

Lemma consume_phase_completes_every_posted_receive_witness :
  numRanks (domain centre_of_27) <> 1
  /\ recvRequest
       (domain (CommRecv 16 13 7 3 2 2 2 true false centre_of_27)) 25
     = MPI_REQUEST_ACTIVE
  /\ recvRequest
       (domain (CommSBN Z.add 16 13 3 MonoQ_fields
                  (CommRecv 16 13 7 3 2 2 2 true false centre_of_27)))
       25 = MPI_REQUEST_NULL.
Proof.
  assert (H1 : numRanks (domain centre_of_27) <> 1) by (simpl; lia).
  split; [exact H1|]; split; [reflexivity|].
  exact (proj1 (consume_phase_completes_every_posted_receive
                  Z.add 16 centre_of_27 13 7 3 2 2 2 MonoQ_fields 25 H1
                  ltac:(lia))).
Defined.

(** ** Regions and sides of the mesh *)

Lemma region_Run1 (n : Z) (idx : Z -> Z) (k : Z) :
  In k (region (Run1 n idx)) <-> exists i, 0 <= i < n /\ k = idx i.
Proof.
  unfold region; rewrite in_map_iff; split.
  - intros ([p k'] & E & H); simpl in E; subst k'.
    apply cells_Run1 in H; exists p; exact H.
  - intros (i & Hi & ->); exists (i, idx i); split; [reflexivity|].
    apply cells_Run1; auto.
Qed.

Lemma region_Run2 (n m : Z) (pos idx : Z -> Z -> Z) (adv k : Z) :
  In k (region (Run2 n m pos idx adv)) <->
  exists i j, 0 <= i < n /\ 0 <= j < m /\ k = idx i j.
Proof.
  unfold region; rewrite in_map_iff; split.
  - intros ([p k'] & E & H); simpl in E; subst k'.
    apply cells_Run2 in H; destruct H as (i & j & Hi & Hj & _ & Hk).
    exists i, j; auto.
  - intros (i & j & Hi & Hj & ->); exists (pos i j, idx i j).
    split; [reflexivity|]; apply cells_Run2; exists i, j; auto.
Qed.

Lemma region_Point (idx k : Z) : In k (region (Point idx)) <-> k = idx.
Proof. unfold region; simpl; intuition. Qed.

Lemma plane_index (dx dy x y : Z) :
  0 <= x < dx -> 0 <= y < dy -> 0 <= x + y * dx < dx * dy.
Proof.
  intros Hx Hy.
  assert (0 <= y * dx) by (apply Z.mul_nonneg_nonneg; lia).
  assert ((y + 1) * dx <= dy * dx) by (apply Z.mul_le_mono_nonneg_r; lia).
  lia.
Qed.

Lemma plane_coords (dx dy i : Z) :
  0 < dx -> 0 <= i < dx * dy ->
  exists x y, 0 <= x < dx /\ 0 <= y < dy /\ i = x + y * dx.
Proof.
  intros Hx Hi; exists (i mod dx), (i / dx).
  pose proof (Z.mod_pos_bound i dx Hx).
  pose proof (Z.div_mod i dx ltac:(lia)).
  split; [lia|]; split; [|lia]; split.
  - apply Z.div_pos; lia.
  - apply Z.div_lt_upper_bound; lia.
Qed.

Ltac pick_coord i j n tac := first [tac 0 | tac (n - 1) | tac i | tac j].

Ltac close_side :=
  solve [ repeat split; try exact I; try lia; try ring ].

Ltac find_coords i j dx dy dz :=
  pick_coord i j dx ltac:(fun x =>
    pick_coord i j dy ltac:(fun y =>
      pick_coord i j dz ltac:(fun z => exists x, y, z; close_side))).

Lemma CommSend_regions_are_sides (fl : Flags)
    (tp myRank xferFields dx dy dz : Z) (doSend : bool) :
  1 <= dx -> 1 <= dy -> 1 <= dz ->
  Forall (fun b => forall k, In k (region (sb_shape b))
                             -> boundary_node dx dy dz (sb_dir b) k)
         (CommSend_blocks fl tp myRank xferFields dx dy dz doSend false).
Proof.
  intros Hx Hy Hz.
  unfold CommSend_blocks, CommSend_planes, CommSend_edges_corners.
  cbn [negb app].
  repeat (apply Forall_cons || apply Forall_nil);
    cbn [sb_shape sb_dir]; intros k Hk; unfold boundary_node;
    cbn [on_side d_col d_row d_plane].
  all: first
    [ apply region_Point in Hk; subst k; find_coords 0 0 dx dy dz
    | apply region_Run2 in Hk; destruct Hk as (i & j & Hi & Hj & ->);
      find_coords i j dx dy dz
    | apply region_Run1 in Hk; destruct Hk as (i & Hi & ->);
      first [ find_coords i 0 dx dy dz
            | destruct (plane_coords dx dy i ltac:(lia) Hi)
                as (x & y & Hx' & Hy' & ->);
              first [ exists x, y, 0; close_side
                    | exists x, y, (dz - 1); close_side ] ] ].
Qed.

Ltac pick_index x y z tac := first [tac x | tac y | tac z].

Lemma CommSend_sides_are_regions (fl : Flags)
    (tp myRank xferFields dx dy dz : Z) (doSend : bool) :
  1 <= dx -> 1 <= dy -> 1 <= dz ->
  Forall (fun b => forall k, boundary_node dx dy dz (sb_dir b) k
                             -> In k (region (sb_shape b)))
         (CommSend_blocks fl tp myRank xferFields dx dy dz doSend false).
Proof.
  intros Hx Hy Hz.
  unfold CommSend_blocks, CommSend_planes, CommSend_edges_corners.
  cbn [negb app].
  repeat (apply Forall_cons || apply Forall_nil);
    cbn [sb_shape sb_dir];
    intros k (x & y & z & Bx & By & Bz & -> & Sx & Sy & Sz);
    cbn [on_side d_col d_row d_plane] in Sx, Sy, Sz;
    try (rewrite Sx in *); try (rewrite Sy in *); try (rewrite Sz in *);
    clear Sx Sy Sz.
  all: first
    [ apply region_Point; ring
    | apply region_Run2;
      pick_index x y z ltac:(fun i =>
        pick_index x y z ltac:(fun j =>
          exists i, j; solve [repeat split; try lia; try ring]))
    | apply region_Run1;
      first [ pick_index x y z ltac:(fun i =>
                exists i; solve [repeat split; try lia; try ring])
            | exists (x + y * dx);
              pose proof (plane_index dx dy x y Bx By);
              solve [repeat split; try lia; try ring] ] ].
Qed.

Lemma CommSend_CommSBN_shapes (fl fl' : Flags)
    (tp myRank xferFields dx dy dz : Z) (doSend : bool) :
  map (fun b => (sb_dir b, sb_shape b))
      (CommSend_blocks fl tp myRank xferFields dx dy dz doSend false)
  = map (fun u => (ub_dir u, ub_shape u)) (CommSBN_blocks fl' dx dy dz).
Proof. reflexivity. Qed.

Lemma boundary_node_in_mesh (dx dy dz : Z) (dir : Direction) (k : Z) :
  boundary_node dx dy dz dir k -> 0 <= k < dx * dy * dz.
Proof.
  intros (x & y & z & Bx & By & Bz & -> & _).
  pose proof (plane_index dx dy x y Bx By) as Hp.
  exact (plane_index (dx * dy) dz (x + y * dx) z Hp Bz).
Qed.

Lemma Forall_map_eq {A B C : Type} (f : A -> C) (g : B -> C) (P : C -> Prop)
    (l : list A) (l' : list B) :
  map f l = map g l' ->
  Forall (fun a => P (f a)) l -> Forall (fun b => P (g b)) l'.
Proof.
  intros E H; apply Forall_map; rewrite <- E; apply Forall_map; exact H.
Qed.

(** The regions of the blocks of [CommSend] with edges and corners. *)
Lemma CommSend_side_table (fl : Flags)
    (tp myRank xferFields dx dy dz : Z) (doSend : bool) :
  1 <= dx -> 1 <= dy -> 1 <= dz ->
  Forall (fun b => forall k,
            (In k (region (snd (sb_dir b, sb_shape b)))
             <-> boundary_node dx dy dz (fst (sb_dir b, sb_shape b)) k)
            /\ (In k (region (snd (sb_dir b, sb_shape b)))
                -> 0 <= k < dx * dy * dz))
         (CommSend_blocks fl tp myRank xferFields dx dy dz doSend false).
Proof.
  intros Hx Hy Hz.
  pose proof (CommSend_regions_are_sides fl tp myRank xferFields dx dy dz
                doSend Hx Hy Hz) as H1.
  pose proof (CommSend_sides_are_regions fl tp myRank xferFields dx dy dz
                doSend Hx Hy Hz) as H2.
  rewrite Forall_forall in *; intros b Hb k; cbn [fst snd].
  split; [split; [apply H1 | apply H2]; exact Hb|].
  intro Hk; apply (boundary_node_in_mesh dx dy dz (sb_dir b)).
  apply H1; assumption.
Qed.

(** The same for the tables of the consuming routines, whose loops are
    those of [CommSend]. *)
Lemma blocks_sides (fl : Flags) (dx dy dz : Z) (doRecv : bool) :
  1 <= dx -> 1 <= dy -> 1 <= dz ->
  Forall (fun u => forall k, In k (region (ub_shape u))
                             -> boundary_node dx dy dz (ub_dir u) k)
         (CommSBN_blocks fl dx dy dz)
  /\ Forall (fun u => forall k, In k (region (ub_shape u))
                                -> boundary_node dx dy dz (ub_dir u) k)
            (CommSyncPosVel_blocks fl dx dy dz doRecv).
Proof.
  intros Hx Hy Hz.
  pose proof (CommSend_regions_are_sides fl 0 0 0 dx dy dz true Hx Hy Hz) as H.
  split.
  - exact (Forall_map_eq _ _
             (fun ds => forall k, In k (region (snd ds))
                                  -> boundary_node dx dy dz (fst ds) k)
             _ _ (CommSend_CommSBN_shapes fl fl 0 0 0 dx dy dz true) H).
  - exact (Forall_map_eq _ _
             (fun ds => forall k, In k (region (snd ds))
                                  -> boundary_node dx dy dz (fst ds) k)
             _ _ (CommSend_CommSyncPosVel_shapes fl fl 0 0 0 dx dy dz
                    true doRecv) H).
Qed.

(** X8. On a mesh of at least one node along each axis, the loops of every
    block of [CommSend], [CommSBN] and [CommSyncPosVel] visit exactly the
    nodes of the face, edge or corner of the mesh that the direction of the
    block names, and every index they form lies in the mesh. *)
Theorem blocks_visit_the_side_their_direction_names (fl : Flags)
    (tp myRank xferFields dx dy dz : Z) (doSend doRecv planeOnly : bool) :
  1 <= dx -> 1 <= dy -> 1 <= dz ->
  Forall (fun b => forall k,
            (In k (region (sb_shape b)) <-> boundary_node dx dy dz (sb_dir b) k)
            /\ (In k (region (sb_shape b)) -> 0 <= k < dx * dy * dz))
         (CommSend_blocks fl tp myRank xferFields dx dy dz doSend planeOnly)
  /\ Forall (fun u => forall k,
               (In k (region (ub_shape u))
                <-> boundary_node dx dy dz (ub_dir u) k)
               /\ (In k (region (ub_shape u)) -> 0 <= k < dx * dy * dz))
            (CommSBN_blocks fl dx dy dz)
  /\ Forall (fun u => forall k,
               (In k (region (ub_shape u))
                <-> boundary_node dx dy dz (ub_dir u) k)
               /\ (In k (region (ub_shape u)) -> 0 <= k < dx * dy * dz))
            (CommSyncPosVel_blocks fl dx dy dz doRecv).
Proof.
  intros Hx Hy Hz.
  pose proof (CommSend_side_table fl tp myRank xferFields dx dy dz doSend
                Hx Hy Hz) as H.
  split; [|split].
  - destruct planeOnly; [|exact H].
    unfold CommSend_blocks in *; cbn [negb] in *.
    apply Forall_app in H; destruct H as [H _].
    rewrite app_nil_r; exact H.
  - exact (Forall_map_eq _ _
             (fun ds => forall k,
                (In k (region (snd ds)) <-> boundary_node dx dy dz (fst ds) k)
                /\ (In k (region (snd ds)) -> 0 <= k < dx * dy * dz))
             _ _ (CommSend_CommSBN_shapes fl fl tp myRank xferFields
                    dx dy dz doSend) H).
  - exact (Forall_map_eq _ _
             (fun ds => forall k,
                (In k (region (snd ds)) <-> boundary_node dx dy dz (fst ds) k)
                /\ (In k (region (snd ds)) -> 0 <= k < dx * dy * dz))
             _ _ (CommSend_CommSyncPosVel_shapes fl fl tp myRank xferFields
                    dx dy dz doSend doRecv) H).
Qed.

Lemma blocks_visit_the_side_their_direction_names_witness :
  1 <= 3
  /\ Forall (fun u => forall k,
               (In k (region (ub_shape u))
                <-> boundary_node 3 3 3 (ub_dir u) k)
               /\ (In k (region (ub_shape u)) -> 0 <= k < 3 * 3 * 3))
            (CommSBN_blocks (mkFlags true true true true true true) 3 3 3).
Proof.
  split; [lia|].
  exact (proj1 (proj2 (blocks_visit_the_side_their_direction_names
                         (mkFlags true true true true true true)
                         3 13 3 3 3 3 true true false
                         ltac:(lia) ltac:(lia) ltac:(lia)))).
Defined.

(** ** Nodes the consuming routines leave alone *)

Lemma CommSBN_guard (fl : Flags) (dx dy dz : Z) :
  Forall (fun u => is_neighbour (ub_dir u) = true
                   /\ ub_guard u = flags_active fl (ub_dir u))
         (CommSBN_blocks fl dx dy dz).
Proof.
  unfold CommSBN_blocks.
  destruct fl as [[] [] [] [] [] []]; simpl;
    repeat (constructor; [split; reflexivity|]); constructor.
Qed.

Section Untouched.

Context {Real_t : Type}.
Variable PAD : Z.
Variables mp me : Z.
Variable fs : list Domain_member.
Variable unp : list Domain_member -> Shape -> (Z -> Real_t) -> Z ->
               (Domain_member -> Z -> Real_t) -> Domain_member -> Z -> Real_t.
Hypothesis unp_miss :
  forall sh buf srcAddr fld g j,
    ~ In j (region sh) -> unp fs sh buf srcAddr fld g j = fld g j.

Lemma run_unpack_untouched (f : Domain_member) (k : Z)
    (bs : list UnpackBlock) :
  forall c (w : World Real_t),
    (forall u, In u bs -> ub_guard u = true -> ~ In k (region (ub_shape u))) ->
    field (domain (run_unpack PAD unp mp me fs bs c w)) f k
    = field (domain w) f k.
Proof.
  induction bs as [|b bs IH]; intros c w H; simpl; [reflexivity|].
  assert (H' : forall u, In u bs -> ub_guard u = true ->
                         ~ In k (region (ub_shape u)))
    by (intros u Hu; apply H; right; exact Hu).
  destruct (ub_guard b) eqn:G; rewrite IH by exact H'; [|reflexivity].
  unfold wait_unpack; simpl; apply unp_miss.
  apply H; [left; reflexivity | exact G].
Qed.

End Untouched.

Lemma interior_is_on_no_side (dx dy dz k : Z) (dir : Direction) :
  interior dx dy dz k -> is_neighbour dir = true ->
  ~ boundary_node dx dy dz dir k.
Proof.
  intros (_ & Ix & Iy & Iz) Hn (x & y & z & Bx & By & Bz & E & Sx & Sy & Sz).
  pose proof (plane_index dx dy x y Bx By) as Hp.
  assert (Ex : node_x dx k = x).
  { unfold node_x; symmetry; apply (Z.mod_unique k dx (y + z * dy) x);
      [left; exact Bx | rewrite E; ring]. }
  assert (Eq : k / dx = y + z * dy).
  { symmetry; apply (Z.div_unique k dx (y + z * dy) x);
      [left; exact Bx | rewrite E; ring]. }
  assert (Ey : node_y dx dy k = y).
  { unfold node_y; rewrite Eq; symmetry;
      apply (Z.mod_unique (y + z * dy) dy z y); [left; exact By | ring]. }
  assert (Ez : node_z dx dy k = z).
  { unfold node_z; symmetry; apply (Z.div_unique k (dx * dy) z (x + y * dx));
      [left; exact Hp | rewrite E; ring]. }
  rewrite Ex in Ix; rewrite Ey in Iy; rewrite Ez in Iz.
  destruct dir as [[] [] []]; try discriminate;
    cbn [on_side d_col d_row d_plane] in Sx, Sy, Sz; lia.
Qed.

(** X9. [CommSBN] and [CommSyncPosVel] change a field at a node only if the
    node lies on a face, edge or corner of the mesh towards a neighbour the
    domain has: every other node, and so every node of the interior of the
    mesh, holds after the call what it held before. *)
Theorem consuming_routines_write_boundary_nodes_only {Real_t : Type}
    (Real_add : Real_t -> Real_t -> Real_t) (PAD : Z) (w : World Real_t)
    (myRank xferFields : Z) (fieldData : list Domain_member)
    (f : Domain_member) (k : Z) :
  let d := domain w in
  let dx := sizeX d + 1 in
  let dy := sizeY d + 1 in
  let dz := sizeZ d + 1 in
  0 <= sizeX d -> 0 <= sizeY d -> 0 <= sizeZ d ->
  (forall dir, is_neighbour dir = true ->
               flags_active (boundary d) dir = true ->
               ~ boundary_node dx dy dz dir k)
  \/ interior dx dy dz k ->
  field (domain (CommSBN Real_add PAD myRank xferFields fieldData w)) f k
  = field d f k
  /\ field (domain (CommSyncPosVel PAD myRank w)) f k = field d f k.
Proof.
  intros d dx dy dz Hx Hy Hz H.
  assert (H' : forall dir, is_neighbour dir = true ->
                           flags_active (boundary d) dir = true ->
                           ~ boundary_node dx dy dz dir k).
  { destruct H as [H | H]; [exact H|].
    intros dir Hn _; apply interior_is_on_no_side; assumption. }
  clear H.
  destruct (blocks_sides (boundary d) dx dy dz false
              ltac:(subst dx; lia) ltac:(subst dy; lia) ltac:(subst dz; lia))
    as [S1 S2].
  split.
  - unfold CommSBN; fold d; destruct (numRanks d =? 1); [reflexivity|].
    fold dx dy dz; apply run_unpack_untouched.
    + intros sh buf srcAddr fld g j Hj; apply unpack_add_miss; right; exact Hj.
    + intros u Hu G Hk.
      pose proof (CommSBN_guard (boundary d) dx dy dz) as Hg.
      rewrite Forall_forall in Hg, S1.
      destruct (Hg u Hu) as [Hn Hgu]; rewrite G in Hgu.
      apply (H' (ub_dir u) Hn (eq_sym Hgu)); apply S1; assumption.
  - unfold CommSyncPosVel; fold d; destruct (numRanks d =? 1); [reflexivity|].
    fold dx dy dz; apply run_unpack_untouched.
    + intros sh buf srcAddr fld g j Hj; apply unpack_miss; right; exact Hj.
    + intros u Hu G Hk.
      pose proof (CommSyncPosVel_guard (boundary d) dx dy dz false) as Hg.
      rewrite Forall_forall in Hg, S2.
      destruct (Hg u Hu) as [Hn Hgu]; rewrite G in Hgu.
      symmetry in Hgu; apply andb_true_iff in Hgu; destruct Hgu as [Hgu _].
      apply (H' (ub_dir u) Hn Hgu); apply S2; assumption.
Qed.

Lemma consuming_routines_write_boundary_nodes_only_witness :
  interior 3 3 3 13
  /\ field (domain (CommSBN Z.add 16 13 3 PosVel_fields graded_centre))
       Domain_x 13 = 113
  /\ field (domain (CommSyncPosVel 16 13 graded_centre)) Domain_x 13 = 113.
Proof.
  assert (I : interior 3 3 3 13)
    by (unfold interior, node_x, node_y, node_z; repeat split;
        vm_compute; first [reflexivity | discriminate]).
  split; [exact I|].
  exact (consuming_routines_write_boundary_nodes_only
           Z.add 16 graded_centre 13 3 PosVel_fields Domain_x 13
           ltac:(simpl; lia) ltac:(simpl; lia) ltac:(simpl; lia)
           (or_intror I)).
Defined.

(** ** Layout of the buffers *)

Lemma slot_is_next_free (PAD mp me : Z) (k : MsgClass) (c : Counters) :
  phase_ok k c -> slot_offset PAD mp me k c = next_free PAD mp me c.
Proof.
  unfold next_free; destruct k; simpl.
  - intros [-> ->]; lia.
  - intros ->; lia.
  - reflexivity.
Qed.

Lemma next_free_bump (PAD mp me : Z) (k : MsgClass) (c : Counters) :
  next_free PAD mp me (bump k c) = next_free PAD mp me c + stride PAD mp me k.
Proof. unfold next_free; destruct k; simpl; lia. Qed.

Lemma phase_ok_bump (k k' : MsgClass) (c : Counters) :
  Nat.leb (class_rank k) (class_rank k') = true ->
  phase_ok k c -> phase_ok k' c -> phase_ok k' (bump k c).
Proof. destruct k, k'; simpl; try discriminate; tauto. Qed.

Section Layout.

Variable PAD : Z.
Variables mp me tag : Z.

Lemma recv_log_packed (bs : list RecvBlock) :
  forall c s,
    classes_ordered (map rb_class bs) = true ->
    Forall (fun b => 0 <= rb_count b <= stride PAD mp me (rb_class b)) bs ->
    Forall (fun b => phase_ok (rb_class b) c) bs ->
    s <= next_free PAD mp me c ->
    packed_from s (recv_log PAD mp me tag bs c).
Proof.
  induction bs as [|b bs IH]; intros c s Ho Hc Hp Hs; [exact I|].
  cbn [map classes_ordered] in Ho; apply andb_true_iff in Ho.
  destruct Ho as [Hb Ho]; rewrite forallb_forall in Hb.
  apply Forall_cons_iff in Hc; destruct Hc as [Hcb Hc].
  apply Forall_cons_iff in Hp; destruct Hp as [Hpb Hp].
  cbn [recv_log]; destruct (rb_guard b); [|apply IH; assumption].
  cbn [packed_from]; rewrite (slot_is_next_free _ _ _ _ _ Hpb).
  split; [exact Hs|]; split; [lia|].
  apply IH; try assumption.
  - rewrite Forall_forall in *; intros b' Hb'.
    apply phase_ok_bump; [|exact Hpb | apply Hp; exact Hb'].
    apply Hb; apply in_map; exact Hb'.
  - rewrite next_free_bump; lia.
Qed.

Lemma send_log_packed (bs : list SendBlock) :
  forall c s,
    classes_ordered (map sb_class bs) = true ->
    Forall (fun b => 0 <= sb_count b <= stride PAD mp me (sb_class b)) bs ->
    Forall (fun b => phase_ok (sb_class b) c) bs ->
    s <= next_free PAD mp me c ->
    packed_from s (send_log PAD mp me tag bs c).
Proof.
  induction bs as [|b bs IH]; intros c s Ho Hc Hp Hs; [exact I|].
  cbn [map classes_ordered] in Ho; apply andb_true_iff in Ho.
  destruct Ho as [Hb Ho]; rewrite forallb_forall in Hb.
  apply Forall_cons_iff in Hc; destruct Hc as [Hcb Hc].
  apply Forall_cons_iff in Hp; destruct Hp as [Hpb Hp].
  cbn [send_log]; destruct (sb_guard b); [|apply IH; assumption].
  cbn [packed_from]; rewrite (slot_is_next_free _ _ _ _ _ Hpb).
  split; [exact Hs|]; split; [lia|].
  apply IH; try assumption.
  - rewrite Forall_forall in *; intros b' Hb'.
    apply phase_ok_bump; [|exact Hpb | apply Hp; exact Hb'].
    apply Hb; apply in_map; exact Hb'.
  - rewrite next_free_bump; lia.
Qed.

End Layout.

Lemma packed_from_Waitall (s n : Z) (l : list Call) :
  packed_from s l -> packed_from s (l ++ [Waitall n]).
Proof.
  revert s; induction l as [|e l IH]; intros s H; [exact I|].
  destruct e; cbn [app packed_from] in *;
    try (destruct H as (H1 & H2 & H3); repeat split; auto); auto.
Qed.

Lemma scaled_fits (xf n m : Z) :
  0 <= xf -> 0 <= n -> n <= m -> 0 <= n * xf <= xf * m /\ 0 <= xf * n <= xf * m.
Proof.
  intros Hx Hn Hm.
  assert (0 <= xf * n) by (apply Z.mul_nonneg_nonneg; lia).
  assert (xf * n <= xf * m) by (apply Z.mul_le_mono_nonneg_l; lia).
  lia.
Qed.

Lemma CommRecv_counts_fit {Real_t : Type} (PAD : Z) (d : Domain Real_t)
    (fl : Flags) (tp myRank xferFields dx dy dz : Z)
    (doRecv planeOnly : bool) :
  strides_fit PAD xferFields dx dy dz d ->
  Forall (fun b => 0 <= rb_count b
                   <= stride PAD (xferFields * maxPlaneSize d)
                        (xferFields * maxEdgeSize d) (rb_class b))
         (CommRecv_blocks fl tp myRank xferFields dx dy dz doRecv planeOnly).
Proof.
  intros (Hf & Hx & Hy & Hz & Pxy & Pxz & Pyz & Ex & Ey & Ez & Hp).
  assert (0 <= dx * dy) by (apply Z.mul_nonneg_nonneg; lia).
  assert (0 <= dx * dz) by (apply Z.mul_nonneg_nonneg; lia).
  assert (0 <= dy * dz) by (apply Z.mul_nonneg_nonneg; lia).
  unfold CommRecv_blocks, CommRecv_planes, CommRecv_edges_corners.
  destruct planeOnly; cbn [negb app];
    repeat (apply Forall_cons || apply Forall_nil);
    cbn [rb_count rb_class stride];
    first [ lia | apply scaled_fits; assumption ].
Qed.

Lemma CommSend_counts_fit {Real_t : Type} (PAD : Z) (d : Domain Real_t)
    (fl : Flags) (tp myRank xferFields dx dy dz : Z)
    (doSend planeOnly : bool) :
  strides_fit PAD xferFields dx dy dz d ->
  Forall (fun b => 0 <= sb_count b
                   <= stride PAD (xferFields * maxPlaneSize d)
                        (xferFields * maxEdgeSize d) (sb_class b))
         (CommSend_blocks fl tp myRank xferFields dx dy dz doSend planeOnly).
Proof.
  intros (Hf & Hx & Hy & Hz & Pxy & Pxz & Pyz & Ex & Ey & Ez & Hp).
  assert (0 <= dx * dy) by (apply Z.mul_nonneg_nonneg; lia).
  assert (0 <= dx * dz) by (apply Z.mul_nonneg_nonneg; lia).
  assert (0 <= dy * dz) by (apply Z.mul_nonneg_nonneg; lia).
  unfold CommSend_blocks, CommSend_planes, CommSend_edges_corners.
  destruct planeOnly; cbn [negb app];
    repeat (apply Forall_cons || apply Forall_nil);
    cbn [sb_count sb_class stride];
    first [ lia | apply scaled_fits; assumption ].
Qed.

Lemma CommRecv_classes (fl : Flags) (tp myRank xferFields dx dy dz : Z)
    (doRecv planeOnly : bool) :
  classes_ordered
    (map rb_class
       (CommRecv_blocks fl tp myRank xferFields dx dy dz doRecv planeOnly))
  = true
  /\ Forall (fun b => phase_ok (rb_class b) (mkCounters 0 0 0))
            (CommRecv_blocks fl tp myRank xferFields dx dy dz doRecv planeOnly).
Proof.
  unfold CommRecv_blocks, CommRecv_planes, CommRecv_edges_corners.
  destruct planeOnly; cbn [negb app]; (split; [reflexivity|]);
    repeat (apply Forall_cons || apply Forall_nil);
    cbn [rb_class phase_ok pmsg emsg cmsg]; auto.
Qed.

Lemma CommSend_classes (fl : Flags) (tp myRank xferFields dx dy dz : Z)
    (doSend planeOnly : bool) :
  classes_ordered
    (map sb_class
       (CommSend_blocks fl tp myRank xferFields dx dy dz doSend planeOnly))
  = true
  /\ Forall (fun b => phase_ok (sb_class b) (mkCounters 0 0 0))
            (CommSend_blocks fl tp myRank xferFields dx dy dz doSend planeOnly).
Proof.
  unfold CommSend_blocks, CommSend_planes, CommSend_edges_corners.
  destruct planeOnly; cbn [negb app]; (split; [reflexivity|]);
    repeat (apply Forall_cons || apply Forall_nil);
    cbn [sb_class phase_ok pmsg emsg cmsg]; auto.
Qed.

(** X10. When the strides of the buffers hold the largest message of each
    class (a face of the mesh fits in [maxPlaneSize], an edge in
    [maxEdgeSize], one value per field in the padded corner slot), the
    messages [CommRecv] posts and the messages [CommSend] packs lie one after
    the other in their buffer, from offset 0 on: each starts at or after the
    end of the one before, so no two of them overlap. *)
Theorem messages_lie_one_after_the_other {Real_t : Type} (PAD : Z)
    (w : World Real_t) (myRank msgType xferFields : Z)
    (fieldData : list Domain_member) (dx dy dz : Z) (flag planeOnly : bool) :
  strides_fit PAD xferFields dx dy dz (domain w) ->
  packed_from 0
    (issued w (CommRecv PAD myRank msgType xferFields dx dy dz flag planeOnly w))
  /\ packed_from 0
       (issued w (CommSend PAD myRank msgType xferFields fieldData dx dy dz
                    flag planeOnly w)).
Proof.
  intro H; rewrite CommRecv_issued, CommSend_issued.
  destruct (numRanks (domain w) =? 1); [split; exact I|].
  split.
  - destruct (CommRecv_classes (boundary (domain w)) (tp (domain w)) myRank
                xferFields dx dy dz flag planeOnly) as [Ho Hp].
    apply recv_log_packed; try assumption.
    + apply CommRecv_counts_fit; exact H.
    + unfold next_free; simpl; lia.
  - apply packed_from_Waitall.
    destruct (CommSend_classes (boundary (domain w)) (tp (domain w)) myRank
                xferFields dx dy dz flag planeOnly) as [Ho Hp].
    apply send_log_packed; try assumption.
    + apply CommSend_counts_fit; exact H.
    + unfold next_free; simpl; lia.
Qed.

Lemma messages_lie_one_after_the_other_witness :
  strides_fit 16 6 2 2 2 (domain centre_of_27)
  /\ packed_from 0
       (issued centre_of_27
          (CommRecv 16 13 7 6 2 2 2 true false centre_of_27))
  /\ packed_from 0
       (issued centre_of_27
          (CommSend 16 13 7 6 PosVel_fields 2 2 2 true false centre_of_27)).
Proof.
  assert (H : strides_fit 16 6 2 2 2 (domain centre_of_27))
    by (unfold strides_fit; simpl; lia).
  split; [exact H|].
  exact (messages_lie_one_after_the_other
           16 centre_of_27 13 7 6 PosVel_fields 2 2 2 true false H).
Defined.

(** ** What CommSend leaves in the send buffer *)

Section SendBuffer.

Context {Real_t : Type}.
Variable PAD : Z.
Variables mp me tag : Z.
Variable fs : list Domain_member.

(** [run_send] writes the send buffer and the send requests only. *)
Lemma run_send_frame (bs : list SendBlock) :
  forall c (w : World Real_t),
    let d := domain w in
    let after := domain (run_send PAD mp me tag fs bs c w) in
    field after = field d /\ commDataRecv after = commDataRecv d
    /\ recvRequest after = recvRequest d /\ same_layout d after.
Proof.
  induction bs as [|b bs IH]; intros c w d after; subst d after.
  - simpl; repeat split; reflexivity.
  - cbn [run_send]; destruct (sb_guard b); [|apply IH].
    destruct (IH (bump (sb_class b) c) (pack_send PAD mp me tag fs b c w))
      as (F & V & R & L).
    repeat split; try assumption; apply L.
Qed.

(** Every message of the log lies in the buffer as the gather loops of its
    block left it, and the part of the buffer below the first free slot is
    not written. *)
Lemma run_send_buffer (bs : list SendBlock) :
  forall c (w : World Real_t),
    classes_ordered (map sb_class bs) = true ->
    Forall (fun b => well_positioned (sb_shape b)
                     /\ 0 <= stride PAD mp me (sb_class b)
                     /\ Z.of_nat (length fs) * advance (sb_shape b)
                        <= stride PAD mp me (sb_class b)) bs ->
    Forall (fun b => phase_ok (sb_class b) c) bs ->
    let after := domain (run_send PAD mp me tag fs bs c w) in
    (forall q, q < next_free PAD mp me c ->
               commDataSend after q = commDataSend (domain w) q)
    /\ (forall dir buf n peer t req,
          In (Isend dir buf n peer t req) (send_log PAD mp me tag bs c) ->
          exists b,
            In b bs /\ sb_dir b = dir /\ sb_count b = n
            /\ forall fi f p k,
                 nth_error fs fi = Some f -> In (p, k) (cells (sb_shape b)) ->
                 commDataSend after (buf + Z.of_nat fi * advance (sb_shape b) + p)
                 = field (domain w) f k).
Proof.
  induction bs as [|b bs IH]; intros c w Ho Hc Hp after; subst after.
  - split; [reflexivity | intros ? ? ? ? ? ? []].
  - cbn [map classes_ordered] in Ho; apply andb_true_iff in Ho.
    destruct Ho as [Hb Ho]; rewrite forallb_forall in Hb.
    apply Forall_cons_iff in Hc; destruct Hc as [(Hw & Hs & Hl) Hc].
    apply Forall_cons_iff in Hp; destruct Hp as [Hpb Hp].
    cbn [run_send send_log]; destruct (sb_guard b).
    + assert (Hp' : Forall (fun b' => phase_ok (sb_class b')
                                        (bump (sb_class b) c)) bs).
      { rewrite Forall_forall in *; intros b' Hb'.
        apply phase_ok_bump; [|exact Hpb | apply Hp; exact Hb'].
        apply Hb; apply in_map; exact Hb'. }
      destruct (IH (bump (sb_class b) c) (pack_send PAD mp me tag fs b c w)
                  Ho Hc Hp') as [Hlow Hmsg].
      rewrite next_free_bump in Hlow.
      split.
      * intros q Hq; rewrite Hlow by lia.
        unfold pack_send; cbn [domain commDataSend set_sendRequest
                                 set_commDataSend].
        apply pack_below; [exact Hw|].
        rewrite (slot_is_next_free _ _ _ _ _ Hpb); exact Hq.
      * intros dir buf n peer t req [E | Hin].
        -- inversion E; subst dir buf n peer t req; clear E.
           exists b; split; [left; reflexivity|].
           split; [reflexivity|]; split; [reflexivity|].
           intros fi f p k Hf Hk.
           assert (Hlt : (fi < length fs)%nat)
             by (apply nth_error_Some; rewrite Hf; discriminate).
           pose proof (proj1 Hw p k Hk) as Hpk.
           assert ((Z.of_nat fi + 1) * advance (sb_shape b)
                   <= Z.of_nat (length fs) * advance (sb_shape b))
             by (apply Z.mul_le_mono_nonneg_r; lia).
           rewrite (slot_is_next_free _ _ _ _ _ Hpb).
           rewrite Hlow by lia.
           unfold pack_send; cbn [domain commDataSend set_sendRequest
                                    set_commDataSend].
           rewrite (slot_is_next_free _ _ _ _ _ Hpb).
           apply pack_holds; [exact Hw | exact Hf | exact Hk].
        -- destruct (Hmsg dir buf n peer t req Hin)
             as (b' & Hb' & Hd & Hn & Hv).
           exists b'; split; [right; exact Hb'|].
           split; [exact Hd|]; split; [exact Hn|].
           intros fi f p k Hf Hk; rewrite (Hv fi f p k Hf Hk); reflexivity.
    + destruct (IH c w Ho Hc Hp) as [Hlow Hmsg].
      split; [exact Hlow|].
      intros dir buf n peer t req Hin.
      destruct (Hmsg dir buf n peer t req Hin) as (b' & Hb' & Hrest).
      exists b'; split; [right; exact Hb' | exact Hrest].
Qed.

End SendBuffer.

Lemma CommSend_counts (fl : Flags) (tp myRank xferFields dx dy dz : Z)
    (doSend planeOnly : bool) :
  0 <= dx -> 0 <= dy -> 0 <= dz ->
  Forall (fun b => sb_count b = xferFields * advance (sb_shape b)
                   /\ 0 <= advance (sb_shape b))
         (CommSend_blocks fl tp myRank xferFields dx dy dz doSend planeOnly).
Proof.
  intros Hx Hy Hz.
  assert (0 <= dx * dy) by (apply Z.mul_nonneg_nonneg; lia).
  assert (0 <= dx * dz) by (apply Z.mul_nonneg_nonneg; lia).
  assert (0 <= dy * dz) by (apply Z.mul_nonneg_nonneg; lia).
  unfold CommSend_blocks, CommSend_planes, CommSend_edges_corners.
  destruct planeOnly; cbn [negb app];
    repeat (apply Forall_cons || apply Forall_nil);
    cbn [sb_count sb_shape advance]; split; lia.
Qed.

Lemma fields_of_length (xferFields : Z) (fieldData : list Domain_member) :
  0 <= xferFields ->
  Z.of_nat (length (fields_of xferFields fieldData)) <= xferFields.
Proof.
  intro H; unfold fields_of.
  pose proof (firstn_le_length (Z.to_nat xferFields) fieldData); lia.
Qed.

Lemma CommSend_segments_fit {Real_t : Type} (PAD : Z) (d : Domain Real_t)
    (fl : Flags) (tp myRank xferFields : Z) (fieldData : list Domain_member)
    (dx dy dz : Z) (doSend planeOnly : bool) :
  strides_fit PAD xferFields dx dy dz d ->
  Forall (fun b => well_positioned (sb_shape b)
                   /\ 0 <= stride PAD (xferFields * maxPlaneSize d)
                             (xferFields * maxEdgeSize d) (sb_class b)
                   /\ Z.of_nat (length (fields_of xferFields fieldData))
                      * advance (sb_shape b)
                      <= stride PAD (xferFields * maxPlaneSize d)
                           (xferFields * maxEdgeSize d) (sb_class b))
         (CommSend_blocks fl tp myRank xferFields dx dy dz doSend planeOnly).
Proof.
  intro H.
  pose proof (CommSend_counts_fit PAD d fl tp myRank xferFields dx dy dz
                doSend planeOnly H) as Hf.
  destruct H as (Hxf & Hx & Hy & Hz & _).
  pose proof (CommSend_counts fl tp myRank xferFields dx dy dz doSend planeOnly
                Hx Hy Hz) as Hc.
  assert (Hw : Forall (fun b => well_positioned (sb_shape b))
                 (CommSend_blocks fl tp myRank xferFields dx dy dz
                    doSend planeOnly)).
  { pose proof (CommSend_well_positioned fl tp myRank xferFields dx dy dz
                  doSend false) as Hw.
    destruct planeOnly; [|exact Hw].
    unfold CommSend_blocks in *; cbn [negb] in *.
    apply Forall_app in Hw; destruct Hw as [Hw _].
    rewrite app_nil_r; exact Hw. }
  pose proof (fields_of_length xferFields fieldData Hxf) as Hl.
  rewrite Forall_forall in *; intros b Hb.
  destruct (Hc b Hb) as [Ec Ha]; pose proof (Hf b Hb) as Hfb.
  split; [apply Hw; exact Hb|]; split; [lia|].
  assert (Z.of_nat (length (fields_of xferFields fieldData))
          * advance (sb_shape b) <= xferFields * advance (sb_shape b))
    by (apply Z.mul_le_mono_nonneg_r; lia).
  lia.
Qed.

(** The messages in the send buffer when the blocks of [CommSend] have run. *)
Lemma CommSend_messages {Real_t : Type} (PAD : Z) (w : World Real_t)
    (fl : Flags) (tp myRank msgType xferFields : Z)
    (fieldData : list Domain_member) (dx dy dz : Z)
    (doSend planeOnly : bool) (dir : Direction) (buf n peer t req : Z) :
  strides_fit PAD xferFields dx dy dz (domain w) ->
  let mp := xferFields * maxPlaneSize (domain w) in
  let me := xferFields * maxEdgeSize (domain w) in
  let bs := CommSend_blocks fl tp myRank xferFields dx dy dz doSend planeOnly in
  In (Isend dir buf n peer t req)
     (send_log PAD mp me msgType bs (mkCounters 0 0 0)) ->
  exists b,
    In b bs /\ sb_dir b = dir /\ n = xferFields * advance (sb_shape b)
    /\ forall fi f p k,
         nth_error (fields_of xferFields fieldData) fi = Some f ->
         In (p, k) (cells (sb_shape b)) ->
         commDataSend
           (domain (run_send PAD mp me msgType (fields_of xferFields fieldData)
                      bs (mkCounters 0 0 0) w))
           (buf + Z.of_nat fi * advance (sb_shape b) + p)
         = field (domain w) f k.
Proof.
  intros H mp me bs Hin.
  destruct (CommSend_classes fl tp myRank xferFields dx dy dz doSend planeOnly)
    as [Ho Hp].
  pose proof (CommSend_segments_fit PAD (domain w) fl tp myRank xferFields
                fieldData dx dy dz doSend planeOnly H) as Hs.
  pose proof (CommSend_counts fl tp myRank xferFields dx dy dz doSend planeOnly
                ltac:(destruct H as (_ & ? & _); assumption)
                ltac:(destruct H as (_ & _ & ? & _); assumption)
                ltac:(destruct H as (_ & _ & _ & ? & _); assumption)) as Hc.
  fold bs in Ho, Hp, Hs, Hc.
  destruct (run_send_buffer PAD mp me msgType (fields_of xferFields fieldData)
              bs (mkCounters 0 0 0) w Ho Hs Hp) as [_ Hmsg].
  destruct (Hmsg dir buf n peer t req Hin) as (b & Hb & Hd & Hn & Hv).
  exists b; split; [exact Hb|]; split; [exact Hd|].
  rewrite Forall_forall in Hc; destruct (Hc b Hb) as [Ec _].
  split; [rewrite <- Hn; exact Ec | exact Hv].
Qed.

(** X11. When the strides of the buffers hold the largest message of each
    class, [CommSend] leaves every message it sends in the send buffer as the
    gather loops of its block wrote it: the segment of field number [fi]
    holds, at the position the loops give a node of the region, the value of
    that field at the node, and the count of the send is [xferFields] times
    the length of a segment. The call writes no field, no receive buffer and
    no receive request, and all 26 send requests are null when it returns. *)
Theorem CommSend_leaves_every_message_packed {Real_t : Type} (PAD : Z)
    (w : World Real_t) (myRank msgType xferFields : Z)
    (fieldData : list Domain_member) (dx dy dz : Z)
    (doSend planeOnly : bool) :
  strides_fit PAD xferFields dx dy dz (domain w) ->
  let d := domain w in
  let w' := CommSend PAD myRank msgType xferFields fieldData dx dy dz
              doSend planeOnly w in
  (forall dir buf n peer t req,
     In (Isend dir buf n peer t req) (issued w w') ->
     exists b,
       In b (CommSend_blocks (boundary d) (tp d) myRank xferFields dx dy dz
               doSend planeOnly)
       /\ sb_dir b = dir /\ n = xferFields * advance (sb_shape b)
       /\ forall fi f p k,
            nth_error (fields_of xferFields fieldData) fi = Some f ->
            In (p, k) (cells (sb_shape b)) ->
            commDataSend (domain w')
              (buf + Z.of_nat fi * advance (sb_shape b) + p)
            = field d f k)
  /\ field (domain w') = field d
  /\ commDataRecv (domain w') = commDataRecv d
  /\ recvRequest (domain w') = recvRequest d
  /\ (numRanks d <> 1 ->
      forall j, 0 <= j < 26 -> sendRequest (domain w') j = MPI_REQUEST_NULL)
  /\ same_layout d (domain w').
Proof.
  intros H d w'; subst d w'; rewrite CommSend_issued; unfold CommSend.
  destruct (numRanks (domain w) =? 1) eqn:E1.
  - split; [intros ? ? ? ? ? ? []|].
    repeat split; try reflexivity.
    intro H1; apply Z.eqb_eq in E1; contradiction.
  - set (w1 := mkWorld (set_sendRequest (domain w)
                          (clear_requests (sendRequest (domain w))))
                 (calls w)).
    destruct (run_send_frame PAD (xferFields * maxPlaneSize (domain w))
                (xferFields * maxEdgeSize (domain w)) msgType
                (fields_of xferFields fieldData)
                (CommSend_blocks (boundary (domain w)) (tp (domain w)) myRank
                   xferFields dx dy dz doSend planeOnly)
                (mkCounters 0 0 0) w1)
      as (F & V & R & L).
    unfold wait_all_sends; cbn [domain commDataSend field commDataRecv
                                  recvRequest sendRequest set_sendRequest].
    split; [|split; [exact F | split; [exact V | split; [exact R | split]]]].
    + intros dir buf n peer t req Hin.
      apply in_app_or in Hin; destruct Hin as [Hin | [Hin | []]];
        [|discriminate].
      exact (CommSend_messages PAD w1 (boundary (domain w)) (tp (domain w))
               myRank msgType xferFields fieldData dx dy dz doSend planeOnly
               dir buf n peer t req H Hin).
    + intros _ j Hj; apply clear_requests_null; exact Hj.
    + exact L.
Qed.

Lemma CommSend_leaves_every_message_packed_witness :
  strides_fit 16 6 3 3 3 (domain graded_centre)
  /\ In (Isend (mkDir Null Null Minus) 0 54 4 7 0)
        (issued graded_centre
           (CommSend 16 13 7 6 PosVel_fields 3 3 3 true false graded_centre))
  /\ exists b,
       In b (CommSend_blocks (boundary (domain graded_centre)) 3 13 6 3 3 3
               true false)
       /\ sb_dir b = mkDir Null Null Minus
       /\ 54 = 6 * advance (sb_shape b)
       /\ forall fi f p k,
            nth_error (fields_of 6 PosVel_fields) fi = Some f ->
            In (p, k) (cells (sb_shape b)) ->
            commDataSend
              (domain (CommSend 16 13 7 6 PosVel_fields 3 3 3 true false
                         graded_centre))
              (0 + Z.of_nat fi * advance (sb_shape b) + p)
            = field (domain graded_centre) f k.
Proof.
  assert (H : strides_fit 16 6 3 3 3 (domain graded_centre))
    by (unfold strides_fit; simpl; lia).
  assert (Hin : In (Isend (mkDir Null Null Minus) 0 54 4 7 0)
                  (issued graded_centre
                     (CommSend 16 13 7 6 PosVel_fields 3 3 3 true false
                        graded_centre)))
    by (left; reflexivity).
  split; [exact H|]; split; [exact Hin|].
  exact (proj1 (CommSend_leaves_every_message_packed
                  16 graded_centre 13 7 6 PosVel_fields 3 3 3 true false H)
           (mkDir Null Null Minus) 0 54 4 7 0 Hin).
Defined.

(** ** Nodes more than one message carries a value for *)

Lemma NoDup_snd_unique {A B : Type} (l : list (A * B)) (p p' : A) (k : B) :
  NoDup (map snd l) -> In (p, k) l -> In (p', k) l -> p = p'.
Proof.
  induction l as [|[p0 k0] l IH]; intros Hnd H H'; [destruct H|].
  simpl in Hnd; inversion Hnd as [|? ? Hn Hnd']; subst.
  destruct H as [E | H], H' as [E' | H'].
  - inversion E; inversion E'; subst; reflexivity.
  - inversion E; subst; exfalso; apply Hn.
    apply in_map_iff; exists (p', k); auto.
  - inversion E'; subst; exfalso; apply Hn.
    apply in_map_iff; exists (p, k); auto.
  - apply IH; assumption.
Qed.

Lemma PosVel_fields_NoDup : NoDup PosVel_fields.
Proof. repeat constructor; simpl; intuition discriminate. Qed.

Section LastWriter.

Context {Real_t : Type}.
Variable PAD : Z.
Variables mp me : Z.
Variable fs : list Domain_member.
Hypothesis fs_NoDup : NoDup fs.

Lemma unpack_log_guarded (u : UnpackBlock) (bs : list UnpackBlock) :
  forall c, In u bs -> ub_guard u = true ->
            exists buf req, In (Wait (ub_dir u) buf req) (unpack_log PAD mp me bs c).
Proof.
  induction bs as [|b bs IH]; intros c Hu G; [destruct Hu|].
  cbn [unpack_log]; destruct Hu as [-> | Hu].
  - rewrite G; eexists _, _; left; reflexivity.
  - destruct (ub_guard b).
    + destruct (IH (bump (ub_class b) c) Hu G) as (buf & req & H).
      exists buf, req; right; exact H.
    + apply IH; assumption.
Qed.

(** The value of a cell after a run of overwriting blocks is the one the
    last block that holds the cell read from the receive buffer. *)
Lemma run_unpack_last_writer (f : Domain_member) (k : Z) (fi : nat)
    (bs : list UnpackBlock) :
  forall c (w : World Real_t) l1 l2 dir srcAddr req,
    Forall (fun u => NoDup (region (ub_shape u))) bs ->
    unpack_log PAD mp me bs c = l1 ++ Wait dir srcAddr req :: l2 ->
    (forall u, In u bs -> (exists buf r, In (Wait (ub_dir u) buf r) l2) ->
               ~ In k (region (ub_shape u))) ->
    nth_error fs fi = Some f ->
    exists u,
      In u bs /\ ub_dir u = dir /\ ub_guard u = true
      /\ forall p, In (p, k) (cells (ub_shape u)) ->
           field (domain (run_unpack PAD unpack mp me fs bs c w)) f k
           = commDataRecv (domain w)
               (srcAddr + Z.of_nat fi * advance (ub_shape u) + p).
Proof.
  induction bs as [|b bs IH]; intros c w l1 l2 dir srcAddr req Hnd Hlog Hl2 Hf.
  - destruct l1; discriminate.
  - apply Forall_cons_iff in Hnd; destruct Hnd as [Hndb Hnd].
    cbn [unpack_log run_unpack] in *; destruct (ub_guard b) eqn:G.
    + destruct l1 as [|e l1]; cbn [app] in Hlog; inversion Hlog; subst.
      * exists b; split; [left; reflexivity|].
        split; [reflexivity|]; split; [exact G|].
        intros p Hp.
        rewrite (run_unpack_frame PAD mp me fs f k bs).
        -- unfold wait_unpack; cbn [domain field set_field].
           apply unpack_settles; [|left; split].
           ++ intros fi' p' Hf' Hp'.
              assert (fi' = fi).
              { apply (proj1 (NoDup_nth_error fs) fs_NoDup);
                  [apply nth_error_Some; rewrite Hf'; discriminate
                  |rewrite Hf', Hf; reflexivity]. }
              subst fi'.
              rewrite (NoDup_snd_unique _ p' p k Hndb Hp' Hp); reflexivity.
           ++ eapply nth_error_In; exact Hf.
           ++ apply in_map_iff; exists (p, k); auto.
        -- right; intros u Hu Gu; apply Hl2; [right; exact Hu|].
           apply unpack_log_guarded; assumption.
      * destruct (IH (bump (ub_class b) c) (wait_unpack PAD unpack mp me fs b c w)
                    l1 l2 dir srcAddr req Hnd H1
                    (fun u Hu => Hl2 u (or_intror Hu)) Hf)
          as (u & Hu & Hd & Gu & Hv).
        exists u; split; [right; exact Hu|].
        split; [exact Hd|]; split; [exact Gu | exact Hv].
    + destruct (IH c w l1 l2 dir srcAddr req Hnd Hlog
                  (fun u Hu => Hl2 u (or_intror Hu)) Hf)
        as (u & Hu & Hd & Gu & Hv).
      exists u; split; [right; exact Hu|].
      split; [exact Hd|]; split; [exact Gu | exact Hv].
Qed.

End LastWriter.

Lemma CommSyncPosVel_regions_NoDup (fl : Flags) (dx dy dz : Z) (doRecv : bool) :
  1 <= dx -> 1 <= dy -> 1 <= dz ->
  Forall (fun u => NoDup (region (ub_shape u)))
         (CommSyncPosVel_blocks fl dx dy dz doRecv).
Proof.
  intros Hx Hy Hz.
  pose proof (CommSBN_regions_NoDup fl dx dy dz Hx Hy Hz) as H.
  pose proof (Forall_map_eq _ _ (fun ds => NoDup (region (snd ds))) _ _
                (eq_sym (CommSend_CommSBN_shapes fl fl 0 0 0 dx dy dz true)) H)
    as H'.
  exact (Forall_map_eq _ _ (fun ds => NoDup (region (snd ds))) _ _
           (CommSend_CommSyncPosVel_shapes fl fl 0 0 0 dx dy dz true doRecv)
           H').
Qed.

Lemma CommSyncPosVel_sides_are_regions (fl : Flags) (dx dy dz : Z)
    (doRecv : bool) :
  1 <= dx -> 1 <= dy -> 1 <= dz ->
  Forall (fun u => forall k, boundary_node dx dy dz (ub_dir u) k
                             -> In k (region (ub_shape u)))
         (CommSyncPosVel_blocks fl dx dy dz doRecv).
Proof.
  intros Hx Hy Hz.
  exact (Forall_map_eq _ _
           (fun ds => forall k, boundary_node dx dy dz (fst ds) k
                                -> In k (region (snd ds)))
           _ _ (CommSend_CommSyncPosVel_shapes fl fl 0 0 0 dx dy dz
                  true doRecv)
           (CommSend_sides_are_regions fl 0 0 0 dx dy dz true Hx Hy Hz)).
Qed.

(** The block of [CommSyncPosVel] that writes a node last. *)
Lemma CommSyncPosVel_last_block {Real_t : Type} (PAD : Z)
    (w : World Real_t) (myRank : Z) (l1 l2 : list Call) (dir : Direction)
    (srcAddr req : Z) (fi : nat) (f : Domain_member) (k : Z) :
  let d := domain w in
  let dx := sizeX d + 1 in
  let dy := sizeY d + 1 in
  let dz := sizeZ d + 1 in
  let w' := CommSyncPosVel PAD myRank w in
  1 <= dx -> 1 <= dy -> 1 <= dz ->
  issued w w' = l1 ++ Wait dir srcAddr req :: l2 ->
  (forall e d', In e l2 -> call_dir e = Some d' ->
                ~ boundary_node dx dy dz d' k) ->
  nth_error PosVel_fields fi = Some f ->
  exists u,
    In u (CommSyncPosVel_blocks (boundary d) dx dy dz false)
    /\ ub_dir u = dir
    /\ forall p, In (p, k) (cells (ub_shape u)) ->
         field (domain w') f k
         = commDataRecv d (srcAddr + Z.of_nat fi * advance (ub_shape u) + p).
Proof.
  intros d dx dy dz w' Dx Dy Dz Hlog Hl2 Hf; subst w'.
  rewrite CommSyncPosVel_issued in Hlog; unfold CommSyncPosVel.
  fold d in Hlog |- *; fold dx dy dz in Hlog |- *.
  destruct (numRanks d =? 1); [destruct l1; discriminate|].
  pose proof (CommSyncPosVel_regions_NoDup (boundary d) dx dy dz false
                Dx Dy Dz) as Hnd.
  destruct (blocks_sides (boundary d) dx dy dz false Dx Dy Dz) as [_ Hrs].
  rewrite Forall_forall in Hrs.
  destruct (run_unpack_last_writer PAD (6 * maxPlaneSize d) (6 * maxEdgeSize d)
              (fields_of 6 PosVel_fields) PosVel_fields_NoDup f k fi
              (CommSyncPosVel_blocks (boundary d) dx dy dz false)
              (mkCounters 0 0 0) w l1 l2 dir srcAddr req Hnd Hlog)
    as (u & Hu & Hd & _ & Hv).
  - intros u Hu (buf & r & Hin) Hr.
    apply (Hl2 (Wait (ub_dir u) buf r) (ub_dir u) Hin eq_refl).
    apply Hrs; assumption.
  - exact Hf.
  - exists u; auto.
Qed.

(** X12. Where several messages carry a value for the same node (a node of
    an edge or a corner of the mesh lies on the faces that meet there too),
    [CommSyncPosVel] leaves the value of the message it consumes last: if the
    node lies on the side of a direction the call waits for and on the side
    of no direction it waits for later, then each of the six fields holds at
    that node the value its segment of that message holds for the node. *)
Theorem CommSyncPosVel_keeps_the_last_message {Real_t : Type} (PAD : Z)
    (w : World Real_t) (myRank : Z) (l1 l2 : list Call) (dir : Direction)
    (srcAddr req : Z) (fi : nat) (f : Domain_member) (k : Z) :
  let d := domain w in
  let dx := sizeX d + 1 in
  let dy := sizeY d + 1 in
  let dz := sizeZ d + 1 in
  let w' := CommSyncPosVel PAD myRank w in
  0 <= sizeX d -> 0 <= sizeY d -> 0 <= sizeZ d ->
  issued w w' = l1 ++ Wait dir srcAddr req :: l2 ->
  boundary_node dx dy dz dir k ->
  (forall e d', In e l2 -> call_dir e = Some d' ->
                ~ boundary_node dx dy dz d' k) ->
  nth_error PosVel_fields fi = Some f ->
  exists u p,
    In u (CommSyncPosVel_blocks (boundary d) dx dy dz false)
    /\ ub_dir u = dir /\ In (p, k) (cells (ub_shape u))
    /\ field (domain w') f k
       = commDataRecv d (srcAddr + Z.of_nat fi * advance (ub_shape u) + p).
Proof.
  intros d dx dy dz w' Hx Hy Hz Hlog Hk Hl2 Hf.
  assert (Dx : 1 <= dx) by (subst dx; lia).
  assert (Dy : 1 <= dy) by (subst dy; lia).
  assert (Dz : 1 <= dz) by (subst dz; lia).
  destruct (CommSyncPosVel_last_block PAD w myRank l1 l2 dir srcAddr req fi f k
              Dx Dy Dz Hlog Hl2 Hf) as (u & Hu & Hd & Hv).
  pose proof (CommSyncPosVel_sides_are_regions (boundary d) dx dy dz false
                Dx Dy Dz) as Hsr.
  rewrite Forall_forall in Hsr.
  assert (Hr : In k (region (ub_shape u)))
    by (apply Hsr; [exact Hu | rewrite Hd; exact Hk]).
  apply in_map_iff in Hr; destruct Hr as ([p k'] & E & Hp).
  simpl in E; subst k'.
  exists u, p; split; [exact Hu|]; split; [exact Hd|].
  split; [exact Hp | apply Hv; exact Hp].
Qed.

Lemma CommSyncPosVel_keeps_the_last_message_witness :
  boundary_node 3 3 3 (mkDir Plus Plus Null) 8
  /\ boundary_node 3 3 3 (mkDir Plus Null Null) 8
  /\ exists u p,
       In u (CommSyncPosVel_blocks (boundary (domain graded_centre)) 3 3 3 false)
       /\ ub_dir u = mkDir Plus Plus Null /\ In (p, 8) (cells (ub_shape u))
       /\ field (domain (CommSyncPosVel 16 13 graded_centre)) Domain_y 8
          = commDataRecv (domain graded_centre)
              (162 + Z.of_nat 1 * advance (ub_shape u) + p).
Proof.
  assert (Hk : boundary_node 3 3 3 (mkDir Plus Plus Null) 8)
    by (exists 2, 2, 0; simpl; repeat split; lia).
  split; [exact Hk|].
  split; [exists 2, 2, 0; simpl; repeat split; lia|].
  apply (CommSyncPosVel_keeps_the_last_message 16 graded_centre 13
           [Wait (mkDir Null Null Plus) 0 0; Wait (mkDir Null Plus Null) 54 1;
            Wait (mkDir Plus Null Null) 108 2]
           [Wait (mkDir Null Plus Plus) 180 4; Wait (mkDir Plus Null Plus) 198 5;
            Wait (mkDir Minus Plus Null) 216 6;
            Wait (mkDir Null Minus Plus) 234 7;
            Wait (mkDir Minus Null Plus) 252 8;
            Wait (mkDir Minus Minus Plus) 270 9;
            Wait (mkDir Plus Minus Plus) 286 10;
            Wait (mkDir Minus Plus Plus) 302 11;
            Wait (mkDir Plus Plus Plus) 318 12]
           (mkDir Plus Plus Null) 162 3 1%nat Domain_y 8).
  - simpl; lia.
  - simpl; lia.
  - simpl; lia.
  - reflexivity.
  - exact Hk.
  - intros e d' Hin Hc (x & y & z & Bx & By & Bz & E & Sx & Sy & Sz).
    simpl in Hin.
    repeat (destruct Hin as [<- | Hin];
            [inversion Hc; subst d'; simpl in *; lia|]).
    destruct Hin.
  - reflexivity.
Defined.

(** ** The two sides of a shared boundary *)

Ltac pick_pair i j n tac :=
  first [ tac 0 (n - 1) | tac (n - 1) 0 | tac i i | tac j j ].

Ltac close_mirror s c c' n :=
  assert (mirrored s c c' n) by (cbn [mirrored]; repeat split; reflexivity).

Ltac find_facing i j :=
  match goal with
  | |- facing ?dx ?dy ?dz (mkDir ?a ?b ?c) _ _ =>
      pick_pair i j dx ltac:(fun x x' =>
        close_mirror a x x' dx;
        pick_pair i j dy ltac:(fun y y' =>
          close_mirror b y y' dy;
          pick_pair i j dz ltac:(fun z z' =>
            close_mirror c z z' dz;
            exists x, y, z, x', y', z';
            cbn [d_col d_row d_plane];
            solve [repeat split; try assumption; try lia; try ring])))
  end.

Lemma CommSend_blocks_face_each_other (fl fl' : Flags)
    (tp tp' myRank myRank' xferFields xferFields' dx dy dz : Z)
    (doSend doSend' : bool) :
  1 <= dx -> 1 <= dy -> 1 <= dz ->
  Forall (fun b =>
            forall b',
              In b' (CommSend_blocks fl' tp' myRank' xferFields' dx dy dz
                       doSend' false) ->
              sb_dir b' = opposite (sb_dir b) ->
              forall p k k',
                In (p, k) (cells (sb_shape b)) ->
                In (p, k') (cells (sb_shape b')) ->
                facing dx dy dz (sb_dir b) k k')
         (CommSend_blocks fl tp myRank xferFields dx dy dz doSend false).
Proof.
  intros Hx Hy Hz.
  unfold CommSend_blocks, CommSend_planes, CommSend_edges_corners.
  cbn [negb app].
  repeat (apply Forall_cons || apply Forall_nil);
    cbn [sb_shape sb_dir opposite flip d_col d_row d_plane];
    intros b' Hb' Hd p k k' Hc Hc';
    cbn [In] in Hb';
    repeat (destruct Hb' as [<- | Hb']; [try discriminate Hd|]);
    try (destruct Hb'); clear Hd; cbn [sb_shape] in Hc'.
  all: first
    [ cbn [cells In] in Hc, Hc';
      destruct Hc as [Hc | []]; destruct Hc' as [Hc' | []];
      inversion Hc; inversion Hc'; subst; find_facing 0 0
    | apply cells_Run2 in Hc; destruct Hc as (i & j & Hi & Hj & Ep & ->);
      apply cells_Run2 in Hc'; destruct Hc' as (i' & j' & Hi' & Hj' & Ep' & ->);
      rewrite Ep in Ep';
      destruct (row_major_unique _ _ _ _ _ Hj Hj' Ep') as [<- <-];
      find_facing i j
    | apply cells_Run1 in Hc; destruct Hc as (Hp & ->);
      apply cells_Run1 in Hc'; destruct Hc' as (_ & ->);
      first [ find_facing p 0
            | destruct (plane_coords dx dy p ltac:(lia) Hp)
                as (x & y & Bx & By & ->);
              find_facing x y ] ].
Qed.

Lemma CommSend_blocks_opposite_advance (fl fl' : Flags)
    (tp tp' myRank myRank' xferFields xferFields' dx dy dz : Z)
    (doSend doSend' : bool) :
  Forall (fun b =>
            forall b',
              In b' (CommSend_blocks fl' tp' myRank' xferFields' dx dy dz
                       doSend' false) ->
              sb_dir b' = opposite (sb_dir b) ->
              advance (sb_shape b') = advance (sb_shape b))
         (CommSend_blocks fl tp myRank xferFields dx dy dz doSend false).
Proof.
  unfold CommSend_blocks, CommSend_planes, CommSend_edges_corners.
  cbn [negb app].
  repeat (apply Forall_cons || apply Forall_nil);
    cbn [sb_shape sb_dir opposite flip d_col d_row d_plane];
    intros b' Hb' Hd; cbn [In] in Hb';
    repeat (destruct Hb' as [<- | Hb']; [try discriminate Hd|]);
    try (destruct Hb'); reflexivity.
Qed.

Lemma consuming_block_is_a_send_block (fl : Flags) (dx dy dz : Z)
    (doRecv : bool) (u : UnpackBlock) :
  In u (CommSyncPosVel_blocks fl dx dy dz doRecv)
  \/ In u (CommSBN_blocks fl dx dy dz) ->
  exists b', In b' (CommSend_blocks fl 0 0 0 dx dy dz true false)
             /\ sb_dir b' = ub_dir u /\ sb_shape b' = ub_shape u.
Proof.
  intro H.
  assert (Hin : In (ub_dir u, ub_shape u)
                  (map (fun b => (sb_dir b, sb_shape b))
                       (CommSend_blocks fl 0 0 0 dx dy dz true false))).
  { destruct H as [H | H].
    - rewrite (CommSend_CommSyncPosVel_shapes fl fl 0 0 0 dx dy dz true doRecv).
      apply (in_map (fun u => (ub_dir u, ub_shape u))); exact H.
    - rewrite (CommSend_CommSBN_shapes fl fl 0 0 0 dx dy dz true).
      apply (in_map (fun u => (ub_dir u, ub_shape u))); exact H. }
  apply in_map_iff in Hin; destruct Hin as (b' & E & Hb').
  inversion E; exists b'; auto.
Qed.

(** X13. The block of [CommSend] for a direction and the block of [CommSBN]
    or [CommSyncPosVel] for the opposite direction, on meshes of the same
    size, lay a message out the same way: their segments have the same
    length, and the node the sender reads for a position of a segment and
    the node the receiver writes from that position are the same point of
    the boundary the two meshes share (same coordinates along the axes the
    direction does not move along, opposite ends along the others). *)
Theorem opposite_blocks_hold_the_same_boundary_points (fl fl' : Flags)
    (tp myRank xferFields dx dy dz : Z) (doSend doRecv : bool)
    (b : SendBlock) (u : UnpackBlock) :
  1 <= dx -> 1 <= dy -> 1 <= dz ->
  In b (CommSend_blocks fl tp myRank xferFields dx dy dz doSend false) ->
  In u (CommSyncPosVel_blocks fl' dx dy dz doRecv)
  \/ In u (CommSBN_blocks fl' dx dy dz) ->
  ub_dir u = opposite (sb_dir b) ->
  advance (ub_shape u) = advance (sb_shape b)
  /\ forall p k k',
       In (p, k) (cells (sb_shape b)) -> In (p, k') (cells (ub_shape u)) ->
       facing dx dy dz (sb_dir b) k k'.
Proof.
  intros Hx Hy Hz Hb Hu Hd.
  destruct (consuming_block_is_a_send_block fl' dx dy dz doRecv u Hu)
    as (b' & Hb' & Ed & Es).
  rewrite <- Ed in Hd; rewrite <- Es.
  pose proof (CommSend_blocks_face_each_other fl fl' tp 0 myRank 0
                xferFields 0 dx dy dz doSend true Hx Hy Hz) as Hf.
  pose proof (CommSend_blocks_opposite_advance fl fl' tp 0 myRank 0
                xferFields 0 dx dy dz doSend true) as Ha.
  rewrite Forall_forall in Hf, Ha.
  split; [exact (Ha b Hb b' Hb' Hd) | exact (Hf b Hb b' Hb' Hd)].
Qed.

Lemma opposite_blocks_hold_the_same_boundary_points_witness :
  1 <= 3 /\ facing 3 3 3 (mkDir Null Null Plus) 22 4.
Proof.
  split; [lia|].
  refine (proj2 (opposite_blocks_hold_the_same_boundary_points
                   (mkFlags true true true true true true)
                   (mkFlags true true true true true true)
                   3 13 6 3 3 3 true false
                   (mkSendBlock (mkDir Null Null Plus) true Plane (13 + 3*3)
                      (Run1 (3 * 3) (fun i => 3*3*(3 - 1) + i)) (6 * (3 * 3)))
                   (mkUnpackBlock (mkDir Null Null Minus) true Plane
                      (Run1 (3 * 3) (fun i => i)))
                   ltac:(lia) ltac:(lia) ltac:(lia) _ _ eq_refl)
            4 22 4 _ _).
  - right; left; reflexivity.
  - right; left; reflexivity.
  - apply cells_Run1; split; [lia | reflexivity].
  - apply cells_Run1; split; [lia | reflexivity].
Defined.

(** ** From the sender's mesh to the receiver's *)

Lemma coords_unique (dx dy x y z x' y' z' : Z) :
  0 <= x < dx -> 0 <= y < dy -> 0 <= x' < dx -> 0 <= y' < dy ->
  x + y * dx + z * (dx * dy) = x' + y' * dx + z' * (dx * dy) ->
  x = x' /\ y = y' /\ z = z'.
Proof.
  intros Hx Hy Hx' Hy' E.
  destruct (row_major_unique dx (z * dy + y) x (z' * dy + y') x' Hx Hx')
    as [E1 E2]; [lia|].
  destruct (row_major_unique dy z y z' y' Hy Hy' E1) as [E3 E4].
  auto.
Qed.

Lemma facing_sides (dx dy dz : Z) (dir : Direction) (k k' : Z) :
  facing dx dy dz dir k k' ->
  boundary_node dx dy dz dir k /\ boundary_node dx dy dz (opposite dir) k'.
Proof.
  intros (x & y & z & x' & y' & z' & Mx & My & Mz & B & B' & E & E').
  split; [exists x, y, z | exists x', y', z'];
    destruct dir as [[] [] []];
    cbn [mirrored on_side opposite flip d_col d_row d_plane] in *;
    repeat split; try lia.
Qed.

Lemma facing_unique (dx dy dz : Z) (dir : Direction) (k k0 k' : Z) :
  facing dx dy dz dir k k' -> facing dx dy dz dir k0 k' -> k = k0.
Proof.
  intros (x & y & z & x' & y' & z' & Mx & My & Mz & B & B' & E & E')
         (x0 & y0 & z0 & x0' & y0' & z0' & Mx0 & My0 & Mz0 & B0 & B0' & E0 & E0').
  rewrite E' in E0'.
  destruct (coords_unique dx dy x' y' z' x0' y0' z0') as (Ex & Ey & Ez);
    try tauto.
  assert (x = x0) by (destruct (d_col dir); cbn [mirrored] in *; lia).
  assert (y = y0) by (destruct (d_row dir); cbn [mirrored] in *; lia).
  assert (z = z0) by (destruct (d_plane dir); cbn [mirrored] in *; lia).
  subst; reflexivity.
Qed.

Lemma CommSend_blocks_opposite_positions (fl fl' : Flags)
    (tp tp' myRank myRank' xferFields xferFields' dx dy dz : Z)
    (doSend doSend' : bool) :
  Forall (fun b =>
            forall b',
              In b' (CommSend_blocks fl' tp' myRank' xferFields' dx dy dz
                       doSend' false) ->
              sb_dir b' = opposite (sb_dir b) ->
              forall p k', In (p, k') (cells (sb_shape b')) ->
                           exists k, In (p, k) (cells (sb_shape b)))
         (CommSend_blocks fl tp myRank xferFields dx dy dz doSend false).
Proof.
  unfold CommSend_blocks, CommSend_planes, CommSend_edges_corners.
  cbn [negb app].
  repeat (apply Forall_cons || apply Forall_nil);
    cbn [sb_shape sb_dir opposite flip d_col d_row d_plane];
    intros b' Hb' Hd p k' Hc'; cbn [In] in Hb';
    repeat (destruct Hb' as [<- | Hb']; [try discriminate Hd|]);
    try (destruct Hb'); clear Hd; cbn [sb_shape] in Hc'.
  all: first
    [ cbn [cells In] in Hc'; destruct Hc' as [Hc' | []]; inversion Hc';
      eexists; left; reflexivity
    | apply cells_Run2 in Hc'; destruct Hc' as (i & j & Hi & Hj & Ep & _);
      eexists; apply cells_Run2; exists i, j; repeat split;
      [apply Hi | apply Hi | apply Hj | apply Hj | exact Ep]
    | apply cells_Run1 in Hc'; destruct Hc' as (Hp & _);
      eexists; apply cells_Run1; split; [exact Hp | reflexivity] ].
Qed.

(** X14. [CommSend] on one domain and [CommSyncPosVel] on its neighbour
    compose: when a message of the six position and velocity fields that the
    sender packed for a direction has arrived in the slot the receiver reads
    for the opposite direction, then at every node of the receiver's
    boundary that no message consumed later covers, each field holds after
    [CommSyncPosVel] the value the sender's field had at the same point of
    the shared boundary. *)
Theorem exchange_copies_the_shared_boundary {Real_t : Type} (PAD : Z)
    (A B : World Real_t) (rA rB msgType : Z) (doSend : bool)
    (dir : Direction) (destAddr srcAddr n peer t req r : Z)
    (l1 l2 : list Call) (fi : nat) (f : Domain_member) (k k' : Z) :
  let dx := sizeX (domain B) + 1 in
  let dy := sizeY (domain B) + 1 in
  let dz := sizeZ (domain B) + 1 in
  let A' := CommSend PAD rA msgType 6 PosVel_fields dx dy dz doSend false A in
  let B' := CommSyncPosVel PAD rB B in
  0 <= sizeX (domain B) -> 0 <= sizeY (domain B) -> 0 <= sizeZ (domain B) ->
  strides_fit PAD 6 dx dy dz (domain A) ->
  In (Isend dir destAddr n peer t req) (issued A A') ->
  issued B B' = l1 ++ Wait (opposite dir) srcAddr r :: l2 ->
  delivered (commDataSend (domain A')) (commDataRecv (domain B))
    destAddr srcAddr n ->
  facing dx dy dz dir k k' ->
  (forall e d', In e l2 -> call_dir e = Some d' ->
                ~ boundary_node dx dy dz d' k') ->
  nth_error PosVel_fields fi = Some f ->
  field (domain B') f k' = field (domain A) f k.
Proof.
  intros dx dy dz A' B' Hx Hy Hz Hfit Hsend Hlog Hdel Hface Hlater Hf.
  assert (Dx : 1 <= dx) by (subst dx; lia).
  assert (Dy : 1 <= dy) by (subst dy; lia).
  assert (Dz : 1 <= dz) by (subst dz; lia).
  (* the sender's block and what it left in the send buffer *)
  assert (Hmsg : exists b,
             In b (CommSend_blocks (boundary (domain A)) (tp (domain A)) rA 6
                     dx dy dz doSend false)
             /\ sb_dir b = dir /\ n = 6 * advance (sb_shape b)
             /\ forall fi f p k,
                  nth_error (fields_of 6 PosVel_fields) fi = Some f ->
                  In (p, k) (cells (sb_shape b)) ->
                  commDataSend (domain A')
                    (destAddr + Z.of_nat fi * advance (sb_shape b) + p)
                  = field (domain A) f k).
  { subst A'; rewrite CommSend_issued in Hsend; unfold CommSend.
    destruct (numRanks (domain A) =? 1); [destruct Hsend|].
    apply in_app_or in Hsend; destruct Hsend as [Hsend | [Hsend | []]];
      [|discriminate].
    unfold wait_all_sends; cbn [domain commDataSend set_sendRequest].
    exact (CommSend_messages PAD
             (mkWorld (set_sendRequest (domain A)
                         (clear_requests (sendRequest (domain A))))
                (calls A))
             (boundary (domain A)) (tp (domain A)) rA msgType 6 PosVel_fields
             dx dy dz doSend false dir destAddr n peer t req Hfit Hsend). }
  destruct Hmsg as (b & Hb & Hdb & Hn & Hv).
  (* the receiver's block that writes the node last *)
  destruct (CommSyncPosVel_last_block PAD B rB l1 l2 (opposite dir)
              srcAddr r fi f k' Dx Dy Dz Hlog Hlater Hf)
    as (u & Hu & Hdu & Hval).
  fold dx dy dz in Hu.
  destruct (facing_sides _ _ _ _ _ _ Hface) as [_ Hk'].
  pose proof (CommSyncPosVel_sides_are_regions (boundary (domain B)) dx dy dz
                false Dx Dy Dz) as Hsr.
  rewrite Forall_forall in Hsr.
  assert (Hr : In k' (region (ub_shape u)))
    by (apply Hsr; [exact Hu | rewrite Hdu; exact Hk']).
  apply in_map_iff in Hr; destruct Hr as ([p k0'] & E & Hp).
  simpl in E; subst k0'.
  specialize (Hval p Hp).
  (* the two blocks lay the message out the same way *)
  rewrite <- Hdb in Hdu, Hface.
  destruct (consuming_block_is_a_send_block (boundary (domain B)) dx dy dz
              false u (or_introl Hu)) as (b' & Hb' & Ed & Es).
  pose proof (CommSend_blocks_face_each_other
                (boundary (domain A)) (boundary (domain B)) (tp (domain A)) 0
                rA 0 6 0 dx dy dz doSend true Dx Dy Dz) as Hfc.
  pose proof (CommSend_blocks_opposite_advance
                (boundary (domain A)) (boundary (domain B)) (tp (domain A)) 0
                rA 0 6 0 dx dy dz doSend true) as Ha.
  pose proof (CommSend_blocks_opposite_positions
                (boundary (domain A)) (boundary (domain B)) (tp (domain A)) 0
                rA 0 6 0 dx dy dz doSend true) as Hpos.
  rewrite Forall_forall in Hfc, Ha, Hpos.
  rewrite <- Es in Hp, Hval.
  specialize (Hfc b Hb b' Hb' (eq_trans Ed Hdu)).
  specialize (Ha b Hb b' Hb' (eq_trans Ed Hdu)).
  destruct (Hpos b Hb b' Hb' (eq_trans Ed Hdu) p k' Hp) as (k0 & Hk0).
  assert (k = k0)
    by (apply (facing_unique dx dy dz (sb_dir b) k k0 k');
        [exact Hface | exact (Hfc p k0 k' Hk0 Hp)]).
  subst k0.
  (* the value travels through the two buffers *)
  pose proof (CommSend_well_positioned (boundary (domain A)) (tp (domain A))
                rA 6 dx dy dz doSend false) as Hw.
  rewrite Forall_forall in Hw.
  pose proof (proj1 (Hw b Hb) p k Hk0) as Hpb.
  assert (Hlt : (fi < 6)%nat)
    by (change 6%nat with (length PosVel_fields);
        apply nth_error_Some; rewrite Hf; discriminate).
  assert ((Z.of_nat fi + 1) * advance (sb_shape b) <= 6 * advance (sb_shape b))
    by (apply Z.mul_le_mono_nonneg_r; lia).
  assert (0 <= Z.of_nat fi * advance (sb_shape b))
    by (apply Z.mul_nonneg_nonneg; lia).
  subst B'; rewrite Hval, Ha.
  replace (srcAddr + Z.of_nat fi * advance (sb_shape b) + p)
    with (srcAddr + (Z.of_nat fi * advance (sb_shape b) + p)) by lia.
  rewrite Hdel by lia.
  replace (destAddr + (Z.of_nat fi * advance (sb_shape b) + p))
    with (destAddr + Z.of_nat fi * advance (sb_shape b) + p) by lia.
  apply Hv; [exact Hf | exact Hk0].
Qed.

Lemma exchange_copies_the_shared_boundary_witness :
  facing 3 3 3 (mkDir Null Null Minus) 4 22
  /\ field (domain (CommSyncPosVel 16 4 below_graded_centre)) Domain_z 22
     = field (domain graded_centre) Domain_z 4.
Proof.
  assert (Hface : facing 3 3 3 (mkDir Null Null Minus) 4 22)
    by (exists 1, 1, 0, 1, 1, 2; simpl; repeat split; lia).
  split; [exact Hface|].
  apply (exchange_copies_the_shared_boundary 16 graded_centre
           below_graded_centre 13 4 7 false (mkDir Null Null Minus)
           0 0 54 4 7 0 0 []
           [Wait (mkDir Null Plus Null) 54 1; Wait (mkDir Plus Null Null) 108 2;
            Wait (mkDir Plus Plus Null) 162 3; Wait (mkDir Null Plus Plus) 180 4;
            Wait (mkDir Plus Null Plus) 198 5;
            Wait (mkDir Minus Plus Null) 216 6;
            Wait (mkDir Null Minus Plus) 234 7;
            Wait (mkDir Minus Null Plus) 252 8;
            Wait (mkDir Minus Minus Plus) 270 9;
            Wait (mkDir Plus Minus Plus) 286 10;
            Wait (mkDir Minus Plus Plus) 302 11;
            Wait (mkDir Plus Plus Plus) 318 12]
           2%nat Domain_z 4 22).
  - simpl; lia.
  - simpl; lia.
  - simpl; lia.
  - unfold strides_fit; simpl; lia.
  - left; reflexivity.
  - reflexivity.
  - intros q _; reflexivity.
  - exact Hface.
  - intros e d' Hin Hc (x & y & z & Bx & By & Bz & E & Sx & Sy & Sz).
    simpl in Hin.
    repeat (destruct Hin as [<- | Hin];
            [inversion Hc; subst d'; simpl in *; lia|]).
    destruct Hin.
  - reflexivity.
Defined.

(** ** What CommSBN adds up *)

Section Sums.

Context {Real_t : Type}.
Variable Real_add : Real_t -> Real_t -> Real_t.
Variable PAD : Z.
Variables mp me : Z.
Variable fs : list Domain_member.
Hypothesis fs_NoDup : NoDup fs.

Lemma run_unpack_add_sums (f : Domain_member) (k : Z) (fi : nat)
    (bs : list UnpackBlock) :
  forall c (w : World Real_t),
    Forall (fun u => NoDup (region (ub_shape u))) bs ->
    nth_error fs fi = Some f ->
    field (domain (run_unpack PAD (unpack_add Real_add) mp me fs bs c w)) f k
    = fold_left Real_add
        (contributions PAD mp me (commDataRecv (domain w)) fi k bs c)
        (field (domain w) f k).
Proof.
  induction bs as [|b bs IH]; intros c w Hnd Hf; [reflexivity|].
  apply Forall_cons_iff in Hnd; destruct Hnd as [Hndb Hnd].
  cbn [run_unpack contributions]; destruct (ub_guard b); [|apply IH; assumption].
  rewrite (IH _ _ Hnd Hf), fold_left_app.
  unfold wait_unpack at 1 2; cbn [domain commDataRecv field set_field
                                    set_recvRequest].
  f_equal.
  destruct (find (fun pk => snd pk =? k) (cells (ub_shape b)))
    as [[p k0]|] eqn:E.
  - apply find_some in E; destruct E as [Hin Hk]; cbn [snd fst] in *.
    apply Z.eqb_eq in Hk; subst k0.
    cbn [fold_left]; apply unpack_add_hit; assumption.
  - cbn [fold_left]; apply unpack_add_miss; right; intro Hin.
    apply in_map_iff in Hin; destruct Hin as ([p k0] & Ek & Hin).
    simpl in Ek; subst k0.
    pose proof (find_none _ _ E _ Hin) as Hn; simpl in Hn.
    rewrite Z.eqb_refl in Hn; discriminate.
Qed.

End Sums.

(** X15. [CommSBN] adds to a field at a node the values that the messages it
    consumes carry for that node, one after the other in the order of its
    blocks: a node of a face interior receives one value, a node of an edge
    or a corner one from every face, edge and corner message that covers
    it. *)
Theorem CommSBN_adds_every_message_that_covers_the_node {Real_t : Type}
    (Real_add : Real_t -> Real_t -> Real_t) (PAD : Z) (w : World Real_t)
    (myRank xferFields : Z) (fieldData : list Domain_member)
    (fi : nat) (f : Domain_member) (k : Z) :
  let d := domain w in
  numRanks d <> 1 ->
  0 <= sizeX d -> 0 <= sizeY d -> 0 <= sizeZ d ->
  NoDup (fields_of xferFields fieldData) ->
  nth_error (fields_of xferFields fieldData) fi = Some f ->
  field (domain (CommSBN Real_add PAD myRank xferFields fieldData w)) f k
  = fold_left Real_add
      (contributions PAD (xferFields * maxPlaneSize d)
         (xferFields * maxEdgeSize d) (commDataRecv d) fi k
         (CommSBN_blocks (boundary d) (sizeX d + 1) (sizeY d + 1)
            (sizeZ d + 1))
         (mkCounters 0 0 0))
      (field d f k).
Proof.
  intros d H1 Hx Hy Hz Hnd Hf; unfold CommSBN; fold d.
  apply Z.eqb_neq in H1; rewrite H1.
  apply run_unpack_add_sums; [exact Hnd | | exact Hf].
  apply CommSBN_regions_NoDup; lia.
Qed.

Lemma CommSBN_adds_every_message_that_covers_the_node_witness :
  numRanks (domain centre_of_27) <> 1
  /\ field (domain (CommSBN Z.add 16 13 3 MonoQ_fields centre_of_27))
       Domain_delv_eta 0
     = fold_left Z.add [1; 1; 1; 1; 1; 1; 1] 0.
Proof.
  assert (H1 : numRanks (domain centre_of_27) <> 1) by (simpl; lia).
  split; [exact H1|].
  exact (CommSBN_adds_every_message_that_covers_the_node
           Z.add 16 centre_of_27 13 3 MonoQ_fields 1%nat Domain_delv_eta 0
           H1 ltac:(simpl; lia) ltac:(simpl; lia) ltac:(simpl; lia)
           MonoQ_fields_NoDup eq_refl).
Defined.
